(** * USB host mass storage: a shallow embedding of
      [adafruit_usb_host_mass_storage.py] and the properties of its
      Bulk-Only-Transport engine.

    Python integers are [Z], the contents of [bytes] and [bytearray] objects
    are [list byte], list positions are [nat].  The USB device is an
    explicit world: a script of the replies still to come and the trace of
    the requests made so far.  The methods of [USBMassStorage] are
    computations in a state and exception monad over the pair (object,
    device); a buffer a method mutates is returned by its model.

    The file has the model first (bytes, [struct], the device, the methods
    in the order of the source), then the notions the statements are
    written with, then the proofs: the command block, the readiness loop,
    construction, block commands, capacity, the status wrapper, failed
    transfers and the descriptor scan; then what holds of every session:
    what the methods keep and what they raise, the scan on arbitrary
    bytes, and the numbers and buffers that go over the wire. *)

From Stdlib Require Import ZArith List Lia Bool.
From Stdlib.Strings Require Import Byte.
Import ListNotations.
Open Scope Z_scope.

(* ------------------------------------------------------------------ *)
(** * Bytes *)

Module Bytes.

(** The integer a byte denotes, as Python's [buf[i]] yields it. *)
Definition byte_val (b : byte) : Z := Z.of_N (Byte.to_N b).

(** Storing an integer in a byte: fails outside [0, 256). *)
Definition to_byte (z : Z) : option byte :=
  if z <? 0 then None else Byte.of_N (Z.to_N z).

(** Low eight bits of an integer as a byte. *)
Definition byte_wrap (z : Z) : byte :=
  match to_byte (z mod 256) with
  | Some b => b
  | None => x00
  end.

(** [n] bytes of [v], least significant first. *)
Fixpoint le_bytes (n : nat) (v : Z) : list byte :=
  match n with
  | O => []
  | S k => byte_wrap v :: le_bytes k (v / 256)
  end.

(** [n] bytes of [v], most significant first. *)
Definition be_bytes (n : nat) (v : Z) : list byte := rev (le_bytes n v).

(** The unsigned integer held by a byte string, most significant first. *)
Definition be_decode (bs : list byte) : Z :=
  fold_left (fun acc b => acc * 256 + byte_val b) bs 0.

(** [bytearray(n)]: [n] zero bytes. *)
Definition bytearray (n : nat) : list byte := repeat x00 n.

(** [buf[lo:hi] = v] on a bytearray, for [lo <= hi]; the array is resized
    when [v] is not [hi - lo] bytes long, and both bounds are clipped to
    the length of [buf], as in Python. *)
Definition slice_assign (buf : list byte) (lo hi : nat) (v : list byte)
  : list byte :=
  firstn lo buf ++ v ++ skipn hi buf.

End Bytes.
Import Bytes.

(* ------------------------------------------------------------------ *)
(** * Exceptions and outcomes *)

(** The ways a transfer of [usb.core] fails; all are [usb.core.USBError]
    ([USBTimeoutError] is a subclass of it). *)
Inductive usb_failure : Type :=
| Stall
| Timeout
| OtherFailure.

Inductive exn : Type :=
| NoMSCInterface                 (* ValueError("No MSC interface found") *)
| ByteRange                      (* ValueError: byte must be in range(0, 256) *)
| OutOfTries                     (* RuntimeError("Out of tries") *)
| USBError (f : usb_failure)     (* usb.core.USBError *)
| IndexError
| StructError.                   (* struct.error, value or buffer out of range *)

Inductive outcome (A : Type) : Type :=
| Return (a : A)
| Raise (e : exn)
| Diverge.
Arguments Return {A} a.
Arguments Raise {A} e.
Arguments Diverge {A}.

(* ------------------------------------------------------------------ *)
(** * The [struct] module, for the formats the driver uses *)

Module Struct.

Inductive code : Type := cB | cH | cI | cx.

Definition size (c : code) : nat :=
  match c with cB => 1 | cH => 2 | cI => 4 | cx => 1 end%nat.

Inductive order : Type := Little | Big.

Definition encode (o : order) (n : nat) (v : Z) : option (list byte) :=
  if (0 <=? v) && (v <? 2 ^ (8 * Z.of_nat n))
  then Some (match o with Little => le_bytes n v | Big => be_bytes n v end)
  else None.

(** Standard-size packing ([<] or [>]): no alignment, a pad byte [x] is
    written as zero and consumes no argument; a value out of range for its
    code, or a wrong number of values, is an error. *)
Fixpoint pack (o : order) (fmt : list code) (vals : list Z)
  : option (list byte) :=
  match fmt with
  | [] => match vals with [] => Some [] | _ => None end
  | cx :: fmt' =>
      match pack o fmt' vals with
      | Some bs => Some (x00 :: bs)
      | None => None
      end
  | c :: fmt' =>
      match vals with
      | [] => None
      | v :: vals' =>
          match encode o (size c) v, pack o fmt' vals' with
          | Some b, Some bs => Some (b ++ bs)
          | _, _ => None
          end
      end
  end.

Definition calcsize (fmt : list code) : nat :=
  fold_right (fun c n => (size c + n)%nat) 0%nat fmt.

(** [struct.pack_into(fmt, buffer, offset, *vals)]: the packed bytes
    replace [calcsize fmt] bytes of [buffer] from [offset]; the buffer
    must be large enough. *)
Definition pack_into (o : order) (fmt : list code) (buffer : list byte)
           (offset : nat) (vals : list Z) : exn + list byte :=
  match pack o fmt vals with
  | None => inl StructError
  | Some bs =>
      if (offset + calcsize fmt <=? length buffer)%nat
      then inr (firstn offset buffer ++ bs
                  ++ skipn (offset + calcsize fmt) buffer)
      else inl StructError
  end.

(** [struct.unpack(">II", buffer)]: the buffer must be exactly 8 bytes. *)
Definition unpack_II_be (buffer : list byte) : exn + (Z * Z) :=
  if (length buffer =? 8)%nat
  then inr (be_decode (firstn 4 buffer), be_decode (skipn 4 buffer))
  else inl StructError.

End Struct.

(* ------------------------------------------------------------------ *)
(** * The USB device and the driver object *)

(** What the driver asks of [usb.core.Device] (and, for the descriptor, of
    [adafruit_usb_host_descriptors]); [Sleep] is [time.sleep(0.1)]. *)
Inductive request : Type :=
| GetConfigurationDescriptor (index : Z)
| SetConfiguration (value : Z)
| CtrlTransfer (bmRequestType bRequest wValue : Z) (wIndex : option Z)
               (len : nat)
| Write (endpoint : Z) (data : list byte)
| Read (endpoint : Z) (len : nat)
| Sleep.

(** What the device answers: the bytes it sends (ignored for a write), or a
    failure of the transfer. *)
Inductive reply : Type :=
| Data (bs : list byte)
| Fail (f : usb_failure).

(** The device: its replies to the transfers still to come, in order, and
    the requests it has received.  A device with no reply left does not
    answer, and the transfer times out. *)
Record usb_device : Type := mkDevice {
  script : list reply;
  trace : list request
}.

(** The attributes of a [USBMassStorage] object. *)
Record USBMassStorage : Type := mkObj {
  in_ep : Z;
  out_ep : Z;
  sector_count : option Z;
  block_size : option Z;
  lun : Z;
  cbw : list byte;
  csw : list byte
}.

Definition state : Type := USBMassStorage * usb_device.

Definition M (A : Type) : Type := state -> outcome A * state.

Definition ret {A} (a : A) : M A := fun s => (Return a, s).
Definition raise {A} (e : exn) : M A := fun s => (Raise e, s).
Definition diverge {A} : M A := fun s => (Diverge, s).

Definition bind {A B} (m : M A) (k : A -> M B) : M B :=
  fun s =>
    match m s with
    | (Return a, s') => k a s'
    | (Raise e, s') => (Raise e, s')
    | (Diverge, s') => (Diverge, s')
    end.

Notation "x <- m ;; k" := (bind m (fun x => k))
  (at level 61, m at next level, right associativity).
Notation "m ;;; k" := (bind m (fun _ => k))
  (at level 61, right associativity).

(** [try: m except usb.core.USBError: h]. *)
Definition try_except_USBError {A} (m : M A) (h : M A) : M A :=
  fun s =>
    match m s with
    | (Raise (USBError _), s') => h s'
    | r => r
    end.

Definition lift {A} (r : exn + A) : M A :=
  match r with
  | inl e => raise e
  | inr a => ret a
  end.

Definition get_self : M USBMassStorage := fun s => (Return (fst s), s).
Definition modify_self (f : USBMassStorage -> USBMassStorage) : M unit :=
  fun s => (Return tt, (f (fst s), snd s)).

Definition set_in_ep v o := mkObj v (out_ep o) (sector_count o) (block_size o) (lun o) (cbw o) (csw o).
Definition set_out_ep v o := mkObj (in_ep o) v (sector_count o) (block_size o) (lun o) (cbw o) (csw o).
Definition set_sector_count v o := mkObj (in_ep o) (out_ep o) v (block_size o) (lun o) (cbw o) (csw o).
Definition set_block_size v o := mkObj (in_ep o) (out_ep o) (sector_count o) v (lun o) (cbw o) (csw o).
Definition set_lun v o := mkObj (in_ep o) (out_ep o) (sector_count o) (block_size o) v (cbw o) (csw o).
Definition set_cbw v o := mkObj (in_ep o) (out_ep o) (sector_count o) (block_size o) (lun o) v (csw o).
Definition set_csw v o := mkObj (in_ep o) (out_ep o) (sector_count o) (block_size o) (lun o) (cbw o) v.

(** One transfer: the request is recorded, and the next reply of the script
    answers it. *)
Definition transfer (r : request) : M (list byte) :=
  fun s =>
    let '(o, d) := s in
    match script d with
    | [] => (Raise (USBError Timeout), (o, mkDevice [] (trace d ++ [r])))
    | Data bs :: rest => (Return bs, (o, mkDevice rest (trace d ++ [r])))
    | Fail f :: rest => (Raise (USBError f), (o, mkDevice rest (trace d ++ [r])))
    end.

(** [time.sleep(0.1)]: recorded, and answered by nobody. *)
Definition sleep : M unit :=
  fun s => let '(o, d) := s in
           (Return tt, (o, mkDevice (script d) (trace d ++ [Sleep]))).

(** [device.write(endpoint, data)]. *)
Definition device_write (endpoint : Z) (data : list byte) : M unit :=
  transfer (Write endpoint data) ;;; ret tt.

(** The bytes received land at the start of the buffer, which keeps its
    length. *)
Definition fill (buf received : list byte) : list byte :=
  firstn (length buf) received ++ skipn (length received) buf.

(** [device.read(endpoint, buf)]: returns the buffer as the device left it. *)
Definition device_read (endpoint : Z) (buf : list byte) : M (list byte) :=
  bs <- transfer (Read endpoint (length buf)) ;;
  ret (fill buf bs).

(** [buf[i] = v] on a bytearray. *)
Definition setitem (buf : list byte) (i : nat) (v : Z) : exn + list byte :=
  if (i <? length buf)%nat then
    match to_byte v with
    | Some b => inr (firstn i buf ++ b :: skipn (S i) buf)
    | None => inl ByteRange
    end
  else inl IndexError.

(** [buf[i]]. *)
Definition getitem (buf : list byte) (i : nat) : exn + Z :=
  match nth_error buf i with
  | Some b => inr (byte_val b)
  | None => inl IndexError
  end.

(** Sequencing of computations that only raise. *)
Definition ebind {A B} (r : exn + A) (k : A -> exn + B) : exn + B :=
  match r with
  | inl e => inl e
  | inr a => k a
  end.

Notation "'let*' x := r 'in' k" := (ebind r (fun x => k))
  (at level 10, x name, r at level 100, k at level 200).

Definition len (bs : list byte) : Z := Z.of_nat (length bs).

(** Truth value of a bytes object in [if data:]. *)
Definition nonempty (bs : list byte) : bool :=
  match bs with [] => false | _ => true end.

(* ------------------------------------------------------------------ *)
(** * Constants *)

(* USB defines *)
Definition _DIR_OUT : Z := 0x00.
Definition _DIR_IN : Z := 0x80.
Definition _REQ_RCPT_INTERFACE : Z := 1.
Definition _REQ_TYPE_CLASS : Z := 0x20.

Definition _MP_BLOCKDEV_IOCTL_BLOCK_COUNT : Z := 4.

Definition _MSC_REQ_GET_GET_MAX_LUN : Z := 254.

(* SCSI commands *)
Definition _SCSI_CMD_TEST_UNIT_READY : Z := 0x00.
Definition _SCSI_CMD_INQUIRY : Z := 0x12.
Definition _SCSI_CMD_READ_CAPACITY_10 : Z := 0x25.
Definition _SCSI_CMD_REQUEST_SENSE : Z := 0x03.
Definition _SCSI_CMD_READ_10 : Z := 0x28.
Definition _SCSI_CMD_WRITE_10 : Z := 0x2A.

(** The descriptor type codes of [adafruit_usb_host_descriptors], a library
    outside this repository: the bDescriptorType values of the USB
    specification for configuration, interface and endpoint descriptors. *)
Definition DESC_CONFIGURATION : Z := 0x02.
Definition DESC_INTERFACE : Z := 0x04.
Definition DESC_ENDPOINT : Z := 0x05.

(* ------------------------------------------------------------------ *)
(** * The descriptor scan of [__init__] (the [while] loop) *)

(** The variables the loop updates; [s_in_ep] and [s_out_ep] are the
    attributes [self.in_ep] and [self.out_ep]. *)
Record scan_vars : Type := mkScan {
  s_in_ep : Z;
  s_out_ep : Z;
  in_msc_interface : bool;
  msc_interface : option Z;
  config_value : Z
}.

Definition scan_start : scan_vars := mkScan 0 0 false None 0.

(** One turn of the loop body at position [i]: the variables after it and
    the next position. *)
Definition scan_record (config_descriptor : list byte) (i : nat)
           (v : scan_vars) : exn + (nat * scan_vars) :=
  let* descriptor_len := getitem config_descriptor i in
  let* descriptor_type := getitem config_descriptor (i + 1) in
  let* v' :=
    if descriptor_type =? DESC_CONFIGURATION then
      let* c := getitem config_descriptor (i + 5) in
      inr (mkScan (s_in_ep v) (s_out_ep v) (in_msc_interface v)
                  (msc_interface v) c)
    else if descriptor_type =? DESC_INTERFACE then
      let* interface_number := getitem config_descriptor (i + 2) in
      let* interface_class := getitem config_descriptor (i + 5) in
      let* interface_subclass := getitem config_descriptor (i + 6) in
      let in_msc := (interface_class =? 8) && (interface_subclass =? 6) in
      inr (mkScan (s_in_ep v) (s_out_ep v) in_msc
                  (if in_msc then Some interface_number
                   else msc_interface v)
                  (config_value v))
    else if (descriptor_type =? DESC_ENDPOINT) && in_msc_interface v then
      let* endpoint_address := getitem config_descriptor (i + 2) in
      if negb (Z.land endpoint_address _DIR_IN =? 0) then
        inr (mkScan endpoint_address (s_out_ep v) (in_msc_interface v)
                    (msc_interface v) (config_value v))
      else
        inr (mkScan (s_in_ep v) endpoint_address (in_msc_interface v)
                    (msc_interface v) (config_value v))
    else inr v
  in
  inr ((i + Z.to_nat descriptor_len)%nat, v').

(** [while i < len(config_descriptor): ...]; the loop need not end (a
    record of length zero), so it runs on fuel. *)
Fixpoint scan_loop (fuel : nat) (config_descriptor : list byte) (i : nat)
         (v : scan_vars) : outcome scan_vars :=
  match fuel with
  | O => Diverge
  | S fuel' =>
      if (i <? length config_descriptor)%nat then
        match scan_record config_descriptor i v with
        | inl e => Raise e
        | inr (i', v') => scan_loop fuel' config_descriptor i' v'
        end
      else Return v
  end.

Definition scan (fuel : nat) (config_descriptor : list byte)
  : outcome scan_vars :=
  scan_loop fuel config_descriptor 0 scan_start.

Definition lift_outcome {A} (r : outcome A) : M A := fun s => (r, s).

(* ------------------------------------------------------------------ *)
(** * The methods of [USBMassStorage] *)

Definition self_cbw_setitem (i : nat) (v : Z) : M unit :=
  self <- get_self ;;
  c <- lift (setitem (cbw self) i v) ;;
  modify_self (set_cbw c).

Definition self_csw_setitem (i : nat) (v : Z) : M unit :=
  self <- get_self ;;
  c <- lift (setitem (csw self) i v) ;;
  modify_self (set_csw c).

(** [device.ctrl_transfer(bmRequestType, bRequest, wValue, wIndex, buf)]. *)
Definition ctrl_transfer (bmRequestType bRequest wValue : Z)
           (wIndex : option Z) (buf : list byte) : M (list byte) :=
  bs <- transfer (CtrlTransfer bmRequestType bRequest wValue wIndex
                               (length buf)) ;;
  ret (fill buf bs).

(** Do a SCSI command over USB.  Reads or writes to data depending on
    direction; the result is the data buffer as the call leaves it. *)
Definition _scsi_command (direction : Z) (command data : list byte)
  : M (list byte) :=
  self <- get_self ;;
  c <- lift (Struct.pack_into Struct.Little
               [Struct.cI; Struct.cB; Struct.cx; Struct.cB]
               (cbw self) 8 [len data; direction; len command]) ;;
  modify_self (set_cbw
                 (slice_assign c 15 (15 + length command) command)) ;;;
  (* Write out the command. *)
  self <- get_self ;;
  device_write (out_ep self) (cbw self) ;;;
  (* Depending on the direction, read or write the data. *)
  data' <- (if nonempty data then
              if direction =? _DIR_IN
              then device_read (in_ep self) data
              else device_write (out_ep self) data ;;; ret data
            else ret data) ;;
  (* Get the status. *)
  st <- device_read (in_ep self) (csw self) ;;
  modify_self (set_csw st) ;;;
  ret data'.

(** The [while] loop of [_wait_for_ready], on the tries that remain
    ([tries - try_num]); [sense_response] is one buffer, reused by every
    turn. *)
Fixpoint wait_loop (remaining : nat) (test_ready sense sense_response : list byte)
  : M unit :=
  self <- get_self ;;
  st <- lift (getitem (csw self) 12) ;;
  if negb (st =? 0) then
    match remaining with
    | O => ret tt
    | S remaining' =>
        sleep ;;;
        sense_response' <- _scsi_command _DIR_IN sense sense_response ;;
        _scsi_command _DIR_OUT test_ready [] ;;;
        wait_loop remaining' test_ready sense sense_response'
    end
  else ret tt.

(** Waits for the device to be ready. *)
Definition _wait_for_ready (tries : Z) : M unit :=
  let status := 12%nat in
  self_csw_setitem status 1 ;;;
  self <- get_self ;;
  test_ready <- lift (let* t := setitem (bytearray 6) 0 _SCSI_CMD_TEST_UNIT_READY in
                      setitem t 1 (lun self)) ;;
  let sense_response := bytearray 18 in
  sense <- lift (let* s := setitem (bytearray 6) 0 _SCSI_CMD_REQUEST_SENSE in
                 setitem s 4 (len sense_response)) ;;
  _scsi_command _DIR_OUT test_ready [] ;;;
  wait_loop (Z.to_nat tries) test_ready sense sense_response ;;;
  self <- get_self ;;
  st <- lift (getitem (csw self) status) ;;
  if negb (st =? 0) then raise OutOfTries else ret tt.

(** Run inquiry command. *)
Definition _inquire : M unit :=
  let response := bytearray 36 in
  command <- lift (let* c := setitem (bytearray 6) 0 _SCSI_CMD_INQUIRY in
                   setitem c 4 (len response)) ;;
  _scsi_command _DIR_IN command response ;;;
  ret tt.

(** Read the device's capacity and store it in the object. *)
Definition _read_capacity : M unit :=
  command <- lift (setitem (bytearray 10) 0 _SCSI_CMD_READ_CAPACITY_10) ;;
  let response := bytearray 8 in
  response' <- _scsi_command _DIR_IN command response ;;
  p <- lift (Struct.unpack_II_be response') ;;
  modify_self (set_sector_count (Some (fst p))) ;;;
  modify_self (set_block_size (Some (snd p))) ;;;
  (* Response has the last valid number. Count is one greater. *)
  modify_self (fun o => set_sector_count
                          (option_map (fun n => n + 1) (sector_count o)) o).

(** Read data from block_num into buf; the result is the buffer after the
    call. *)
Definition readblocks (block_num : Z) (buf : list byte) : M (list byte) :=
  self <- get_self ;;
  command <- lift (Struct.pack_into Struct.Big
                     [Struct.cB; Struct.cB; Struct.cI; Struct.cx; Struct.cH]
                     (bytearray 10) 0
                     [_SCSI_CMD_READ_10; lun self; block_num; len buf / 512]) ;;
  _scsi_command _DIR_IN command buf.

(** Write data to block_num from buf. *)
Definition writeblocks (block_num : Z) (buf : list byte) : M (list byte) :=
  self <- get_self ;;
  command <- lift (Struct.pack_into Struct.Big
                     [Struct.cB; Struct.cB; Struct.cI; Struct.cx; Struct.cH]
                     (bytearray 10) 0
                     [_SCSI_CMD_WRITE_10; lun self; block_num; len buf / 512]) ;;
  _scsi_command _DIR_OUT command buf.

(** [not self.sector_count]: true of [None] and of [0]. *)
Definition falsy (v : option Z) : bool :=
  match v with
  | None => true
  | Some n => n =? 0
  end.

(** Perform an IOCTL operation. *)
Definition ioctl (operation : Z) : M (option Z) :=
  if operation =? _MP_BLOCKDEV_IOCTL_BLOCK_COUNT then
    self <- get_self ;;
    (if falsy (sector_count self) then _read_capacity else ret tt) ;;;
    self <- get_self ;;
    ret (sector_count self)
  else ret None.

(** The block of [__init__] under the comment "Get the max lun": the
    [try] around the control transfer and its [except usb.core.USBError];
    its value is the local [max_lun]. *)
Definition get_max_lun (msc_interface : option Z) : M Z :=
  try_except_USBError
    (max_lun <- ctrl_transfer
                  (Z.lor (Z.lor _REQ_RCPT_INTERFACE _REQ_TYPE_CLASS) _DIR_IN)
                  _MSC_REQ_GET_GET_MAX_LUN 0 msc_interface (bytearray 1) ;;
     b <- lift (getitem max_lun 0) ;;
     ret (b + 1))
    ((* Stall means 0. *) ret 0).

(** The object before [__init__] has set any attribute. *)
Definition new_object : USBMassStorage := mkObj 0 0 None None 0 [] [].

(** [__init__], once the configuration descriptor is there: the scan, the
    session set-up, the inquiry and the wait for readiness. *)
Definition init_with_descriptor (fuel : nat) (config_descriptor : list byte)
           (lun_arg : Z) : M unit :=
  modify_self (set_in_ep 0) ;;;
  modify_self (set_out_ep 0) ;;;
  modify_self (set_sector_count None) ;;;
  modify_self (set_block_size None) ;;;
  (* Look over each descriptor for mass storage interface and then the two
     endpoints. *)
  v <- lift_outcome (scan fuel config_descriptor) ;;
  modify_self (set_in_ep (s_in_ep v)) ;;;
  modify_self (set_out_ep (s_out_ep v)) ;;;
  if (s_in_ep v =? 0) || (s_out_ep v =? 0) then raise NoMSCInterface else
  modify_self (set_lun lun_arg) ;;;
  transfer (SetConfiguration (config_value v)) ;;;
  (* Get the max lun. *)
  max_lun <- get_max_lun (msc_interface v) ;;
  (* SCSI command block *)
  modify_self (set_cbw (bytearray 31)) ;;;
  self <- get_self ;;
  modify_self (set_cbw (slice_assign (cbw self) 0 4 [x55; x53; x42; x43])) ;;;
  self <- get_self ;;
  self_cbw_setitem 14 (lun self) ;;;
  (* SCSI command status *)
  modify_self (set_csw (bytearray 13)) ;;;
  self <- get_self ;;
  modify_self (set_csw (slice_assign (csw self) 0 4 [x55; x53; x42; x53])) ;;;
  _inquire ;;;
  _wait_for_ready 100.

(** [USBMassStorage(device, lun)]; [lun_arg] is the argument [lun]. *)
Definition __init__ (fuel : nat) (lun_arg : Z) : M unit :=
  config_descriptor <- transfer (GetConfigurationDescriptor 0) ;;
  init_with_descriptor fuel config_descriptor lun_arg.

(* ------------------------------------------------------------------ *)
(** * Notions the statements are written with *)

(** The first two statements of [_scsi_command] as a function of the
    buffer [self.cbw]: the buffer that is then written out. *)
Definition build_cbw (c : list byte) (direction : Z) (command data : list byte)
  : exn + list byte :=
  let* c' := Struct.pack_into Struct.Little
               [Struct.cI; Struct.cB; Struct.cx; Struct.cB]
               c 8 [len data; direction; len command] in
  inr (slice_assign c' 15 (15 + length command) command).

(** What [build_cbw] yields when it succeeds: bytes 0 to 7 of the buffer
    stay, bytes 8 to 14 are the packed header, the command follows, and the
    bytes after the command stay. *)
Definition cbw_image (c : list byte) (direction : Z) (command : list byte)
           (data_len : Z) : list byte :=
  firstn 8 c
    ++ (le_bytes 4 data_len
          ++ [byte_wrap direction; x00; byte_wrap (len command)])
    ++ command ++ skipn (15 + length command) c.

(** The transfers of one command: command block, data phase, status. *)
Definition exchange (o : USBMassStorage) (direction : Z)
           (data c : list byte) : list request :=
  Write (out_ep o) c
  :: (if nonempty data
      then [if direction =? _DIR_IN
            then Read (in_ep o) (length data)
            else Write (out_ep o) data]
      else [])
  ++ [Read (in_ep o) (length (csw o))].

(** The object after a command whose block was [c] and whose status
    transfer brought [st]. *)
Definition after_command (o : USBMassStorage) (c st : list byte)
  : USBMassStorage :=
  set_csw (fill (csw o) st) (set_cbw c o).

(** The two commands [_wait_for_ready] builds. *)
Definition test_ready_command (lun : Z) : list byte :=
  [x00; byte_wrap lun; x00; x00; x00; x00].

Definition sense_command : list byte := [x03; x00; x00; x00; x12; x00].

(** The command blocks that carry them, from the buffer [c]. *)
Definition tur_cbw (c : list byte) (lun : Z) : list byte :=
  cbw_image c _DIR_OUT (test_ready_command lun) 0.

Definition sense_cbw (c : list byte) : list byte :=
  cbw_image c _DIR_IN sense_command 18.

(** The transfers of a Test-Unit-Ready and of a Request-Sense. *)
Definition tur_events (o : USBMassStorage) : list request :=
  [Write (out_ep o) (tur_cbw (cbw o) (lun o)); Read (in_ep o) 13].

Definition sense_events (o : USBMassStorage) : list request :=
  [Write (out_ep o) (sense_cbw (cbw o)); Read (in_ep o) 18; Read (in_ep o) 13].

(** A status wrapper as the device sends it: thirteen bytes, the last one
    the status. *)
Definition csw_ready (st : list byte) : Prop :=
  length st = 13%nat /\ getitem st 12 = inr 0.

Definition csw_failed (st : list byte) : Prop :=
  length st = 13%nat /\ exists s, getitem st 12 = inr s /\ s <> 0.

(** A round of not being ready: the status [failed] answers a
    Test-Unit-Ready, then [sense_data] and [sense_status] answer the
    Request-Sense that follows. *)
Record round : Type := mkRound {
  failed : list byte;
  sense_data : list byte;
  sense_status : list byte
}.

(** The acknowledgement of a write. *)
Definition ack : reply := Data [].

Definition round_replies (r : round) : list reply :=
  [ack; Data (failed r); ack; Data (sense_data r); Data (sense_status r)].

Definition round_events (o : USBMassStorage) : list request :=
  tur_events o ++ [Sleep] ++ sense_events o.

(** The Test-Unit-Ready and Request-Sense commands among the requests: the
    opcode of every command block written. *)
Definition opcodes (tr : list request) : list Z :=
  flat_map (fun r => match r with
                     | Write _ c =>
                         match nth_error c 15 with
                         | Some b => [byte_val b]
                         | None => []
                         end
                     | _ => []
                     end) tr.

(** The object with its two buffers replaced. *)
Definition with_buffers (o : USBMassStorage) (c st : list byte) : USBMassStorage :=
  set_csw st (set_cbw c o).

(** The statements of [_wait_for_ready] after the loop. *)
Definition final_check : M unit :=
  self <- get_self ;;
  st <- lift (getitem (csw self) 12) ;;
  if negb (st =? 0) then raise OutOfTries else ret tt.

Definition inquiry_command : list byte := [x12; x00; x00; x00; x24; x00].

(** The command block and status templates [__init__] sets up; the LUN is
    stored at index 14. *)
Definition cbw_template (lun_arg : Z) : list byte :=
  [x55; x53; x42; x43] ++ repeat x00 10 ++ [byte_wrap lun_arg] ++ repeat x00 16.

Definition csw_template : list byte := [x55; x53; x42; x53] ++ repeat x00 9.

(** The object when [__init__] reaches the inquiry. *)
Definition session_object (v : scan_vars) (lun_arg : Z) : USBMassStorage :=
  mkObj (s_in_ep v) (s_out_ep v) None None lun_arg
        (cbw_template lun_arg) csw_template.

(** The Get-Max-LUN request. *)
Definition get_max_lun_request (v : scan_vars) : request :=
  CtrlTransfer 0xA1 254 0 (msc_interface v) 1.

(** The statements of [__init__] from the command block set-up on. *)
Definition open_session : M unit :=
  modify_self (set_cbw (bytearray 31)) ;;;
  self <- get_self ;;
  modify_self (set_cbw (slice_assign (cbw self) 0 4 [x55; x53; x42; x43])) ;;;
  self <- get_self ;;
  self_cbw_setitem 14 (lun self) ;;;
  modify_self (set_csw (bytearray 13)) ;;;
  self <- get_self ;;
  modify_self (set_csw (slice_assign (csw self) 0 4 [x55; x53; x42; x53])) ;;;
  _inquire ;;;
  _wait_for_ready 100.

(** The requests of a construction up to and including the inquiry. *)
Definition init_events (v : scan_vars) (lun_arg : Z) : list request :=
  [GetConfigurationDescriptor 0; SetConfiguration (config_value v);
   get_max_lun_request v]
  ++ exchange (session_object v lun_arg) _DIR_IN (bytearray 36)
       (cbw_image (cbw_template lun_arg) _DIR_IN inquiry_command 36).

(** The replies that let a construction reach the readiness loop: the
    descriptor, the acknowledgement of [set_configuration], the Get-Max-LUN
    reply [r], and the three replies of the inquiry. *)
Definition init_replies (desc a : list byte) (r : reply)
           (inq icsw : list byte) : list reply :=
  [Data desc; Data a; r; ack; Data inq; Data icsw].

(** Sample data: a session as [__init__] opens it for a thumb drive with
    endpoints 0x81 and 0x02, and a status wrapper with a given status. *)
Definition sample_vars : scan_vars := mkScan 0x81 0x02 true (Some 0) 1.

Definition sample_session (lun_arg : Z) : USBMassStorage :=
  session_object sample_vars lun_arg.

Definition status_wrapper (status : Z) : list byte :=
  [x55; x53; x42; x53] ++ repeat x00 8 ++ [byte_wrap status].

(** A round in which the device reports status 1 and sends no sense data
    worth the name. *)
Definition sample_round : round :=
  mkRound (status_wrapper 1) (bytearray 18) (status_wrapper 0).

(** The ten bytes of a Read(10) or Write(10) command: the format [>BBIxH]
    fills nine, the tenth is the zero [bytearray(10)] put there. *)
Definition rw10_command (opcode lun_arg block_num count : Z) : list byte :=
  [byte_wrap opcode; byte_wrap lun_arg] ++ be_bytes 4 block_num
    ++ [x00] ++ be_bytes 2 count ++ [x00].

(** The Read-Capacity(10) command [_read_capacity] builds. *)
Definition read_capacity_command : list byte :=
  [x25; x00; x00; x00; x00; x00; x00; x00; x00; x00].

(** The replies that answer every transfer of one command: an
    acknowledgement of the command block, the data phase when there is one,
    and the status wrapper [st]. *)
Definition command_replies (data w r st : list byte) : list reply :=
  Data w :: (if nonempty data then [Data r] else []) ++ [Data st].

(** The transfers of the Read-Capacity(10) command. *)
Definition read_capacity_events (o : USBMassStorage) : list request :=
  exchange o _DIR_IN (bytearray 8)
    (cbw_image (cbw o) _DIR_IN read_capacity_command 8).

(** Two results with the same outcome and the same requests made, whose
    objects differ at most in the status buffer. *)
Definition same_but_csw {A} (x y : outcome A * state) : Prop :=
  fst x = fst y
  /\ set_csw [] (fst (snd x)) = set_csw [] (fst (snd y))
  /\ trace (snd (snd x)) = trace (snd (snd y)).

(** The exception an outcome carries, if any. *)
Definition raised {A} (r : outcome A) : option exn :=
  match r with
  | Raise e => Some e
  | _ => None
  end.

Definition is_data (r : reply) : Prop := exists bs, r = Data bs.

(** The replies a computation free of [try] can have consumed when it ends
    with [e]: answers only, or answers and then one failure, which is then
    what it raises. *)
Definition consumed_ok (used : list reply) (e : option exn) : Prop :=
  Forall is_data used
  \/ exists u f,
       used = u ++ [Fail f] /\ Forall is_data u /\ e = Some (USBError f).

(** A computation in which a failed transfer is the last thing that
    happens, and is what the caller sees. *)
Definition surfaces {A} (m : M A) : Prop :=
  forall s r s',
    m s = (r, s') ->
    exists used,
      script (snd s) = used ++ script (snd s') /\ consumed_ok used (raised r).

(** The configuration descriptor of a thumb drive: a configuration with
    value 1, one interface of class 8 and subclass 6, a bulk IN endpoint
    0x81 and a bulk OUT endpoint 0x02. *)
Definition sample_descriptor : list byte :=
  [x09; x02; x20; x00; x01; x01; x00; x80; x32;
   x09; x04; x00; x00; x02; x08; x06; x50; x00;
   x07; x05; x81; x02; x40; x00; x00;
   x07; x05; x02; x02; x40; x00; x00].

(** ** Descriptor records

    A configuration descriptor that is well formed is a concatenation of
    records; a record starts with its length and its type. *)
Module Descriptor.

Definition record : Type := list byte.

(** The byte at offset [i] of a record. *)
Definition field (r : record) (i : nat) : Z := byte_val (nth i r x00).

Definition rtype (r : record) : Z := field r 1.

Definition is_configuration (r : record) : bool := rtype r =? DESC_CONFIGURATION.
Definition is_interface (r : record) : bool := rtype r =? DESC_INTERFACE.
Definition is_endpoint (r : record) : bool := rtype r =? DESC_ENDPOINT.

(** An interface record of class 8 and subclass 6. *)
Definition is_msc (r : record) : bool :=
  is_interface r && (field r 5 =? 8) && (field r 6 =? 6).

(** The direction bit of the address of an endpoint record. *)
Definition is_in (r : record) : bool :=
  negb (Z.land (field r 2) _DIR_IN =? 0).

Definition in_endpoint (r : record) : bool := is_endpoint r && is_in r.
Definition out_endpoint (r : record) : bool := is_endpoint r && negb (is_in r).

(** The last byte the scan reads from a record of a given type, plus one. *)
Definition min_length (ty : Z) : nat :=
  if ty =? DESC_CONFIGURATION then 6
  else if ty =? DESC_INTERFACE then 7
  else if ty =? DESC_ENDPOINT then 3
  else 2.

(** A record is well formed when its first byte is its length and it
    holds every field the scan reads from a record of its type. *)
Definition well_formed (r : record) : bool :=
  (field r 0 =? Z.of_nat (length r))
  && (min_length (rtype r) <=? length r)%nat.

(** The loop body of the scan, on a record instead of a position. *)
Definition apply_record (v : scan_vars) (r : record) : scan_vars :=
  if is_configuration r then
    mkScan (s_in_ep v) (s_out_ep v) (in_msc_interface v) (msc_interface v)
           (field r 5)
  else if is_interface r then
    let in_msc := (field r 5 =? 8) && (field r 6 =? 6) in
    mkScan (s_in_ep v) (s_out_ep v) in_msc
           (if in_msc then Some (field r 2) else msc_interface v)
           (config_value v)
  else if is_endpoint r && in_msc_interface v then
    if is_in r then
      mkScan (field r 2) (s_out_ep v) (in_msc_interface v)
             (msc_interface v) (config_value v)
    else
      mkScan (s_in_ep v) (field r 2) (in_msc_interface v)
             (msc_interface v) (config_value v)
  else v.

Definition apply_records (rs : list record) (v : scan_vars) : scan_vars :=
  fold_left apply_record rs v.

(** [e] is an endpoint record of a class-8/subclass-6 interface of [rs]:
    such an interface record comes before it, with no interface record in
    between. *)
Definition honoured (rs : list record) (e : record) : Prop :=
  exists a m b c,
    rs = a ++ m :: b ++ e :: c
    /\ is_msc m = true
    /\ Forall (fun r => is_interface r = false) b
    /\ is_endpoint e = true.

End Descriptor.

(** Raw descriptors the scan cannot cope with: a trailing byte, and a
    record of length zero, each after a Mass-Storage interface record with
    no endpoint; and a Mass-Storage interface whose OUT endpoint has
    address 0. *)
Definition truncated_descriptor : list byte :=
  [x09; x04; x00; x00; x00; x08; x06; x50; x00; x07].

Definition zero_length_descriptor : list byte :=
  [x09; x04; x00; x00; x00; x08; x06; x50; x00; x00; x00].

Definition endpoint_zero_descriptor : list byte :=
  [x09; x02; x20; x00; x01; x01; x00; x80; x32;
   x09; x04; x00; x00; x02; x08; x06; x50; x00;
   x07; x05; x81; x02; x40; x00; x00;
   x07; x05; x00; x02; x40; x00; x00].

(** The records of [sample_descriptor]. *)
Definition sample_configuration : Descriptor.record :=
  [x09; x02; x20; x00; x01; x01; x00; x80; x32].
Definition sample_interface : Descriptor.record :=
  [x09; x04; x00; x00; x02; x08; x06; x50; x00].
Definition sample_in_endpoint : Descriptor.record :=
  [x07; x05; x81; x02; x40; x00; x00].
Definition sample_out_endpoint : Descriptor.record :=
  [x07; x05; x02; x02; x40; x00; x00].

(* ------------------------------------------------------------------ *)
(** * Notions for the properties of a session *)

(** The first eight bytes of the command block of a session: the
    signature and a tag of zero. *)
Definition cbw_head : list byte :=
  [x55; x53; x42; x43; x00; x00; x00; x00].

(** What [__init__] sets up: a command block of 31 bytes that starts with
    the signature and the tag, a status buffer of 13 bytes, a LUN that fits
    a byte, an IN endpoint with the direction bit and an OUT endpoint
    without it. *)
Definition session (o : USBMassStorage) : Prop :=
  length (cbw o) = 31%nat
  /\ firstn 8 (cbw o) = cbw_head
  /\ length (csw o) = 13%nat
  /\ 0 <= lun o < 256
  /\ 128 <= in_ep o < 256
  /\ 0 < out_ep o < 128.

(** A computation keeps a relation between the state it starts from and
    the state it leaves, however it ends. *)
Definition keeps {A} (R : state -> state -> Prop) (m : M A) : Prop :=
  forall s, R s (snd (m s)).

(** The attributes that say where the commands go. *)
Definition same_addressing (s s' : state) : Prop :=
  in_ep (fst s') = in_ep (fst s)
  /\ out_ep (fst s') = out_ep (fst s)
  /\ lun (fst s') = lun (fst s).

(** The attributes [_read_capacity] sets. *)
Definition same_capacity (s s' : state) : Prop :=
  sector_count (fst s') = sector_count (fst s)
  /\ block_size (fst s') = block_size (fst s).

(** A request on the bulk endpoints of [o]; [pause] says whether a
    [time.sleep] counts as one. *)
Definition on_endpoints (pause : bool) (o : USBMassStorage) (q : request)
  : Prop :=
  match q with
  | Write ep _ => ep = out_ep o
  | Read ep _ => ep = in_ep o
  | Sleep => pause = true
  | _ => False
  end.

(** The state after differs from the state before in the contents of the
    two buffers, the replies consumed and the requests made, which are
    requests on the bulk endpoints; a command block of 31 bytes stays one
    and keeps its first eight bytes, the status buffer keeps its length. *)
Definition steady (pause : bool) (s s' : state) : Prop :=
  same_addressing s s'
  /\ length (csw (fst s')) = length (csw (fst s))
  /\ (length (cbw (fst s)) = 31%nat ->
      length (cbw (fst s')) = 31%nat
      /\ firstn 8 (cbw (fst s')) = firstn 8 (cbw (fst s)))
  /\ exists added,
       trace (snd s') = trace (snd s) ++ added
       /\ Forall (on_endpoints pause (fst s)) added.

(** What the scan can leave in its variables, whatever bytes it reads: an
    IN endpoint address with the direction bit (or the initial 0), an OUT
    endpoint address without it, a configuration value that is a byte, and
    an interface number, a byte too, as soon as the scan is inside a
    Mass-Storage interface or has taken an endpoint. *)
Definition scan_in_range (v : scan_vars) : Prop :=
  (s_in_ep v = 0 \/ 128 <= s_in_ep v < 256)
  /\ 0 <= s_out_ep v < 128
  /\ 0 <= config_value v < 256
  /\ (in_msc_interface v = true \/ s_in_ep v <> 0 \/ s_out_ep v <> 0 ->
      exists n, msc_interface v = Some n /\ 0 <= n < 256).

(** Where the scan is after [n] turns of its loop from position [i] with
    variables [v], if it makes that many: the position and the variables
    the next turn starts from. *)
Fixpoint scan_turns (n : nat) (config_descriptor : list byte) (i : nat)
         (v : scan_vars) : option (nat * scan_vars) :=
  match n with
  | O => Some (i, v)
  | S n' =>
      if (i <? length config_descriptor)%nat then
        match scan_record config_descriptor i v with
        | inl _ => None
        | inr (i', v') => scan_turns n' config_descriptor i' v'
        end
      else None
  end.

(** The status buffer after [self.csw[12] = 1], the first statement of
    [_wait_for_ready]. *)
Definition status_preset (st0 : list byte) : list byte :=
  firstn 12 st0 ++ x01 :: skipn 13 st0.

(** The unsigned integer held by a byte string, least significant byte
    first. *)
Definition le_decode (bs : list byte) : Z :=
  fold_right (fun b acc => byte_val b + 256 * acc) 0 bs.

(** A second Mass-Storage interface, number 1, and an IN endpoint 0x83. *)
Definition second_interface : Descriptor.record :=
  [x09; x04; x01; x00; x01; x08; x06; x50; x00].
Definition second_in_endpoint : Descriptor.record :=
  [x07; x05; x83; x02; x40; x00; x00].

(** An outcome that is a return or one of the exceptions [P]. *)
Definition ends_well {A} (P : exn -> Prop) (r : outcome A) : Prop :=
  match r with
  | Return _ => True
  | Raise e => P e
  | Diverge => False
  end.

(** A result that leaves a session and ends well. *)
Definition ends_safely {A} (P : exn -> Prop) (res : outcome A * state)
  : Prop :=
  session (fst (snd res)) /\ ends_well P (fst res).

(** A computation that, run on a session, ends safely. *)
Definition session_safe {A} (P : exn -> Prop) (m : M A) : Prop :=
  forall s, session (fst s) -> ends_safely P (m s).

(** The exceptions of a failed transfer. *)
Definition transfer_error (e : exn) : Prop := exists f, e = USBError f.

(** The exceptions of [_wait_for_ready]. *)
Definition readiness_error (e : exn) : Prop :=
  e = OutOfTries \/ transfer_error e.

(** The exceptions of [__init__]. *)
Definition construction_error (e : exn) : Prop :=
  e = IndexError \/ e = NoMSCInterface \/ e = ByteRange
  \/ readiness_error e.

(** A result with the attribute [block_size] of its object blanked. *)
Definition forget_block_size {A} (res : outcome A * state)
  : outcome A * state :=
  (fst res, (set_block_size None (fst (snd res)), snd (snd res))).

(** A computation that does the same whatever [self.block_size] holds:
    same outcome, same device, and the same object but for that
    attribute. *)
Definition ignores_block_size {A} (m : M A) : Prop :=
  forall (b : option Z) (o : USBMassStorage) (d : usb_device),
    forget_block_size (m (set_block_size b o, d))
    = forget_block_size (m (o, d)).

(** A run in which a failed transfer, if there was one, was the last
    reply consumed and is what the call raised: [s] is the state before,
    [res] the result. *)
Definition failure_is_last {A} (s : state) (res : outcome A * state) : Prop :=
  exists used,
    script (snd s) = used ++ script (snd (snd res))
    /\ forall (i : nat) (f : usb_failure),
        nth_error used i = Some (Fail f) ->
        fst res = Raise (USBError f) /\ S i = length used.

(* ------------------------------------------------------------------ *)
(** * Facts about bytes and packing *)

Section ByteFacts.

Lemma byte_val_range (b : byte) : 0 <= byte_val b < 256.
Proof.
  unfold byte_val. pose proof (Byte.to_N_bounded b). lia.
Qed.

Lemma to_byte_val (b : byte) : to_byte (byte_val b) = Some b.
Proof.
  unfold to_byte, byte_val.
  destruct (Z.ltb_spec (Z.of_N (Byte.to_N b)) 0) as [H|H]; [lia|].
  rewrite N2Z.id. apply Byte.of_to_N.
Qed.

Lemma to_byte_some (z : Z) (b : byte) : to_byte z = Some b -> byte_val b = z.
Proof.
  unfold to_byte, byte_val.
  destruct (Z.ltb_spec z 0) as [H|H]; [discriminate|].
  intros E. apply Byte.to_of_N in E. rewrite E. lia.
Qed.

Lemma to_byte_in_range (z : Z) :
  0 <= z < 256 -> exists b, to_byte z = Some b /\ byte_val b = z.
Proof.
  intros Hz. unfold to_byte.
  destruct (Z.ltb_spec z 0) as [H|H]; [lia|].
  destruct (Byte.of_N (Z.to_N z)) as [b|] eqn:E.
  - exists b. split; [reflexivity|].
    apply Byte.to_of_N in E. unfold byte_val. rewrite E. lia.
  - apply Byte.of_N_None_iff in E. lia.
Qed.

Lemma to_byte_out_of_range (z : Z) : ~ (0 <= z < 256) -> to_byte z = None.
Proof.
  intros Hz. destruct (to_byte z) as [b|] eqn:E; [|reflexivity].
  apply to_byte_some in E. pose proof (byte_val_range b). lia.
Qed.

Lemma byte_wrap_val (z : Z) : byte_val (byte_wrap z) = z mod 256.
Proof.
  unfold byte_wrap.
  destruct (to_byte_in_range (z mod 256)) as [b [E V]].
  - apply Z.mod_pos_bound. lia.
  - rewrite E. exact V.
Qed.

Lemma byte_val_inj (a b : byte) : byte_val a = byte_val b -> a = b.
Proof.
  intros H. pose proof (to_byte_val a) as Ha. rewrite H in Ha.
  rewrite to_byte_val in Ha. congruence.
Qed.

Lemma byte_wrap_byte_val (b : byte) : byte_wrap (byte_val b) = b.
Proof.
  apply byte_val_inj. rewrite byte_wrap_val.
  apply Z.mod_small, byte_val_range.
Qed.

Lemma to_byte_wrap (z : Z) : 0 <= z < 256 -> to_byte z = Some (byte_wrap z).
Proof.
  intros Hz. destruct (to_byte_in_range z Hz) as [b [E V]].
  rewrite E. f_equal. apply byte_val_inj.
  rewrite byte_wrap_val, Z.mod_small; auto.
Qed.

Lemma le_bytes_length (n : nat) (v : Z) : length (le_bytes n v) = n.
Proof.
  revert v. induction n as [|n IH]; intros v; simpl; [reflexivity|].
  now rewrite IH.
Qed.

Lemma be_bytes_length (n : nat) (v : Z) : length (be_bytes n v) = n.
Proof.
  unfold be_bytes. rewrite length_rev. apply le_bytes_length.
Qed.

Lemma be_decode_app (xs ys : list byte) :
  be_decode (xs ++ ys)
  = be_decode xs * 256 ^ Z.of_nat (length ys) + be_decode ys.
Proof.
  unfold be_decode.
  assert (G : forall l acc,
             fold_left (fun a b => a * 256 + byte_val b) l acc
             = acc * 256 ^ Z.of_nat (length l)
               + fold_left (fun a b => a * 256 + byte_val b) l 0).
  { induction l as [|b l IH]; intros acc; simpl length.
    - simpl. lia.
    - cbn [fold_left]. rewrite IH. rewrite (IH (0 * 256 + byte_val b)).
      rewrite Nat2Z.inj_succ, Z.pow_succ_r by lia. lia. }
  rewrite fold_left_app. rewrite G. reflexivity.
Qed.

Lemma be_decode_nonneg (bs : list byte) : 0 <= be_decode bs.
Proof.
  induction bs as [|b bs IH] using rev_ind.
  - unfold be_decode. simpl. lia.
  - rewrite be_decode_app. pose proof (byte_val_range b).
    unfold be_decode at 2. simpl. lia.
Qed.

(** Decoding what was encoded gives the value back: the encoders above are
    the big-endian representation. *)
Lemma be_decode_be_bytes (n : nat) (v : Z) :
  0 <= v < 256 ^ Z.of_nat n -> be_decode (be_bytes n v) = v.
Proof.
  revert v. induction n as [|n IH]; intros v Hv.
  - simpl in Hv. unfold be_bytes, be_decode. simpl. lia.
  - unfold be_bytes. simpl le_bytes. simpl rev.
    fold (be_bytes n (v / 256)). rewrite be_decode_app.
    rewrite IH.
    + unfold be_decode at 1. simpl. rewrite byte_wrap_val.
      pose proof (Z.div_mod v 256). lia.
    + rewrite Nat2Z.inj_succ, Z.pow_succ_r in Hv by lia.
      split.
      * apply Z.div_pos; lia.
      * apply Z.div_lt_upper_bound; lia.
Qed.

Lemma fill_length (buf received : list byte) :
  length (fill buf received) = length buf.
Proof.
  unfold fill. rewrite length_app, length_firstn, length_skipn. lia.
Qed.

Lemma fill_exact (buf received : list byte) :
  length received = length buf -> fill buf received = received.
Proof.
  intros H. unfold fill. rewrite <- H, firstn_all, skipn_all2 by lia.
  apply app_nil_r.
Qed.

Lemma bytearray_length (n : nat) : length (bytearray n) = n.
Proof. apply repeat_length. Qed.

End ByteFacts.

(* ------------------------------------------------------------------ *)
(** * The command block a call of [_scsi_command] transmits *)

Section CommandBlock.

Lemma firstn_exact_app {A} (p q : list A) (n : nat) :
  length p = n -> firstn n (p ++ q) = p.
Proof.
  intros <-. rewrite firstn_app, firstn_all, Nat.sub_diag. simpl.
  apply app_nil_r.
Qed.

Lemma skipn_past_app {A} (p q : list A) (n : nat) :
  (length p <= n)%nat -> skipn n (p ++ q) = skipn (n - length p) q.
Proof.
  intros H. rewrite skipn_app, skipn_all2 by lia. reflexivity.
Qed.

Lemma pack_header (a b c : Z) :
  0 <= a < 2 ^ 32 -> 0 <= b < 256 -> 0 <= c < 256 ->
  Struct.pack Struct.Little
    [Struct.cI; Struct.cB; Struct.cx; Struct.cB] [a; b; c]
  = Some (le_bytes 4 a ++ [byte_wrap b; x00; byte_wrap c]).
Proof.
  intros Ha Hb Hc. unfold Struct.pack, Struct.encode, Struct.size.
  change (2 ^ (8 * Z.of_nat 4)) with (2 ^ 32).
  change (2 ^ (8 * Z.of_nat 1)) with 256.
  replace ((0 <=? a) && (a <? 2 ^ 32)) with true by (symmetry; apply andb_true_iff; split; [apply Z.leb_le|apply Z.ltb_lt]; lia).
  replace ((0 <=? b) && (b <? 256)) with true by (symmetry; apply andb_true_iff; split; [apply Z.leb_le|apply Z.ltb_lt]; lia).
  replace ((0 <=? c) && (c <? 256)) with true by (symmetry; apply andb_true_iff; split; [apply Z.leb_le|apply Z.ltb_lt]; lia).
  reflexivity.
Qed.

Lemma pack_header_length (a b c : Z) (bs : list byte) :
  Struct.pack Struct.Little
    [Struct.cI; Struct.cB; Struct.cx; Struct.cB] [a; b; c] = Some bs ->
  bs = le_bytes 4 a ++ [byte_wrap b; x00; byte_wrap c].
Proof.
  unfold Struct.pack, Struct.encode, Struct.size.
  destruct ((0 <=? a) && (a <? 2 ^ (8 * Z.of_nat 4))); [|discriminate].
  destruct ((0 <=? b) && (b <? 2 ^ (8 * Z.of_nat 1))); [|discriminate].
  destruct ((0 <=? c) && (c <? 2 ^ (8 * Z.of_nat 1))); [|discriminate].
  intros E. injection E as <-. reflexivity.
Qed.

(** Whenever the command block can be built, it is the old buffer with
    bytes 8 to 14 and the command bytes replaced. *)
Lemma build_cbw_inv (c : list byte) (direction : Z)
      (command data c' : list byte) :
  build_cbw c direction command data = inr c' ->
  (15 <= length c)%nat
  /\ c' = cbw_image c direction command (len data).
Proof.
  unfold cbw_image, build_cbw, Struct.pack_into, ebind.
  destruct (Struct.pack _ _ _) as [bs|] eqn:E; [|discriminate].
  apply pack_header_length in E. subst bs.
  change (Struct.calcsize _) with 7%nat.
  destruct (Nat.leb_spec (8 + 7) (length c)) as [L|L]; [|discriminate].
  intros H. split; [lia|].
  assert (H' : slice_assign
                 (firstn 8 c
                    ++ (le_bytes 4 (len data)
                          ++ [byte_wrap direction; x00;
                              byte_wrap (len command)])
                    ++ skipn (8 + 7) c) 15 (15 + length command) command
               = c') by congruence.
  clear H. subst c'.
  unfold slice_assign.
  set (hdr := le_bytes 4 (len data)
                ++ [byte_wrap direction; x00; byte_wrap (len command)]).
  assert (Hh : length hdr = 7%nat) by reflexivity.
  assert (Hp : length (firstn 8 c ++ hdr) = 15%nat).
  { rewrite length_app, length_firstn, Hh. lia. }
  rewrite (app_assoc (firstn 8 c) hdr).
  rewrite (firstn_exact_app (firstn 8 c ++ hdr) _ 15 Hp).
  rewrite (skipn_past_app (firstn 8 c ++ hdr)) by lia.
  rewrite Hp, skipn_skipn, <- app_assoc.
  do 3 (apply f_equal). apply (f_equal (fun n => skipn n c)). lia.
Qed.

Lemma build_cbw_ok (c : list byte) (direction : Z) (command data : list byte) :
  (15 <= length c)%nat ->
  len data < 2 ^ 32 -> 0 <= direction < 256 -> len command < 256 ->
  build_cbw c direction command data
  = inr (cbw_image c direction command (len data)).
Proof.
  intros L Hd Hdir Hc.
  destruct (build_cbw c direction command data) as [e|c'] eqn:E.
  - exfalso. revert E. unfold build_cbw, Struct.pack_into, ebind.
    rewrite pack_header by (unfold len in *; lia).
    change (Struct.calcsize _) with 7%nat.
    destruct (Nat.leb_spec (8 + 7) (length c)) as [L'|L']; [discriminate|lia].
  - apply build_cbw_inv in E. destruct E as [_ ->]. reflexivity.
Qed.

Lemma cbw_image_length (c : list byte) (direction : Z)
      (command : list byte) (n : Z) :
  (15 + length command <= length c)%nat ->
  length (cbw_image c direction command n) = length c.
Proof.
  intros L. unfold cbw_image.
  rewrite !length_app, length_firstn, length_skipn, le_bytes_length.
  simpl length. lia.
Qed.

(** A later command of the same length wipes out an earlier one. *)
Lemma cbw_image_twice (c : list byte) (d1 d2 : Z) (cmd1 cmd2 : list byte)
      (n1 n2 : Z) :
  (8 <= length c)%nat -> length cmd1 = length cmd2 ->
  cbw_image (cbw_image c d1 cmd1 n1) d2 cmd2 n2 = cbw_image c d2 cmd2 n2.
Proof.
  intros L E. unfold cbw_image at 1 3.
  assert (F : firstn 8 (cbw_image c d1 cmd1 n1) = firstn 8 c).
  { unfold cbw_image. rewrite firstn_exact_app; [reflexivity|].
    rewrite length_firstn. lia. }
  assert (S : skipn (15 + length cmd2) (cbw_image c d1 cmd1 n1)
              = skipn (15 + length cmd2) c).
  { unfold cbw_image.
    set (hdr := le_bytes 4 n1 ++ [byte_wrap d1; x00; byte_wrap (len cmd1)]).
    assert (Hh : length hdr = 7%nat) by reflexivity.
    rewrite !app_assoc.
    rewrite skipn_past_app.
    - rewrite !length_app, length_firstn, Hh, E.
      replace (15 + length cmd2 - (Nat.min 8 (length c) + 7 + length cmd2))%nat
        with 0%nat by lia.
      rewrite <- E. reflexivity.
    - rewrite !length_app, length_firstn, Hh. lia. }
  rewrite F, S. reflexivity.
Qed.

End CommandBlock.

(* ------------------------------------------------------------------ *)
(** * Running one command *)

Section RunCommand.

Lemma bind_run {A B} (m : M A) (k : A -> M B) (s : state) :
  bind m k s
  = match m s with
    | (Return a, s') => k a s'
    | (Raise e, s') => (Raise e, s')
    | (Diverge, s') => (Diverge, s')
    end.
Proof. reflexivity. Qed.

Lemma bind_return {A B} (m : M A) (k : A -> M B) (s s' : state) (a : A) :
  m s = (Return a, s') -> bind m k s = k a s'.
Proof. intros H. unfold bind. now rewrite H. Qed.

Lemma bind_raise {A B} (m : M A) (k : A -> M B) (s s' : state) (e : exn) :
  m s = (Raise e, s') -> bind m k s = (Raise e, s').
Proof. intros H. unfold bind. now rewrite H. Qed.

(** A command that cannot be packed raises before any transfer. *)
Lemma scsi_command_unpackable (o : USBMassStorage) (d : usb_device)
      (direction : Z) (command data : list byte) (e : exn) :
  build_cbw (cbw o) direction command data = inl e ->
  _scsi_command direction command data (o, d) = (Raise e, (o, d)).
Proof.
  unfold build_cbw, ebind, _scsi_command, bind, get_self, lift. simpl fst.
  destruct (Struct.pack_into _ _ _ _ _) as [e'|c']; [|discriminate].
  intros H. injection H as <-. reflexivity.
Qed.

(** A command without data phase, answered: two transfers. *)
Lemma scsi_command_no_data (o : USBMassStorage) (d : usb_device)
      (direction : Z) (command c w st : list byte) (rest : list reply) :
  build_cbw (cbw o) direction command [] = inr c ->
  script d = Data w :: Data st :: rest ->
  _scsi_command direction command [] (o, d)
  = (Return [],
     (after_command o c st,
      mkDevice rest (trace d ++ exchange o direction [] c))).
Proof.
  destruct d as [sc tr]. simpl script. simpl trace. intros B ->.
  revert B.
  unfold build_cbw, ebind, _scsi_command, bind, get_self, lift.
  simpl fst.
  destruct (Struct.pack_into _ _ _ _ _) as [e'|c']; [discriminate|].
  intros H. assert (E : slice_assign c' 15 (15 + length (A:=byte) command) command = c)
    by congruence.
  unfold ret, modify_self, device_write, device_read, bind, transfer.
  cbn [fst snd script trace nonempty]. rewrite E.
  unfold after_command, exchange. cbn [nonempty app].
  destruct o; cbn. rewrite <- app_assoc. reflexivity.
Qed.

(** A command with a data phase, answered: three transfers; data that
    arrives lands in the buffer, data sent leaves it as it was. *)
Lemma scsi_command_data (o : USBMassStorage) (d : usb_device)
      (direction : Z) (command data c w r st : list byte)
      (rest : list reply) :
  build_cbw (cbw o) direction command data = inr c ->
  nonempty data = true ->
  script d = Data w :: Data r :: Data st :: rest ->
  _scsi_command direction command data (o, d)
  = (Return (if direction =? _DIR_IN then fill data r else data),
     (after_command o c st,
      mkDevice rest (trace d ++ exchange o direction data c))).
Proof.
  destruct d as [sc tr]. simpl script. simpl trace. intros B Hne ->.
  revert B.
  unfold build_cbw, ebind, _scsi_command, bind, get_self, lift.
  simpl fst.
  destruct (Struct.pack_into _ _ _ _ _) as [e'|c']; [discriminate|].
  intros H. assert (E : slice_assign c' 15 (15 + length (A:=byte) command) command = c)
    by congruence.
  unfold ret, modify_self, device_write, device_read, bind, transfer.
  cbn [fst snd script trace]. rewrite E, Hne.
  unfold after_command, exchange. rewrite Hne.
  destruct (direction =? _DIR_IN);
    destruct o; cbn; rewrite <- !app_assoc; reflexivity.
Qed.

End RunCommand.

(* ------------------------------------------------------------------ *)
(** * The readiness loop *)

Section Readiness.

Lemma test_ready_built (l : Z) :
  0 <= l < 256 ->
  (let* t := setitem (bytearray 6) 0 _SCSI_CMD_TEST_UNIT_READY in
   setitem t 1 l) = inr (test_ready_command l).
Proof.
  intros H. unfold setitem, ebind. cbn [bytearray repeat length Nat.ltb Nat.leb].
  change (to_byte _SCSI_CMD_TEST_UNIT_READY) with (Some x00).
  cbn [firstn skipn app length Nat.ltb Nat.leb].
  rewrite (to_byte_wrap l H). reflexivity.
Qed.

Lemma test_ready_unbuilt (l : Z) :
  ~ (0 <= l < 256) ->
  (let* t := setitem (bytearray 6) 0 _SCSI_CMD_TEST_UNIT_READY in
   setitem t 1 l) = inl ByteRange.
Proof.
  intros H. unfold setitem, ebind. cbn [bytearray repeat length Nat.ltb Nat.leb].
  change (to_byte _SCSI_CMD_TEST_UNIT_READY) with (Some x00).
  cbn [firstn skipn app length Nat.ltb Nat.leb].
  rewrite (to_byte_out_of_range l H). reflexivity.
Qed.

Lemma sense_built :
  (let* s := setitem (bytearray 6) 0 _SCSI_CMD_REQUEST_SENSE in
   setitem s 4 (len (bytearray 18))) = inr sense_command.
Proof. reflexivity. Qed.

Lemma with_buffers_after (o : USBMassStorage) (c st c' st' : list byte) :
  after_command (with_buffers o c st) c' st'
  = with_buffers o c' (fill st st').
Proof. destruct o. reflexivity. Qed.

Lemma after_command_buffers (o : USBMassStorage) (c st : list byte) :
  after_command o c st = with_buffers o c (fill (csw o) st).
Proof. destruct o. reflexivity. Qed.

Lemma with_buffers_fields (o : USBMassStorage) (c st : list byte) :
  in_ep (with_buffers o c st) = in_ep o
  /\ out_ep (with_buffers o c st) = out_ep o
  /\ lun (with_buffers o c st) = lun o
  /\ sector_count (with_buffers o c st) = sector_count o
  /\ block_size (with_buffers o c st) = block_size o
  /\ cbw (with_buffers o c st) = c
  /\ csw (with_buffers o c st) = st.
Proof. destruct o. repeat split. Qed.

Lemma cbw_image_long (c : list byte) (direction : Z) (command : list byte)
      (n : Z) :
  (8 <= length c)%nat ->
  (15 <= length (cbw_image c direction command n))%nat.
Proof.
  intros L. unfold cbw_image.
  rewrite !length_app, length_firstn, le_bytes_length. simpl length. lia.
Qed.

(** One turn of the loop body, answered: a Request-Sense and a
    Test-Unit-Ready, after which the status is that of the latter. *)
Lemma retry_run {A} (K : list byte -> M A) (o : USBMassStorage)
      (st sr sd sc tc : list byte) (rest : list reply) (tr : list request) :
  (8 <= length (cbw o))%nat ->
  length st = 13%nat -> length tc = 13%nat -> length sr = 18%nat ->
  (sleep ;;;
   sense_response' <- _scsi_command _DIR_IN sense_command sr ;;
   _scsi_command _DIR_OUT (test_ready_command (lun o)) [] ;;;
   K sense_response')
    (with_buffers o (tur_cbw (cbw o) (lun o)) st,
     mkDevice (ack :: Data sd :: Data sc :: ack :: Data tc :: rest) tr)
  = K (fill sr sd)
      (with_buffers o (tur_cbw (cbw o) (lun o)) tc,
       mkDevice rest (tr ++ [Sleep] ++ sense_events o ++ tur_events o)).
Proof.
  intros L Hst Htc Hsr.
  pose proof (with_buffers_fields o (tur_cbw (cbw o) (lun o)) st)
    as (Fi & Fo & Fl & _ & _ & Fc & Fs).
  unfold bind at 1. unfold sleep at 1. cbn [script trace].
  erewrite bind_return.
  2:{ eapply scsi_command_data with (r := sd) (st := sc) (w := []).
      - rewrite Fc. apply build_cbw_ok.
        + apply cbw_image_long. exact L.
        + unfold len. rewrite Hsr. reflexivity.
        + unfold _DIR_IN. lia.
        + reflexivity.
      - destruct sr; [discriminate|reflexivity].
      - reflexivity. }
  rewrite with_buffers_after.
  unfold tur_cbw at 1. rewrite cbw_image_twice by (try reflexivity; lia).
  change (_DIR_IN =? _DIR_IN) with true. cbv iota.
  pose proof (with_buffers_fields o
                (cbw_image (cbw o) _DIR_IN sense_command (len sr))
                (fill st sc)) as (Gi & Go & Gl & _ & _ & Gc & Gs).
  erewrite bind_return.
  2:{ eapply scsi_command_no_data with (st := tc) (w := []).
      - rewrite Gc. apply build_cbw_ok.
        + apply cbw_image_long. exact L.
        + reflexivity.
        + unfold _DIR_OUT. lia.
        + reflexivity.
      - reflexivity. }
  rewrite with_buffers_after.
  rewrite cbw_image_twice by (try reflexivity; lia).
  rewrite (fill_exact (fill st sc) tc) by (rewrite fill_length; lia).
  cbn [trace].
  unfold exchange. rewrite Fi, Fo, Fs, Gi, Go, Gs, fill_length, Hst, Hsr.
  change (nonempty []) with false. cbv iota.
  replace (nonempty sr) with true by (destruct sr; [discriminate|reflexivity]).
  change (_DIR_IN =? _DIR_IN) with true. cbv iota.
  unfold sense_events, tur_events, sense_cbw, tur_cbw.
  assert (Hl : len sr = 18) by (unfold len; rewrite Hsr; reflexivity).
  rewrite Hl. change (len []) with 0.
  rewrite !cbw_image_twice by (try reflexivity; lia).
  rewrite <- !app_assoc. reflexivity.
Qed.

Lemma wait_loop_eq (remaining : nat) (test_ready sense sr : list byte) :
  wait_loop remaining test_ready sense sr
  = (self <- get_self ;;
     st <- lift (getitem (csw self) 12) ;;
     if negb (st =? 0) then
       match remaining with
       | O => ret tt
       | S remaining' =>
           sleep ;;;
           sense_response' <- _scsi_command _DIR_IN sense sr ;;
           _scsi_command _DIR_OUT test_ready [] ;;;
           wait_loop remaining' test_ready sense sense_response'
       end
     else ret tt).
Proof. destruct remaining; reflexivity. Qed.

Lemma wait_loop_ready (remaining : nat) (t sn sr : list byte)
      (o : USBMassStorage) (d : usb_device) :
  getitem (csw o) 12 = inr 0 ->
  wait_loop remaining t sn sr (o, d) = (Return tt, (o, d)).
Proof.
  intros H. rewrite wait_loop_eq.
  unfold bind, get_self, lift. cbn [fst]. rewrite H. reflexivity.
Qed.

Lemma wait_loop_exhausted (t sn sr : list byte)
      (o : USBMassStorage) (d : usb_device) (s : Z) :
  getitem (csw o) 12 = inr s ->
  wait_loop 0 t sn sr (o, d) = (Return tt, (o, d)).
Proof.
  intros H. rewrite wait_loop_eq.
  unfold bind, get_self, lift. cbn [fst]. rewrite H.
  unfold ret. destruct (negb (s =? 0)); reflexivity.
Qed.

Lemma wait_loop_failed (remaining : nat) (t sn sr : list byte)
      (o : USBMassStorage) (d : usb_device) (s : Z) :
  getitem (csw o) 12 = inr s -> s <> 0 ->
  wait_loop (S remaining) t sn sr (o, d)
  = (sleep ;;;
     sense_response' <- _scsi_command _DIR_IN sn sr ;;
     _scsi_command _DIR_OUT t [] ;;;
     wait_loop remaining t sn sense_response') (o, d).
Proof.
  intros H N. rewrite (wait_loop_eq (S remaining)).
  rewrite bind_run. unfold get_self at 1. cbn [fst].
  rewrite bind_run. unfold lift at 1. rewrite H. unfold ret at 1.
  apply Z.eqb_neq in N. rewrite N. reflexivity.
Qed.

(** The loop, entered after a Test-Unit-Ready that failed with status
    wrapper [fc]: every round that follows costs one try; the loop ends on
    the first ready status, or when the tries are used up. *)
Lemma wait_loop_rounds (o : USBMassStorage) (final : list byte)
      (rest : list reply) (rounds : list round) :
  forall (remaining : nat) (fc sd sc sr : list byte) (tr : list request),
    (8 <= length (cbw o))%nat ->
    csw_failed fc ->
    Forall (fun r => csw_failed (failed r)) rounds ->
    length final = 13%nat ->
    length sr = 18%nat ->
    (S (length rounds) <= remaining)%nat ->
    getitem final 12 = inr 0 \/ S (length rounds) = remaining ->
    wait_loop remaining (test_ready_command (lun o)) sense_command sr
      (with_buffers o (tur_cbw (cbw o) (lun o)) fc,
       mkDevice ([ack; Data sd; Data sc]
                   ++ flat_map round_replies rounds
                   ++ [ack; Data final] ++ rest) tr)
    = (Return tt,
       (with_buffers o (tur_cbw (cbw o) (lun o)) final,
        mkDevice rest
          (tr ++ [Sleep] ++ sense_events o
              ++ concat (map (fun _ => round_events o) rounds)
              ++ tur_events o))).
Proof.
  induction rounds as [|r rounds IH];
    intros remaining fc sd sc sr tr L [Lf [s [Hs Ns]]] Hall Lfin Lsr Hrem Hend.
  - destruct remaining as [|remaining]; [simpl in Hrem; lia|].
    erewrite wait_loop_failed; [| |exact Ns].
    2:{ destruct (with_buffers_fields o (tur_cbw (cbw o) (lun o)) fc)
          as (_ & _ & _ & _ & _ & _ & ->). exact Hs. }
    cbn [flat_map app].
    rewrite retry_run by assumption.
    assert (G : csw (with_buffers o (tur_cbw (cbw o) (lun o)) final)
                = final)
      by apply with_buffers_fields.
    destruct Hend as [Hz|Hz].
    + rewrite wait_loop_ready by (rewrite G; exact Hz).
      cbn [concat map app]. reflexivity.
    + simpl in Hz. injection Hz as <-.
      destruct (getitem final 12) as [e|s'] eqn:E.
      * exfalso. unfold getitem in E.
        destruct (nth_error final 12) eqn:E'; [discriminate|].
        apply nth_error_None in E'. lia.
      * erewrite wait_loop_exhausted by (rewrite G; exact E).
        cbn [concat map app]. reflexivity.
  - destruct remaining as [|remaining]; [simpl in Hrem; lia|].
    erewrite wait_loop_failed; [| |exact Ns].
    2:{ destruct (with_buffers_fields o (tur_cbw (cbw o) (lun o)) fc)
          as (_ & _ & _ & _ & _ & _ & ->). exact Hs. }
    inversion Hall as [|r' rs' Hr Hrs]; subst.
    destruct r as [fr sdr scr]. cbn [failed] in Hr.
    cbn [flat_map round_replies app failed sense_data sense_status].
    rewrite retry_run; try assumption.
    2:{ apply Hr. }
    change (ack :: Data sdr :: Data scr
              :: flat_map round_replies rounds ++ ack :: Data final :: rest)
      with ([ack; Data sdr; Data scr]
              ++ flat_map round_replies rounds
              ++ [ack; Data final] ++ rest).
    rewrite IH; try assumption.
    + cbn [concat map]. unfold round_events.
      rewrite <- !app_assoc. reflexivity.
    + rewrite fill_length. exact Lsr.
    + simpl in Hrem. lia.
    + destruct Hend as [Hz|Hz]; [left; exact Hz|right; simpl in Hz; lia].
Qed.

(** [_wait_for_ready] up to its first Test-Unit-Ready, answered. *)
Lemma wait_for_ready_first (tries : Z) (o : USBMassStorage)
      (st : list byte) (more : list reply) (tr : list request) :
  length (csw o) = 13%nat -> (15 <= length (cbw o))%nat ->
  0 <= lun o < 256 -> length st = 13%nat ->
  _wait_for_ready tries (o, mkDevice (ack :: Data st :: more) tr)
  = (wait_loop (Z.to_nat tries) (test_ready_command (lun o))
               sense_command (bytearray 18) ;;; final_check)
      (with_buffers o (tur_cbw (cbw o) (lun o)) st,
       mkDevice more (tr ++ tur_events o)).
Proof.
  intros Ls Lc Hl Hst. unfold _wait_for_ready.
  rewrite bind_run.
  assert (E1 : self_csw_setitem 12 1 (o, mkDevice (ack :: Data st :: more) tr)
               = (Return tt,
                  (set_csw (firstn 12 (csw o) ++ x01 :: skipn 13 (csw o)) o,
                   mkDevice (ack :: Data st :: more) tr))).
  { unfold self_csw_setitem, bind, get_self, lift, setitem. cbn [fst].
    rewrite Ls. reflexivity. }
  rewrite E1. clear E1.
  set (o1 := set_csw _ o).
  assert (F : in_ep o1 = in_ep o /\ out_ep o1 = out_ep o /\ lun o1 = lun o
              /\ cbw o1 = cbw o /\ length (csw o1) = 13%nat).
  { subst o1. destruct o. unfold set_csw.
    cbn [in_ep out_ep lun cbw csw] in *. repeat split.
    rewrite length_app, length_firstn. cbn [length].
    rewrite length_skipn. lia. }
  destruct F as (Fi & Fo & Fl & Fc & Fs).
  rewrite bind_run. unfold get_self at 1. cbn [fst].
  rewrite Fl, test_ready_built by exact Hl.
  rewrite bind_run. unfold lift at 1, ret at 1.
  rewrite sense_built.
  rewrite bind_run. unfold lift at 1, ret at 1.
  erewrite bind_return.
  2:{ eapply scsi_command_no_data with (w := []) (st := st).
      - rewrite Fc. apply build_cbw_ok.
        + exact Lc.
        + reflexivity.
        + unfold _DIR_OUT. lia.
        + reflexivity.
      - reflexivity. }
  rewrite after_command_buffers.
  rewrite fill_exact by lia.
  replace (with_buffers o1 _ st)
    with (with_buffers o (tur_cbw (cbw o) (lun o)) st)
    by (subst o1; destruct o; reflexivity).
  unfold exchange. rewrite Fi, Fo, Fs. cbn [nonempty app trace].
  reflexivity.
Qed.

(** [_wait_for_ready] against a device that fails the Test-Unit-Ready
    [length rounds] times and then answers [final]. *)
Lemma wait_for_ready_run (tries : Z) (o : USBMassStorage)
      (rounds : list round) (final : list byte) (rest : list reply)
      (tr : list request) :
  length (csw o) = 13%nat -> (15 <= length (cbw o))%nat ->
  0 <= lun o < 256 ->
  Forall (fun r => csw_failed (failed r)) rounds ->
  length final = 13%nat ->
  (length rounds <= Z.to_nat tries)%nat ->
  getitem final 12 = inr 0 \/ length rounds = Z.to_nat tries ->
  _wait_for_ready tries
    (o, mkDevice (flat_map round_replies rounds
                    ++ [ack; Data final] ++ rest) tr)
  = final_check
      (with_buffers o (tur_cbw (cbw o) (lun o)) final,
       mkDevice rest
         (tr ++ concat (map (fun _ => round_events o) rounds)
             ++ tur_events o)).
Proof.
  intros Ls Lc Hl Hall Lfin Hn Hend.
  destruct rounds as [|[fc sd sc] rounds].
  - cbn [flat_map app concat map].
    rewrite wait_for_ready_first by assumption.
    assert (G : csw (with_buffers o (tur_cbw (cbw o) (lun o)) final)
                = final)
      by apply with_buffers_fields.
    destruct Hend as [Hz|Hz].
    + erewrite bind_return
        by (apply wait_loop_ready; rewrite G; exact Hz).
      reflexivity.
    + simpl in Hz. rewrite <- Hz.
      destruct (getitem final 12) as [e|s'] eqn:E.
      * exfalso. unfold getitem in E.
        destruct (nth_error final 12) eqn:E'; [discriminate|].
        apply nth_error_None in E'. lia.
      * erewrite bind_return
          by (eapply wait_loop_exhausted; rewrite G; exact E).
        reflexivity.
  - inversion Hall as [|r' rs' Hr Hrs]; subst. cbn [failed] in Hr.
    cbn [flat_map round_replies app failed sense_data sense_status].
    rewrite wait_for_ready_first; try assumption.
    2:{ apply Hr. }
    erewrite bind_return.
    2:{ change (ack :: Data sd :: Data sc
                  :: flat_map round_replies rounds
                  ++ ack :: Data final :: rest)
          with ([ack; Data sd; Data sc]
                  ++ flat_map round_replies rounds
                  ++ [ack; Data final] ++ rest).
        apply wait_loop_rounds; try assumption; try lia;
          try apply bytearray_length; cbn [length] in *; lia. }
    cbn [concat map]. unfold round_events.
    rewrite <- !app_assoc. reflexivity.
Qed.

Lemma final_check_ready (o : USBMassStorage) (d : usb_device) :
  getitem (csw o) 12 = inr 0 -> final_check (o, d) = (Return tt, (o, d)).
Proof.
  intros H. unfold final_check, bind, get_self, lift. cbn [fst].
  rewrite H. reflexivity.
Qed.

Lemma final_check_failed (o : USBMassStorage) (d : usb_device) (s : Z) :
  getitem (csw o) 12 = inr s -> s <> 0 ->
  final_check (o, d) = (Raise OutOfTries, (o, d)).
Proof.
  intros H N. unfold final_check, bind, get_self, lift. cbn [fst].
  rewrite H. unfold ret. apply Z.eqb_neq in N. rewrite N. reflexivity.
Qed.

Lemma opcodes_app (a b : list request) :
  opcodes (a ++ b) = opcodes a ++ opcodes b.
Proof. unfold opcodes. apply flat_map_app. Qed.

Lemma opcodes_tur (o : USBMassStorage) :
  (8 <= length (cbw o))%nat ->
  opcodes (tur_events o) = [_SCSI_CMD_TEST_UNIT_READY].
Proof.
  intros L. unfold tur_events, opcodes, tur_cbw, cbw_image.
  cbn [flat_map app].
  rewrite app_assoc.
  rewrite nth_error_app2
    by (rewrite length_app, length_firstn; cbn [length le_bytes app]; lia).
  rewrite length_app, length_firstn.
  replace (15 - _)%nat with 0%nat by (cbn [length le_bytes app]; lia).
  reflexivity.
Qed.

Lemma opcodes_sense (o : USBMassStorage) :
  (8 <= length (cbw o))%nat ->
  opcodes (sense_events o) = [_SCSI_CMD_REQUEST_SENSE].
Proof.
  intros L. unfold sense_events, opcodes, sense_cbw, cbw_image.
  cbn [flat_map app].
  rewrite app_assoc.
  rewrite nth_error_app2
    by (rewrite length_app, length_firstn; cbn [length le_bytes app]; lia).
  rewrite length_app, length_firstn.
  replace (15 - _)%nat with 0%nat by (cbn [length le_bytes app]; lia).
  reflexivity.
Qed.

(** After [n] rounds and a last Test-Unit-Ready, the commands sent are
    [n] pairs Test-Unit-Ready, Request-Sense and one Test-Unit-Ready. *)
Lemma opcodes_rounds (o : USBMassStorage) (n : nat) :
  (8 <= length (cbw o))%nat ->
  opcodes (concat (repeat (round_events o) n) ++ tur_events o)
  = concat (repeat [_SCSI_CMD_TEST_UNIT_READY; _SCSI_CMD_REQUEST_SENSE] n)
      ++ [_SCSI_CMD_TEST_UNIT_READY].
Proof.
  intros L. rewrite opcodes_app, opcodes_tur by exact L. f_equal.
  induction n as [|n IH]; [reflexivity|].
  cbn [repeat concat]. rewrite opcodes_app, IH. f_equal.
  unfold round_events. rewrite !opcodes_app.
  rewrite opcodes_tur, opcodes_sense by exact L. reflexivity.
Qed.

Lemma map_const_repeat {A B} (b : B) (l : list A) :
  map (fun _ => b) l = repeat b (length l).
Proof. induction l as [|a l IH]; [reflexivity|]. simpl. now rewrite IH. Qed.

End Readiness.

(* ------------------------------------------------------------------ *)
(** * Construction *)

Section Construction.

(** The Get-Max-LUN block of [__init__]: the byte the device sends plus
    one, or 0 when the transfer fails, in whatever way; nothing is raised. *)
Lemma max_lun_value (wIndex : option Z) (o : USBMassStorage) (r : reply)
      (rest : list reply) (tr : list request) :
  get_max_lun wIndex (o, mkDevice (r :: rest) tr)
  = (Return match r with
            | Data [] => 1
            | Data (b :: _) => byte_val b + 1
            | Fail _ => 0
            end,
     (o, mkDevice rest (tr ++ [CtrlTransfer 0xA1 254 0 wIndex 1]))).
Proof.
  destruct r as [bs|f].
  - destruct bs as [|b bs]; reflexivity.
  - reflexivity.
Qed.

Lemma max_lun_block (wIndex : option Z) (o : USBMassStorage) (r : reply)
      (rest : list reply) (tr : list request) :
  exists n,
    get_max_lun wIndex (o, mkDevice (r :: rest) tr)
    = (Return n,
       (o, mkDevice rest (tr ++ [CtrlTransfer 0xA1 254 0 wIndex 1]))).
Proof. eexists. apply max_lun_value. Qed.

(** [__init__] after a scan that found both endpoints and a
    [set_configuration] that went through: the Get-Max-LUN reply [r] is
    consumed and the session is opened. *)
Lemma init_reaches_session (fuel : nat) (desc : list byte) (lun_arg : Z)
      (v : scan_vars) (o0 : USBMassStorage) (a : list byte) (r : reply)
      (rest : list reply) (tr : list request) :
  scan fuel desc = Return v ->
  s_in_ep v <> 0 -> s_out_ep v <> 0 ->
  init_with_descriptor fuel desc lun_arg
    (o0, mkDevice (Data a :: r :: rest) tr)
  = open_session
      (mkObj (s_in_ep v) (s_out_ep v) None None lun_arg (cbw o0) (csw o0),
       mkDevice rest
         (tr ++ [SetConfiguration (config_value v); get_max_lun_request v])).
Proof.
  intros Hs Hi Ho. unfold init_with_descriptor.
  do 4 (rewrite bind_run; unfold modify_self at 1; cbn [fst snd]).
  rewrite bind_run. unfold lift_outcome at 1. rewrite Hs.
  do 2 (rewrite bind_run; unfold modify_self at 1; cbn [fst snd]).
  apply Z.eqb_neq in Hi, Ho. rewrite Hi, Ho. cbn [orb].
  rewrite bind_run; unfold modify_self at 1; cbn [fst snd].
  rewrite bind_run. unfold transfer at 1. cbn [script trace].
  rewrite bind_run.
  match goal with
  | |- context [get_max_lun ?w (?o, mkDevice (r :: rest) ?t)] =>
      destruct (max_lun_block (msc_interface v) o r rest t) as [n E]
  end.
  rewrite E. destruct o0. unfold get_max_lun_request.
  cbn [set_in_ep set_out_ep set_sector_count set_block_size set_lun
       in_ep out_ep sector_count block_size lun cbw csw].
  rewrite <- app_assoc. reflexivity.
Qed.

End Construction.


Section ConstructionRuns.

Lemma inquire_run (o : USBMassStorage) (w r st : list byte)
      (rest : list reply) (tr : list request) :
  (15 <= length (cbw o))%nat ->
  _inquire (o, mkDevice (Data w :: Data r :: Data st :: rest) tr)
  = (Return tt,
     (after_command o (cbw_image (cbw o) _DIR_IN inquiry_command 36) st,
      mkDevice rest
        (tr ++ exchange o _DIR_IN (bytearray 36)
                 (cbw_image (cbw o) _DIR_IN inquiry_command 36)))).
Proof.
  intros L. unfold _inquire.
  change (let* c := setitem (bytearray 6) 0 _SCSI_CMD_INQUIRY in
          setitem c 4 (len (bytearray 36))) with (@inr exn _ inquiry_command).
  rewrite bind_run. unfold lift at 1, ret at 1.
  erewrite bind_return.
  2:{ eapply scsi_command_data with (w := w) (r := r) (st := st).
      - apply build_cbw_ok.
        + exact L.
        + reflexivity.
        + unfold _DIR_IN. lia.
        + reflexivity.
      - reflexivity.
      - reflexivity. }
  reflexivity.
Qed.

Lemma open_session_run (o : USBMassStorage) (d : usb_device) :
  0 <= lun o < 256 ->
  open_session (o, d)
  = (_inquire ;;; _wait_for_ready 100)
      (with_buffers o (cbw_template (lun o)) csw_template, d).
Proof.
  intros H. unfold open_session.
  rewrite bind_run; unfold modify_self at 1; cbn [fst snd].
  rewrite bind_run; unfold get_self at 1; cbn [fst snd].
  rewrite bind_run; unfold modify_self at 1; cbn [fst snd].
  rewrite bind_run; unfold get_self at 1; cbn [fst snd].
  rewrite bind_run.
  assert (E : self_cbw_setitem 14
                (lun (set_cbw (slice_assign (cbw (set_cbw (bytearray 31) o))
                                 0 4 [x55; x53; x42; x43])
                        (set_cbw (bytearray 31) o)))
                (set_cbw (slice_assign (cbw (set_cbw (bytearray 31) o))
                            0 4 [x55; x53; x42; x43])
                   (set_cbw (bytearray 31) o), d)
              = (Return tt, (set_cbw (cbw_template (lun o)) o, d))).
  { destruct o as [i ou sc bs l c cs]. cbn [lun] in H.
    unfold self_cbw_setitem, bind, get_self, lift, set_cbw, setitem.
    cbn [fst snd cbw lun in_ep out_ep sector_count block_size csw].
    change (14 <? length (slice_assign (bytearray 31) 0 4 [x55; x53; x42; x43]))%nat
      with true.
    rewrite (to_byte_wrap l H). reflexivity. }
  rewrite E.
  rewrite bind_run; unfold modify_self at 1; cbn [fst snd].
  rewrite bind_run; unfold get_self at 1; cbn [fst snd].
  rewrite bind_run; unfold modify_self at 1; cbn [fst snd].
  destruct o; reflexivity.
Qed.

Lemma open_session_bad_lun (o : USBMassStorage) (d : usb_device) :
  ~ (0 <= lun o < 256) ->
  exists o', open_session (o, d) = (Raise ByteRange, (o', d)).
Proof.
  intros H. destruct o as [i ou sc bs l c cs]. eexists. unfold open_session.
  rewrite bind_run; unfold modify_self at 1; cbn [fst snd].
  rewrite bind_run; unfold get_self at 1; cbn [fst snd].
  rewrite bind_run; unfold modify_self at 1; cbn [fst snd].
  rewrite bind_run; unfold get_self at 1; cbn [fst snd].
  rewrite bind_run.
  cbn [lun] in H.
  unfold self_cbw_setitem, bind, get_self, lift, set_cbw, setitem.
  cbn [fst snd cbw lun in_ep out_ep sector_count block_size csw].
  change (14 <? length (slice_assign (bytearray 31) 0 4 [x55; x53; x42; x43]))%nat
    with true.
  rewrite (to_byte_out_of_range l H). reflexivity.
Qed.

Lemma session_events (v : scan_vars) (lun_arg : Z) (st : list byte) :
  let so := session_object v lun_arg in
  let o2 := after_command so (cbw_image (cbw so) _DIR_IN inquiry_command 36) st in
  tur_events o2 = tur_events so
  /\ sense_events o2 = sense_events so
  /\ round_events o2 = round_events so
  /\ tur_cbw (cbw o2) (lun o2) = tur_cbw (cbw so) (lun so)
  /\ length (csw o2) = 13%nat
  /\ (15 <= length (cbw o2))%nat
  /\ lun o2 = lun_arg.
Proof.
  intros so o2.
  assert (T : tur_cbw (cbw o2) (lun o2) = tur_cbw (cbw so) (lun so)).
  { subst o2 so. unfold after_command, session_object, set_csw, set_cbw.
    cbn [cbw lun in_ep out_ep sector_count block_size csw].
    unfold tur_cbw. apply cbw_image_twice; [cbn; lia|reflexivity]. }
  assert (S : sense_cbw (cbw o2) = sense_cbw (cbw so)).
  { subst o2 so. unfold after_command, session_object, set_csw, set_cbw.
    cbn [cbw lun in_ep out_ep sector_count block_size csw].
    unfold sense_cbw. apply cbw_image_twice; [cbn; lia|reflexivity]. }
  assert (Et : tur_events o2 = tur_events so)
    by (unfold tur_events; rewrite T; reflexivity).
  assert (Es : sense_events o2 = sense_events so)
    by (unfold sense_events; rewrite S; reflexivity).
  split; [exact Et|]. split; [exact Es|].
  split; [unfold round_events; now rewrite Et, Es|].
  split; [exact T|].
  split; [|split; [|reflexivity]].
  - subst o2 so. unfold after_command, session_object, set_csw, set_cbw.
    cbn [cbw lun in_ep out_ep sector_count block_size csw].
    now rewrite fill_length.
  - subst o2 so. unfold after_command, session_object, set_csw, set_cbw.
    cbn [cbw lun in_ep out_ep sector_count block_size csw].
    apply cbw_image_long. cbn. lia.
Qed.

(** A construction against a device that lets it reach the readiness loop
    and there fails the Test-Unit-Ready [length rounds] times before it
    answers [final]. *)
Lemma init_run (fuel : nat) (lun_arg : Z) (desc a inq icsw final : list byte)
      (r : reply) (v : scan_vars) (rounds : list round) (rest : list reply)
      (tr : list request) :
  scan fuel desc = Return v ->
  s_in_ep v <> 0 -> s_out_ep v <> 0 ->
  0 <= lun_arg < 256 ->
  Forall (fun r => csw_failed (failed r)) rounds ->
  length final = 13%nat ->
  (length rounds <= 100)%nat ->
  getitem final 12 = inr 0 \/ length rounds = 100%nat ->
  let so := session_object v lun_arg in
  __init__ fuel lun_arg
    (new_object,
     mkDevice (init_replies desc a r inq icsw
                 ++ flat_map round_replies rounds
                 ++ [ack; Data final] ++ rest) tr)
  = final_check
      (with_buffers so (tur_cbw (cbw so) lun_arg) final,
       mkDevice rest
         (tr ++ init_events v lun_arg
             ++ concat (repeat (round_events so) (length rounds))
             ++ tur_events so)).
Proof.
  intros Hs Hi Ho Hl Hall Lf Hn Hend so.
  unfold __init__, init_replies. cbn [app].
  rewrite bind_run. unfold transfer at 1. cbn [script trace].
  rewrite (init_reaches_session fuel desc lun_arg v) by assumption.
  rewrite open_session_run by exact Hl.
  change (with_buffers _ (cbw_template _) csw_template) with so.
  erewrite bind_return.
  2:{ apply inquire_run. cbn. lia. }
  destruct (session_events v lun_arg icsw)
    as (Et & Es & Er & Tc & Lc & Lb & Ll).
  fold so in Et, Es, Er, Tc, Lc, Lb, Ll.
  set (o2 := after_command so _ icsw) in *.
  change (ack :: Data final :: rest) with ([ack; Data final] ++ rest).
  rewrite wait_for_ready_run; try assumption.
  rewrite map_const_repeat, Er, Et, Tc.
  replace (with_buffers o2 (tur_cbw (cbw so) (lun so)) final)
    with (with_buffers so (tur_cbw (cbw so) lun_arg) final)
    by (subst o2 so; reflexivity).
  unfold init_events. fold so.
  change (cbw so) with (cbw_template lun_arg) at 3.
  rewrite <- !app_assoc. reflexivity.
Qed.

End ConstructionRuns.

(* ------------------------------------------------------------------ *)
(** * The readiness loop: the commands it issues *)

Lemma count_rounds (n : nat) :
  count_occ Z.eq_dec
    (concat (repeat [_SCSI_CMD_TEST_UNIT_READY; _SCSI_CMD_REQUEST_SENSE] n)
       ++ [_SCSI_CMD_TEST_UNIT_READY]) _SCSI_CMD_TEST_UNIT_READY = S n
  /\ count_occ Z.eq_dec
       (concat (repeat [_SCSI_CMD_TEST_UNIT_READY; _SCSI_CMD_REQUEST_SENSE] n)
          ++ [_SCSI_CMD_TEST_UNIT_READY]) _SCSI_CMD_REQUEST_SENSE = n.
Proof.
  induction n as [|n [IH1 IH2]]; [split; reflexivity|].
  cbn [repeat concat app]. split.
  - rewrite count_occ_cons_eq by reflexivity.
    rewrite count_occ_cons_neq by discriminate. now rewrite IH1.
  - rewrite count_occ_cons_neq by discriminate.
    rewrite count_occ_cons_eq by reflexivity. now rewrite IH2.
Qed.

(** C4. Readiness loop, success: against a device that answers the first
    [n] Test-Unit-Ready commands with a nonzero status and the next one with
    status 0, for any [n] from 0 up to the retry budget, [_wait_for_ready]
    returns normally having made exactly these transfers: [n] times a
    Test-Unit-Ready, a sleep and a Request-Sense with an 18-byte response
    buffer, then one last Test-Unit-Ready.  So it issues [n + 1]
    Test-Unit-Ready and [n] Request-Sense commands, every Request-Sense
    between two Test-Unit-Ready; with [n = 0], one Test-Unit-Ready and no
    Request-Sense. *)
Theorem wait_for_ready_success_commands :
  forall (tries : Z) (o : USBMassStorage) (rounds : list round)
         (final : list byte) (rest : list reply) (tr : list request),
    length (csw o) = 13%nat ->
    (15 <= length (cbw o))%nat ->
    0 <= lun o < 256 ->
    Forall (fun r => csw_failed (failed r)) rounds ->
    csw_ready final ->
    (length rounds <= Z.to_nat tries)%nat ->
    let n := length rounds in
    let issued := concat (repeat (round_events o) n) ++ tur_events o in
    let result :=
      _wait_for_ready tries
        (o, mkDevice (flat_map round_replies rounds
                        ++ [ack; Data final] ++ rest) tr) in
    fst result = Return tt
    /\ script (snd (snd result)) = rest
    /\ trace (snd (snd result)) = tr ++ issued
    /\ opcodes issued
       = concat (repeat [_SCSI_CMD_TEST_UNIT_READY; _SCSI_CMD_REQUEST_SENSE] n)
           ++ [_SCSI_CMD_TEST_UNIT_READY]
    /\ count_occ Z.eq_dec (opcodes issued) _SCSI_CMD_TEST_UNIT_READY = S n
    /\ count_occ Z.eq_dec (opcodes issued) _SCSI_CMD_REQUEST_SENSE = n.
Proof.
  intros tries o rounds final rest tr Ls Lc Hl Hall [Lf Hz] Hn n issued result.
  assert (R : result
              = (Return tt,
                 (with_buffers o (tur_cbw (cbw o) (lun o)) final,
                  mkDevice rest (tr ++ issued)))).
  { subst result issued n.
    rewrite wait_for_ready_run by (try assumption; left; exact Hz).
    rewrite map_const_repeat. apply final_check_ready.
    destruct (with_buffers_fields o (tur_cbw (cbw o) (lun o)) final)
      as (_ & _ & _ & _ & _ & _ & ->). exact Hz. }
  rewrite R. cbn [fst snd script trace].
  assert (O : opcodes issued
              = concat (repeat [_SCSI_CMD_TEST_UNIT_READY;
                                _SCSI_CMD_REQUEST_SENSE] n)
                  ++ [_SCSI_CMD_TEST_UNIT_READY])
    by (apply opcodes_rounds; lia).
  rewrite O. destruct (count_rounds n) as [C1 C2].
  repeat split; assumption.
Qed.

(** The device of the specification's example: not ready five times, ready
    the sixth. *)
Lemma wait_for_ready_success_commands_witness :
  let o := sample_session 0 in
  let issued := concat (repeat (round_events o) 5) ++ tur_events o in
  let result :=
    _wait_for_ready 100
      (o, mkDevice (flat_map round_replies (repeat sample_round 5)
                      ++ [ack; Data (status_wrapper 0)] ++ []) []) in
  fst result = Return tt
  /\ script (snd (snd result)) = []
  /\ trace (snd (snd result)) = [] ++ issued
  /\ opcodes issued
     = concat (repeat [_SCSI_CMD_TEST_UNIT_READY; _SCSI_CMD_REQUEST_SENSE] 5)
         ++ [_SCSI_CMD_TEST_UNIT_READY]
  /\ count_occ Z.eq_dec (opcodes issued) _SCSI_CMD_TEST_UNIT_READY = 6%nat
  /\ count_occ Z.eq_dec (opcodes issued) _SCSI_CMD_REQUEST_SENSE = 5%nat.
Proof.
  apply (wait_for_ready_success_commands 100 (sample_session 0)
           (repeat sample_round 5) (status_wrapper 0) [] []).
  - reflexivity.
  - simpl. lia.
  - simpl. lia.
  - apply Forall_forall. intros r Hr. apply repeat_spec in Hr. subst r.
    split; [reflexivity|]. exists 1. split; [reflexivity|discriminate].
  - split; reflexivity.
  - simpl. lia.
Defined.

(* ------------------------------------------------------------------ *)
(** * The readiness loop: giving up *)

Lemma sample_rounds_failed (n : nat) :
  Forall (fun r => csw_failed (failed r)) (repeat sample_round n).
Proof.
  apply Forall_forall. intros r Hr. apply repeat_spec in Hr. subst r.
  split; [reflexivity|]. exists 1. split; [reflexivity|discriminate].
Qed.

(** C5. Readiness loop, failure: against a device that answers every
    Test-Unit-Ready with a nonzero status, [_wait_for_ready tries] ends
    after [tries + 1] Test-Unit-Ready commands (and [tries] Request-Sense
    commands between them) by raising "Out of tries"; the last transfer made
    is the status read of the last Test-Unit-Ready, and no reply after it is
    consumed.  [__init__] calls it with the default budget of 100, and the
    construction fails with that error after 101 Test-Unit-Ready
    commands. *)
Theorem never_ready_gives_up :
  (forall (tries : Z) (o : USBMassStorage) (rounds : list round)
          (final : list byte) (rest : list reply) (tr : list request),
      length (csw o) = 13%nat ->
      (15 <= length (cbw o))%nat ->
      0 <= lun o < 256 ->
      Forall (fun r => csw_failed (failed r)) rounds ->
      csw_failed final ->
      length rounds = Z.to_nat tries ->
      let issued :=
        concat (repeat (round_events o) (Z.to_nat tries)) ++ tur_events o in
      let result :=
        _wait_for_ready tries
          (o, mkDevice (flat_map round_replies rounds
                          ++ [ack; Data final] ++ rest) tr) in
      fst result = Raise OutOfTries
      /\ script (snd (snd result)) = rest
      /\ trace (snd (snd result)) = tr ++ issued
      /\ count_occ Z.eq_dec (opcodes issued) _SCSI_CMD_TEST_UNIT_READY
         = S (Z.to_nat tries))
  /\
  (forall (fuel : nat) (lun_arg : Z) (desc a inq icsw final : list byte)
          (r : reply) (v : scan_vars) (rounds : list round)
          (rest : list reply) (tr : list request),
      scan fuel desc = Return v ->
      s_in_ep v <> 0 -> s_out_ep v <> 0 ->
      0 <= lun_arg < 256 ->
      Forall (fun r => csw_failed (failed r)) rounds ->
      csw_failed final ->
      length rounds = 100%nat ->
      let so := session_object v lun_arg in
      let result :=
        __init__ fuel lun_arg
          (new_object,
           mkDevice (init_replies desc a r inq icsw
                       ++ flat_map round_replies rounds
                       ++ [ack; Data final] ++ rest) tr) in
      fst result = Raise OutOfTries
      /\ script (snd (snd result)) = rest
      /\ trace (snd (snd result))
         = tr ++ init_events v lun_arg
              ++ concat (repeat (round_events so) 100) ++ tur_events so).
Proof.
  split.
  - intros tries o rounds final rest tr Ls Lc Hl Hall [Lf [s [Hs Ns]]] Hn
           issued result.
    assert (R : result
                = (Raise OutOfTries,
                   (with_buffers o (tur_cbw (cbw o) (lun o)) final,
                    mkDevice rest (tr ++ issued)))).
    { subst result issued.
      rewrite wait_for_ready_run by (try assumption; try lia; right; exact Hn).
      rewrite map_const_repeat, Hn.
      apply final_check_failed with (s := s); [|exact Ns].
      destruct (with_buffers_fields o (tur_cbw (cbw o) (lun o)) final)
        as (_ & _ & _ & _ & _ & _ & ->). exact Hs. }
    rewrite R. cbn [fst snd script trace].
    repeat split.
    subst issued. rewrite opcodes_rounds by lia.
    apply count_rounds.
  - intros fuel lun_arg desc a inq icsw final r v rounds rest tr
           Hs Hi Ho Hl Hall [Lf [s [Hst Ns]]] Hn so result.
    assert (R : result
                = (Raise OutOfTries,
                   (with_buffers so (tur_cbw (cbw so) lun_arg) final,
                    mkDevice rest
                      (tr ++ init_events v lun_arg
                          ++ concat (repeat (round_events so) 100)
                          ++ tur_events so)))).
    { subst result.
      rewrite (init_run fuel lun_arg desc a inq icsw final r v)
        by (try assumption; try lia; right; exact Hn).
      rewrite Hn. fold so.
      apply final_check_failed with (s := s); [|exact Ns].
      destruct (with_buffers_fields so (tur_cbw (cbw so) lun_arg) final)
        as (_ & _ & _ & _ & _ & _ & ->). exact Hst. }
    rewrite R. cbn [fst snd script trace]. repeat split.
Qed.

(** A drive that is never ready, asked with a budget of three tries, and
    the construction of a session on such a drive. *)
Lemma never_ready_gives_up_witness :
  (let o := sample_session 0 in
   let issued := concat (repeat (round_events o) 3) ++ tur_events o in
   let result :=
     _wait_for_ready 3
       (o, mkDevice (flat_map round_replies (repeat sample_round 3)
                       ++ [ack; Data (status_wrapper 1)] ++ [ack]) []) in
   fst result = Raise OutOfTries
   /\ script (snd (snd result)) = [ack]
   /\ trace (snd (snd result)) = [] ++ issued
   /\ count_occ Z.eq_dec (opcodes issued) _SCSI_CMD_TEST_UNIT_READY = 4%nat)
  /\
  (let so := session_object sample_vars 0 in
   let result :=
     __init__ 10 0
       (new_object,
        mkDevice (init_replies sample_descriptor [] (Data [x00])
                    (bytearray 36) (status_wrapper 0)
                    ++ flat_map round_replies (repeat sample_round 100)
                    ++ [ack; Data (status_wrapper 1)] ++ [ack]) []) in
   fst result = Raise OutOfTries
   /\ script (snd (snd result)) = [ack]
   /\ trace (snd (snd result))
      = [] ++ init_events sample_vars 0
           ++ concat (repeat (round_events so) 100) ++ tur_events so).
Proof.
  split.
  - apply (proj1 never_ready_gives_up 3 (sample_session 0)
             (repeat sample_round 3) (status_wrapper 1) [ack] []).
    + reflexivity.
    + simpl. lia.
    + simpl. lia.
    + apply sample_rounds_failed.
    + split; [reflexivity|]. exists 1. split; [reflexivity|discriminate].
    + reflexivity.
  - apply (proj2 never_ready_gives_up 10%nat 0 sample_descriptor []
             (bytearray 36) (status_wrapper 0) (status_wrapper 1)
             (Data [x00]) sample_vars (repeat sample_round 100) [ack] []).
    + vm_compute. reflexivity.
    + simpl. lia.
    + simpl. lia.
    + lia.
    + apply sample_rounds_failed.
    + split; [reflexivity|]. exists 1. split; [reflexivity|discriminate].
    + apply repeat_length.
Defined.

(* ------------------------------------------------------------------ *)
(** * The command block on the wire *)

(** Whatever the device does, a command that can be packed makes between
    one and three transfers, in the order of [exchange]. *)
Ltac fin k :=
  exists k; split; [lia|];
  cbn [script trace fst snd firstn app]; rewrite <- ?app_assoc; reflexivity.

(** Whatever the device does, a command that can be packed makes between
    one and three transfers, in the order of [exchange]. *)
Lemma scsi_command_trace (o : USBMassStorage) (d : usb_device)
      (direction : Z) (command data c : list byte) :
  build_cbw (cbw o) direction command data = inr c ->
  exists k,
    (1 <= k)%nat
    /\ trace (snd (snd (_scsi_command direction command data (o, d))))
       = trace d ++ firstn k (exchange o direction data c).
Proof.
  destruct d as [sc tr]. intros B. revert B.
  unfold build_cbw, ebind, _scsi_command.
  rewrite bind_run. unfold get_self at 1. cbn [fst].
  rewrite bind_run.
  destruct (Struct.pack_into _ _ _ _ _) as [e'|c']; [discriminate|].
  intros H.
  assert (E : slice_assign c' 15 (15 + length (A:=byte) command) command = c)
    by congruence.
  unfold lift at 1, ret at 1.
  rewrite bind_run; unfold modify_self at 1; cbn [fst snd].
  rewrite bind_run; unfold get_self at 1; cbn [fst snd].
  rewrite E.
  replace (out_ep (set_cbw c o)) with (out_ep o) by (destruct o; reflexivity).
  replace (in_ep (set_cbw c o)) with (in_ep o) by (destruct o; reflexivity).
  replace (cbw (set_cbw c o)) with c by (destruct o; reflexivity).
  replace (csw (set_cbw c o)) with (csw o) by (destruct o; reflexivity).
  unfold exchange, device_write, device_read, bind, transfer, ret, modify_self.
  cbn [script trace fst snd].
  destruct sc as [|[w|f] sc]; cbn [script trace fst snd];
    [fin 1%nat| |fin 1%nat].
  destruct (nonempty data).
  - destruct (direction =? _DIR_IN).
    + destruct sc as [|[r|f] sc]; cbn [script trace fst snd];
        [fin 2%nat| |fin 2%nat].
      destruct sc as [|[st|f] sc]; fin 3%nat.
    + destruct sc as [|[r|f] sc]; cbn [script trace fst snd];
        [fin 2%nat| |fin 2%nat].
      destruct sc as [|[st|f] sc]; fin 3%nat.
  - destruct sc as [|[st|f] sc]; fin 2%nat.
Qed.

(** The layout of a command block. *)
Lemma cbw_image_layout (c : list byte) (direction : Z) (command : list byte)
      (n : Z) :
  (8 <= length c)%nat ->
  let c' := cbw_image c direction command n in
  firstn 8 c' = firstn 8 c
  /\ firstn 4 (skipn 8 c') = le_bytes 4 n
  /\ nth_error c' 12 = Some (byte_wrap direction)
  /\ nth_error c' 13 = Some x00
  /\ nth_error c' 14 = Some (byte_wrap (len command))
  /\ firstn (length command) (skipn 15 c') = command.
Proof.
  intros L c'. subst c'. unfold cbw_image.
  assert (F : length (firstn 8 c) = 8%nat) by (rewrite length_firstn; lia).
  set (p := firstn 8 c) in *.
  split; [apply firstn_exact_app; exact F|].
  rewrite !(skipn_past_app p) by lia.
  rewrite !(nth_error_app2 p) by lia.
  rewrite F. cbn [Nat.sub skipn le_bytes app nth_error firstn].
  repeat (split; [reflexivity|]).
  apply firstn_exact_app. reflexivity.
Qed.

(** The template of [__init__]: 31 bytes, the signature, a zero at index 13
    and the LUN at index 14. *)
Lemma template_lun_index (lun_arg : Z) :
  length (cbw_template lun_arg) = 31%nat
  /\ firstn 4 (cbw_template lun_arg) = [x55; x53; x42; x43]
  /\ nth_error (cbw_template lun_arg) 13 = Some x00
  /\ nth_error (cbw_template lun_arg) 14 = Some (byte_wrap lun_arg).
Proof. repeat split. Qed.

(** C1. The command block [_scsi_command] writes first, for every object
    and every command that can be packed: bytes 0-7 are those of
    [self.cbw], bytes 8-11 are [len(data)] little-endian, byte 12 is the
    direction, byte 14 is [len(command)], the command follows from byte 15,
    and byte 13, the LUN field of the Bulk-Only Transport, is zero whatever
    [self.lun] is: the pad byte of the format is written there, and
    [__init__] stored the LUN at index 14, which the command length
    overwrites.  The claim that byte 13 carries the LUN fails for every LUN
    but 0. *)
Theorem scsi_command_lun_field_is_zero :
  forall (o : USBMassStorage) (d : usb_device) (direction : Z)
         (command data c : list byte),
    build_cbw (cbw o) direction command data = inr c ->
    (exists more,
        trace (snd (snd (_scsi_command direction command data (o, d))))
        = trace d ++ Write (out_ep o) c :: more)
    /\ firstn 8 c = firstn 8 (cbw o)
    /\ firstn 4 (skipn 8 c) = le_bytes 4 (len data)
    /\ nth_error c 12 = Some (byte_wrap direction)
    /\ nth_error c 13 = Some x00
    /\ nth_error c 14 = Some (byte_wrap (len command))
    /\ firstn (length command) (skipn 15 c) = command.
Proof.
  intros o d direction command data c B. split.
  - destruct (scsi_command_trace o d direction command data c B)
      as [k [Hk Ht]].
    rewrite Ht. destruct k as [|k]; [lia|].
    unfold exchange. cbn [firstn]. eexists. reflexivity.
  - apply build_cbw_inv in B. destruct B as [L ->].
    apply cbw_image_layout. lia.
Qed.

(** A session opened with [lun=1] sends its inquiry in a command block
    whose byte 13 is 0, not 1. *)
Lemma scsi_command_lun_field_is_zero_witness :
  let o := sample_session 1 in
  let c := cbw_image (cbw_template 1) _DIR_IN inquiry_command 36 in
  lun o = 1
  /\ (exists more,
         trace (snd (snd (_scsi_command _DIR_IN inquiry_command
                            (bytearray 36) (o, mkDevice [] []))))
         = [] ++ Write (out_ep o) c :: more)
  /\ nth_error c 13 = Some x00
  /\ byte_wrap 1 <> x00.
Proof.
  intros o c. split; [reflexivity|].
  destruct (scsi_command_lun_field_is_zero o (mkDevice [] []) _DIR_IN
              inquiry_command (bytearray 36) c eq_refl)
    as (W & _ & _ & _ & Z13 & _).
  split; [exact W|]. split; [exact Z13|]. discriminate.
Defined.

(* ------------------------------------------------------------------ *)
(** * Reading and writing blocks *)

Lemma in_range_true (lo hi v : Z) :
  lo <= v < hi -> (lo <=? v) && (v <? hi) = true.
Proof.
  intros H. apply andb_true_iff. split; [apply Z.leb_le|apply Z.ltb_lt]; lia.
Qed.

Lemma in_range_false (lo hi v : Z) :
  ~ (lo <= v < hi) -> (lo <=? v) && (v <? hi) = false.
Proof.
  intros H. apply andb_false_iff.
  destruct (Z.leb_spec lo v); [right|left; reflexivity].
  apply Z.ltb_ge. lia.
Qed.

Lemma pack_rw10 (opcode l block_num count : Z) :
  0 <= opcode < 256 -> 0 <= l < 256 ->
  0 <= block_num < 2 ^ 32 -> 0 <= count < 2 ^ 16 ->
  Struct.pack_into Struct.Big
    [Struct.cB; Struct.cB; Struct.cI; Struct.cx; Struct.cH]
    (bytearray 10) 0 [opcode; l; block_num; count]
  = inr (rw10_command opcode l block_num count).
Proof.
  intros Ho Hl Hb Hc.
  unfold Struct.pack_into, Struct.pack, Struct.encode, Struct.size.
  change (2 ^ (8 * Z.of_nat 1)) with 256.
  change (2 ^ (8 * Z.of_nat 4)) with (2 ^ 32).
  change (2 ^ (8 * Z.of_nat 2)) with (2 ^ 16).
  rewrite !in_range_true by assumption.
  cbn [Struct.calcsize fold_right Struct.size Nat.add bytearray repeat
       length Nat.leb firstn skipn].
  unfold rw10_command.
  change (be_bytes 1 opcode) with [byte_wrap opcode].
  change (be_bytes 1 l) with [byte_wrap l].
  cbn [app]. rewrite <- !app_assoc. reflexivity.
Qed.

Lemma rw10_length (opcode l block_num count : Z) :
  length (rw10_command opcode l block_num count) = 10%nat.
Proof. reflexivity. Qed.

(** [readblocks] and [writeblocks] with values that do not fit their
    fields raise before anything is sent. *)
Lemma pack_rw10_overflow (opcode l block_num count : Z) :
  ~ (0 <= block_num < 2 ^ 32) \/ ~ (0 <= count < 2 ^ 16)
  \/ ~ (0 <= l < 256) ->
  Struct.pack_into Struct.Big
    [Struct.cB; Struct.cB; Struct.cI; Struct.cx; Struct.cH]
    (bytearray 10) 0 [opcode; l; block_num; count]
  = inl StructError.
Proof.
  intros H.
  unfold Struct.pack_into, Struct.pack, Struct.encode, Struct.size.
  change (2 ^ (8 * Z.of_nat 1)) with 256.
  change (2 ^ (8 * Z.of_nat 4)) with (2 ^ 32).
  change (2 ^ (8 * Z.of_nat 2)) with (2 ^ 16).
  destruct ((0 <=? opcode) && (opcode <? 256)); [|reflexivity].
  destruct H as [H|[H|H]].
  - rewrite (in_range_false _ _ block_num H).
    destruct ((0 <=? l) && (l <? 256)); reflexivity.
  - rewrite (in_range_false _ _ count H).
    destruct ((0 <=? l) && (l <? 256));
      destruct ((0 <=? block_num) && (block_num <? 2 ^ 32)); reflexivity.
  - rewrite (in_range_false _ _ l H). reflexivity.
Qed.

Lemma readblocks_eq (block_num : Z) (buf : list byte) (o : USBMassStorage)
      (d : usb_device) :
  0 <= lun o < 256 -> 0 <= block_num < 2 ^ 32 -> len buf / 512 < 2 ^ 16 ->
  readblocks block_num buf (o, d)
  = _scsi_command _DIR_IN
      (rw10_command _SCSI_CMD_READ_10 (lun o) block_num (len buf / 512))
      buf (o, d).
Proof.
  intros Hl Hb Hc. unfold readblocks.
  rewrite bind_run. unfold get_self at 1. cbn [fst].
  rewrite pack_rw10; try assumption.
  - reflexivity.
  - unfold _SCSI_CMD_READ_10. lia.
  - split; [|exact Hc]. apply Z.div_pos; unfold len; lia.
Qed.

Lemma writeblocks_eq (block_num : Z) (buf : list byte) (o : USBMassStorage)
      (d : usb_device) :
  0 <= lun o < 256 -> 0 <= block_num < 2 ^ 32 -> len buf / 512 < 2 ^ 16 ->
  writeblocks block_num buf (o, d)
  = _scsi_command _DIR_OUT
      (rw10_command _SCSI_CMD_WRITE_10 (lun o) block_num (len buf / 512))
      buf (o, d).
Proof.
  intros Hl Hb Hc. unfold writeblocks.
  rewrite bind_run. unfold get_self at 1. cbn [fst].
  rewrite pack_rw10; try assumption.
  - reflexivity.
  - unfold _SCSI_CMD_WRITE_10. lia.
  - split; [|exact Hc]. apply Z.div_pos; unfold len; lia.
Qed.

(** Outside the ranges of its fields a block command raises before any
    transfer. *)
Lemma blocks_overflow (block_num : Z) (buf : list byte) (o : USBMassStorage)
      (d : usb_device) :
  ~ (0 <= block_num < 2 ^ 32) \/ ~ (0 <= len buf / 512 < 2 ^ 16)
  \/ ~ (0 <= lun o < 256) ->
  readblocks block_num buf (o, d) = (Raise StructError, (o, d))
  /\ writeblocks block_num buf (o, d) = (Raise StructError, (o, d)).
Proof.
  intros H. unfold readblocks, writeblocks.
  rewrite !bind_run. unfold get_self. cbn [fst].
  rewrite !bind_run.
  rewrite !pack_rw10_overflow by exact H. split; reflexivity.
Qed.

Lemma len_bound_of_count (buf : list byte) :
  len buf / 512 < 2 ^ 16 -> 0 <= len buf < 2 ^ 32.
Proof.
  intros H. assert (0 <= len buf) by (unfold len; lia).
  split; [assumption|].
  pose proof (Z.div_mod (len buf) 512 ltac:(lia)).
  pose proof (Z.mod_pos_bound (len buf) 512 ltac:(lia)).
  change (2 ^ 16) with 65536 in H. change (2 ^ 32) with 4294967296. lia.
Qed.

(** The claim as first stated, for every block number, fails: a block
    number that does not fit 32 bits makes [struct.pack_into] raise, and no
    command is issued. *)
Lemma readblocks_overflow_counterexample :
  readblocks (2 ^ 32) (bytearray 512)
    (sample_session 0, mkDevice [ack; Data (bytearray 512); Data (status_wrapper 0)] [])
  = (Raise StructError,
     (sample_session 0,
      mkDevice [ack; Data (bytearray 512); Data (status_wrapper 0)] [])).
Proof. vm_compute. reflexivity. Qed.

(** C3 (amended). For a LUN in [0, 256), a block number in [0, 2^32) and a
    buffer of fewer than 65536 blocks of 512 bytes, [readblocks] issues
    exactly one command, whose block carries the ten bytes 0x28, the LUN,
    the block number on four bytes big-endian, a zero byte, [len(buf) //
    512] on two bytes big-endian and a zero byte, with command length 10,
    direction 0x80 and data transfer length [len(buf)]; its transfers are
    those of one exchange with a device-to-host data phase.  [writeblocks]
    does the same with opcode 0x2A, direction 0x00 and a host-to-device data
    phase.  The block count is [k] when [len(buf) = 512 * k], and the
    quotient rounded down otherwise. *)
Theorem blocks_command :
  forall (block_num : Z) (buf : list byte) (o : USBMassStorage)
         (d : usb_device),
    0 <= lun o < 256 ->
    0 <= block_num < 2 ^ 32 ->
    len buf / 512 < 2 ^ 16 ->
    (15 <= length (cbw o))%nat ->
    let count := len buf / 512 in
    let rd := rw10_command _SCSI_CMD_READ_10 (lun o) block_num count in
    let wr := rw10_command _SCSI_CMD_WRITE_10 (lun o) block_num count in
    let crd := cbw_image (cbw o) _DIR_IN rd (len buf) in
    let cwr := cbw_image (cbw o) _DIR_OUT wr (len buf) in
    (exists k, (1 <= k)%nat
               /\ trace (snd (snd (readblocks block_num buf (o, d))))
                  = trace d ++ firstn k (exchange o _DIR_IN buf crd))
    /\ (exists k, (1 <= k)%nat
                  /\ trace (snd (snd (writeblocks block_num buf (o, d))))
                     = trace d ++ firstn k (exchange o _DIR_OUT buf cwr))
    /\ (firstn 10 (skipn 15 crd) = rd /\ nth_error crd 14 = Some x0a
        /\ nth_error crd 12 = Some x80
        /\ firstn 4 (skipn 8 crd) = le_bytes 4 (len buf))
    /\ (firstn 10 (skipn 15 cwr) = wr /\ nth_error cwr 14 = Some x0a
        /\ nth_error cwr 12 = Some x00
        /\ firstn 4 (skipn 8 cwr) = le_bytes 4 (len buf))
    /\ (nth_error rd 0 = Some x28 /\ nth_error wr 0 = Some x2a
        /\ nth_error rd 1 = Some (byte_wrap (lun o))
        /\ be_decode (firstn 4 (skipn 2 rd)) = block_num
        /\ nth_error rd 6 = Some x00
        /\ be_decode (firstn 2 (skipn 7 rd)) = count
        /\ skipn 1 rd = skipn 1 wr)
    /\ (forall k, len buf = 512 * k -> count = k)
    /\ 512 * count <= len buf < 512 * count + 512.
Proof.
  intros block_num buf o d Hl Hb Hc Lc count rd wr crd cwr.
  pose proof (len_bound_of_count buf Hc) as Hlen.
  assert (Hcount : 0 <= count < 2 ^ 16).
  { split; [apply Z.div_pos; lia|exact Hc]. }
  split; [|split; [|split; [|split; [|split; [|split]]]]].
  - rewrite readblocks_eq by assumption.
    apply scsi_command_trace. apply build_cbw_ok; try assumption; try lia.
    + unfold _DIR_IN. lia.
    + reflexivity.
  - rewrite writeblocks_eq by assumption.
    apply scsi_command_trace. apply build_cbw_ok; try assumption; try lia.
    + unfold _DIR_OUT. lia.
    + reflexivity.
  - destruct (cbw_image_layout (cbw o) _DIR_IN rd (len buf) ltac:(lia))
      as (_ & A & B & _ & C & D).
    fold crd in A, B, C, D. repeat split; assumption.
  - destruct (cbw_image_layout (cbw o) _DIR_OUT wr (len buf) ltac:(lia))
      as (_ & A & B & _ & C & D).
    fold cwr in A, B, C, D. repeat split; assumption.
  - subst rd wr. unfold rw10_command.
    pose proof (be_decode_be_bytes 4 block_num Hb) as DL.
    pose proof (be_decode_be_bytes 2 count Hcount) as DC.
    pose proof (be_bytes_length 4 block_num) as LL.
    pose proof (be_bytes_length 2 count) as LC.
    destruct (be_bytes 4 block_num) as [|l0 [|l1 [|l2 [|l3 [|]]]]];
      try discriminate.
    destruct (be_bytes 2 count) as [|c0 [|c1 [|]]]; try discriminate.
    cbn [app skipn firstn nth_error].
    repeat split; assumption.
  - intros k Hk. subst count. rewrite Hk, Z.mul_comm. apply Z.div_mul. lia.
  - subst count.
    pose proof (Z.div_mod (len buf) 512 ltac:(lia)).
    pose proof (Z.mod_pos_bound (len buf) 512 ltac:(lia)). lia.
Qed.

(** Reading block 5 into a buffer of 1024 bytes: a block count of 2. *)
Lemma blocks_command_witness :
  let o := sample_session 0 in
  let rd := rw10_command _SCSI_CMD_READ_10 0 5 2 in
  let crd := cbw_image (cbw o) _DIR_IN rd 1024 in
  (exists k, (1 <= k)%nat
             /\ trace (snd (snd (readblocks 5 (bytearray 1024)
                                   (o, mkDevice [] []))))
                = [] ++ firstn k (exchange o _DIR_IN (bytearray 1024) crd))
  /\ rd = [x28; x00; x00; x00; x00; x05; x00; x00; x02; x00].
Proof.
  intros o rd crd. split; [|reflexivity].
  assert (Hl : 0 <= lun (sample_session 0) < 256) by (simpl; lia).
  assert (Hb : 0 <= 5 < 2 ^ 32) by lia.
  assert (Hc : len (bytearray 1024) / 512 < 2 ^ 16) by (vm_compute; reflexivity).
  assert (Lc : (15 <= length (cbw (sample_session 0)))%nat) by (simpl; lia).
  exact (proj1 (blocks_command 5 (bytearray 1024) (sample_session 0)
                  (mkDevice [] []) Hl Hb Hc Lc)).
Defined.

(* ------------------------------------------------------------------ *)
(** * Commands that are answered, and commands that return *)

(** A command all of whose transfers are answered. *)
Lemma scsi_command_answered (o : USBMassStorage) (direction : Z)
      (command data c w r st : list byte) (rest : list reply)
      (tr : list request) :
  build_cbw (cbw o) direction command data = inr c ->
  _scsi_command direction command data
    (o, mkDevice (command_replies data w r st ++ rest) tr)
  = (Return (if nonempty data && (direction =? _DIR_IN)
             then fill data r else data),
     (after_command o c st,
      mkDevice rest (tr ++ exchange o direction data c))).
Proof.
  intros B. unfold command_replies.
  destruct data as [|b data].
  - cbn [nonempty app andb].
    apply (scsi_command_no_data o (mkDevice (Data w :: Data st :: rest) tr)
             direction command c w st rest B eq_refl).
  - cbn [nonempty app andb].
    apply (scsi_command_data o
             (mkDevice (Data w :: Data r :: Data st :: rest) tr)
             direction command (b :: data) c w r st rest B eq_refl eq_refl).
Qed.

(** A command with a data phase returns only if it could be packed and all
    three transfers were answered. *)
Lemma scsi_command_returns (o : USBMassStorage) (d : usb_device)
      (direction : Z) (command data x : list byte) (s1 : state) :
  nonempty data = true ->
  _scsi_command direction command data (o, d) = (Return x, s1) ->
  exists c w r st rest,
    build_cbw (cbw o) direction command data = inr c
    /\ script d = Data w :: Data r :: Data st :: rest.
Proof.
  intros Hne.
  destruct (build_cbw (cbw o) direction command data) as [e|c] eqn:B.
  - rewrite (scsi_command_unpackable o d direction command data e B).
    discriminate.
  - destruct d as [sc tr]. cbn [script].
    destruct sc as [|[w|f] [|[r|f'] [|[st|f''] rest]]];
      try (intros _; exists c, w, r, st, rest; split; reflexivity);
      revert B; unfold build_cbw, ebind, _scsi_command;
      rewrite bind_run; unfold get_self at 1; cbn [fst];
      rewrite bind_run;
      (destruct (Struct.pack_into _ _ _ _ _) as [e'|c']; [discriminate|]);
      intros _;
      unfold lift, ret, modify_self, get_self, device_write, device_read,
        bind, transfer;
      cbn [script trace fst snd]; rewrite ?Hne;
      try destruct (direction =? _DIR_IN);
      cbn [script trace fst snd]; discriminate.
Qed.

Lemma read_capacity_built :
  setitem (bytearray 10) 0 _SCSI_CMD_READ_CAPACITY_10
  = inr read_capacity_command.
Proof. reflexivity. Qed.

(** [_read_capacity], answered. *)
Lemma read_capacity_run (o : USBMassStorage) (w resp st : list byte)
      (rest : list reply) (tr : list request) :
  (15 <= length (cbw o))%nat ->
  let response := fill (bytearray 8) resp in
  _read_capacity (o, mkDevice (Data w :: Data resp :: Data st :: rest) tr)
  = (Return tt,
     (set_sector_count (Some (be_decode (firstn 4 response) + 1))
        (set_block_size (Some (be_decode (skipn 4 response)))
           (after_command o
              (cbw_image (cbw o) _DIR_IN read_capacity_command 8) st)),
      mkDevice rest (tr ++ read_capacity_events o))).
Proof.
  intros L response. unfold _read_capacity.
  rewrite read_capacity_built.
  rewrite bind_run. unfold lift at 1, ret at 1.
  erewrite bind_return.
  2:{ eapply scsi_command_data with (w := w) (r := resp) (st := st).
      - apply build_cbw_ok.
        + exact L.
        + reflexivity.
        + unfold _DIR_IN. lia.
        + reflexivity.
      - reflexivity.
      - reflexivity. }
  change (_DIR_IN =? _DIR_IN) with true. cbv iota. fold response.
  unfold Struct.unpack_II_be.
  replace (length response =? 8)%nat with true
    by (subst response; rewrite fill_length; reflexivity).
  rewrite bind_run. unfold lift at 1, ret at 1.
  unfold bind, modify_self. cbn [fst snd trace].
  unfold read_capacity_events.
  set (o' := after_command o _ st).
  destruct o'. reflexivity.
Qed.

(* ------------------------------------------------------------------ *)
(** * Capacity *)

(** C6. For every 8-byte Read-Capacity(10) response, [_read_capacity] sets
    [sector_count] to the big-endian 32-bit number in bytes 0-3 plus one and
    [block_size] to the big-endian 32-bit number in bytes 4-7; the command
    it issues is the ten bytes 0x25, 0, ..., 0 with an 8-byte device-to-host
    data phase. *)
Theorem read_capacity_decodes :
  forall (o : USBMassStorage) (w resp st : list byte) (rest : list reply)
         (tr : list request),
    length resp = 8%nat ->
    (15 <= length (cbw o))%nat ->
    let result :=
      _read_capacity
        (o, mkDevice (Data w :: Data resp :: Data st :: rest) tr) in
    fst result = Return tt
    /\ sector_count (fst (snd result))
       = Some (be_decode (firstn 4 resp) + 1)
    /\ block_size (fst (snd result)) = Some (be_decode (skipn 4 resp))
    /\ trace (snd (snd result)) = tr ++ read_capacity_events o.
Proof.
  intros o w resp st rest tr Lr Lc result. subst result.
  rewrite read_capacity_run by exact Lc.
  rewrite (fill_exact (bytearray 8) resp) by (rewrite bytearray_length; exact Lr).
  cbn [fst snd trace].
  set (o' := after_command o _ st). destruct o'.
  repeat split.
Qed.

(** The response 00 00 03 E7 00 00 02 00: a thousand sectors of 512
    bytes. *)
Lemma read_capacity_decodes_witness :
  let resp := [x00; x00; x03; xe7; x00; x00; x02; x00] in
  let result :=
    _read_capacity
      (sample_session 0,
       mkDevice (ack :: Data resp :: Data (status_wrapper 0) :: []) []) in
  fst result = Return tt
  /\ sector_count (fst (snd result)) = Some 1000
  /\ block_size (fst (snd result)) = Some 512.
Proof.
  intros resp result.
  assert (Lr : length resp = 8%nat) by reflexivity.
  assert (Lc : (15 <= length (cbw (sample_session 0)))%nat) by (simpl; lia).
  destruct (read_capacity_decodes (sample_session 0) [] resp
              (status_wrapper 0) [] [] Lr Lc) as (R & S & B & _).
  split; [exact R|]. split; [exact S|exact B].
Defined.

(** [_read_capacity] returns only if its command could be packed and all
    three transfers were answered. *)
Lemma read_capacity_returns (o : USBMassStorage) (d : usb_device)
      (s1 : state) :
  _read_capacity (o, d) = (Return tt, s1) ->
  exists w resp st rest,
    (15 <= length (cbw o))%nat
    /\ script d = Data w :: Data resp :: Data st :: rest.
Proof.
  unfold _read_capacity. rewrite read_capacity_built.
  rewrite bind_run. unfold lift at 1, ret at 1.
  rewrite bind_run.
  destruct (_scsi_command _DIR_IN read_capacity_command (bytearray 8) (o, d))
    as [[x|e|] s] eqn:E; try discriminate.
  intros _.
  apply scsi_command_returns in E; [|reflexivity].
  destruct E as (c & w & r & st & rest & B & Sc).
  apply build_cbw_inv in B. destruct B as [L _].
  exists w, r, st, rest. split; assumption.
Qed.

(** The claim as first stated, for every sequence of device responses,
    fails: when the data phase of the first Read-Capacity stalls, the first
    [ioctl(4)] raises and caches nothing, and the second [ioctl(4)] sends
    Read-Capacity again, so that two consecutive calls issue the command
    twice. *)
Lemma ioctl_retry_counterexample :
  let d := mkDevice [ack; Fail Stall;
                     ack; Data [x00; x00; x03; xe7; x00; x00; x02; x00];
                     Data (status_wrapper 0)] [] in
  let first := ioctl _MP_BLOCKDEV_IOCTL_BLOCK_COUNT (sample_session 0, d) in
  let second := ioctl _MP_BLOCKDEV_IOCTL_BLOCK_COUNT (snd first) in
  fst first = Raise (USBError Stall)
  /\ sector_count (fst (snd first)) = None
  /\ fst second = Return (Some 1000)
  /\ opcodes (trace (snd (snd second)))
     = [_SCSI_CMD_READ_CAPACITY_10; _SCSI_CMD_READ_CAPACITY_10].
Proof. vm_compute. repeat split. Qed.

(** C7. Two consecutive block-count queries, the first of which returns:
    a call [ioctl(4)] that returns has issued one Read-Capacity command if
    [self.sector_count] was [None] (or 0) and none otherwise; the count it
    returns is never falsy, being at least one when it was just read; and
    the second call returns the same count and leaves object and device as
    they are: no transfer is made.  So when the first call returns, the two
    calls issue Read-Capacity at most once. *)
Theorem ioctl_block_count_cached :
  forall (o : USBMassStorage) (d : usb_device) (v : option Z) (s1 : state),
    ioctl _MP_BLOCKDEV_IOCTL_BLOCK_COUNT (o, d) = (Return v, s1) ->
    falsy v = false
    /\ sector_count (fst s1) = v
    /\ trace (snd s1)
       = trace d ++ (if falsy (sector_count o)
                     then read_capacity_events o else [])
    /\ (falsy (sector_count o) = true -> exists n, v = Some n /\ 1 <= n)
    /\ ioctl _MP_BLOCKDEV_IOCTL_BLOCK_COUNT s1 = (Return v, s1).
Proof.
  intros o d v s1. unfold ioctl.
  change (_MP_BLOCKDEV_IOCTL_BLOCK_COUNT =? _MP_BLOCKDEV_IOCTL_BLOCK_COUNT)
    with true. cbv iota.
  rewrite bind_run. unfold get_self at 1. cbn [fst].
  destruct (falsy (sector_count o)) eqn:Fo.
  - rewrite bind_run.
    destruct (_read_capacity (o, d)) as [[[]|e|] s] eqn:E; try discriminate.
    destruct (read_capacity_returns o d s E) as (w & resp & st & rest & L & Sc).
    destruct d as [sc tr]. cbn [script] in Sc. subst sc.
    rewrite (read_capacity_run o w resp st rest tr L) in E.
    set (n := be_decode (firstn 4 (fill (bytearray 8) resp)) + 1) in *.
    set (o1 := set_sector_count (Some n) _) in *.
    set (d1 := mkDevice rest _) in *.
    assert (S1 : sector_count o1 = Some n).
    { subst o1. set (o' := after_command o _ st). destruct o'. reflexivity. }
    assert (Es : s = (o1, d1)) by congruence.
    subst s. clear E.
    unfold bind at 1, get_self at 1, ret at 1. cbn [fst]. rewrite S1.
    intros H.
    assert (Hv : v = Some n) by congruence.
    assert (Hs : s1 = (o1, d1)) by congruence.
    subst v s1. clear H.
    assert (Hpos : 1 <= n)
      by (subst n; pose proof (be_decode_nonneg
                                 (firstn 4 (fill (bytearray 8) resp))); lia).
    assert (F : falsy (Some n) = false)
      by (cbn [falsy]; apply Z.eqb_neq; lia).
    cbn [fst snd].
    split; [exact F|]. split; [exact S1|]. split; [reflexivity|].
    split; [intros _; exists n; split; [reflexivity|exact Hpos]|].
    rewrite bind_run. unfold get_self at 1. cbn [fst].
    rewrite S1, F.
    unfold bind, ret, get_self. cbn [fst]. rewrite S1. reflexivity.
  - unfold bind, ret, get_self. cbn [fst]. intros H.
    assert (Hv : v = sector_count o) by congruence.
    assert (Hs : s1 = (o, d)) by congruence.
    subst v s1. clear H. cbn [fst snd].
    split; [exact Fo|]. split; [reflexivity|].
    split; [symmetry; apply app_nil_r|]. split; [discriminate|].
    rewrite Fo. reflexivity.
Qed.

(** A drive of a thousand sectors, asked twice. *)
Lemma ioctl_block_count_cached_witness :
  let d := mkDevice [ack; Data [x00; x00; x03; xe7; x00; x00; x02; x00];
                     Data (status_wrapper 0)] [] in
  let s1 := snd (ioctl _MP_BLOCKDEV_IOCTL_BLOCK_COUNT (sample_session 0, d)) in
  sector_count (fst s1) = Some 1000
  /\ trace (snd s1) = [] ++ read_capacity_events (sample_session 0)
  /\ ioctl _MP_BLOCKDEV_IOCTL_BLOCK_COUNT s1 = (Return (Some 1000), s1).
Proof.
  intros d s1.
  assert (E : ioctl _MP_BLOCKDEV_IOCTL_BLOCK_COUNT (sample_session 0, d)
              = (Return (Some 1000), s1)) by (vm_compute; reflexivity).
  destruct (ioctl_block_count_cached (sample_session 0) d (Some 1000) s1 E)
    as (_ & S & T & _ & Again).
  split; [exact S|]. split; [exact T|exact Again].
Defined.

(* ------------------------------------------------------------------ *)
(** * The status wrapper is read, and looked at by the readiness loop only *)

Lemma same_but_csw_after {A} (x : outcome A) (o : USBMassStorage)
      (c st st' : list byte) (d : usb_device) :
  same_but_csw (x, (after_command o c st, d))
               (x, (after_command o c st', d)).
Proof.
  unfold same_but_csw. cbn [fst snd]. destruct o. repeat split.
Qed.

Lemma same_then_ret {A B} (m : M A) (b : B) (s s' : state) :
  same_but_csw (m s) (m s') ->
  same_but_csw ((m ;;; ret b) s) ((m ;;; ret b) s').
Proof.
  unfold same_but_csw, bind, ret.
  destruct (m s) as [[x|e|] [o1 d1]];
    destruct (m s') as [[x'|e'|] [o2 d2]];
    cbn [fst snd]; intros (S1 & S2 & S3); try discriminate;
    (split; [|split]); try assumption; try reflexivity; congruence.
Qed.

(** One command, answered with one status wrapper or with another. *)
Lemma scsi_command_same (o : USBMassStorage) (direction : Z)
      (command data w r st st' : list byte) (rest : list reply)
      (tr : list request) :
  same_but_csw
    (_scsi_command direction command data
       (o, mkDevice (command_replies data w r st ++ rest) tr))
    (_scsi_command direction command data
       (o, mkDevice (command_replies data w r st' ++ rest) tr)).
Proof.
  destruct (build_cbw (cbw o) direction command data) as [e|c] eqn:B.
  - rewrite !(scsi_command_unpackable o _ direction command data e B).
    repeat split.
  - rewrite !(scsi_command_answered o direction command data c w r _ rest tr B).
    apply same_but_csw_after.
Qed.

Lemma blocks_same (opcode direction block_num : Z) (o : USBMassStorage)
      (buf w r st st' : list byte) (rest : list reply) (tr : list request) :
  let run s :=
    (self <- get_self ;;
     command <- lift (Struct.pack_into Struct.Big
                        [Struct.cB; Struct.cB; Struct.cI; Struct.cx; Struct.cH]
                        (bytearray 10) 0
                        [opcode; lun self; block_num; len buf / 512]) ;;
     _scsi_command direction command buf)
      (o, mkDevice (command_replies buf w r s ++ rest) tr) in
  same_but_csw (run st) (run st').
Proof.
  intros run. subst run. cbv beta.
  rewrite !bind_run. unfold get_self. cbn [fst].
  rewrite !bind_run.
  destruct (Struct.pack_into _ _ _ _ _) as [e|c].
  - repeat split.
  - unfold lift, ret. apply scsi_command_same.
Qed.

Lemma read_capacity_same (o : USBMassStorage) (w r st st' : list byte)
      (rest : list reply) (tr : list request) :
  same_but_csw
    (_read_capacity
       (o, mkDevice (command_replies (bytearray 8) w r st ++ rest) tr))
    (_read_capacity
       (o, mkDevice (command_replies (bytearray 8) w r st' ++ rest) tr)).
Proof.
  destruct (build_cbw (cbw o) _DIR_IN read_capacity_command (bytearray 8))
    as [e|c] eqn:B.
  - unfold _read_capacity. rewrite read_capacity_built.
    rewrite !bind_run. unfold lift at 1 3, ret at 1 2.
    rewrite !(bind_raise _ _ _ _ e
                (scsi_command_unpackable o _ _DIR_IN read_capacity_command
                   (bytearray 8) e B)).
    repeat split.
  - apply build_cbw_inv in B. destruct B as [L _].
    cbn [command_replies nonempty bytearray repeat app].
    rewrite !(read_capacity_run o w r _ rest tr L).
    unfold same_but_csw. cbn [fst snd trace]. destruct o. repeat split.
Qed.

(** C9. [readblocks], [writeblocks], [_inquire] and [_read_capacity] do
    not look at the status wrapper: for every object, every argument and
    every two status wrappers [st] and [st'], of any length and content, the
    two runs have the same outcome and make the same requests, and leave
    objects that differ in [self.csw] at most.  When the command can be
    packed and every transfer is answered, they return normally, with the
    wrapper in [self.csw].  The readiness loop does look at it: with a
    budget of zero tries, status 0 makes it return and status 1 makes it
    raise. *)
Theorem status_wrapper_not_inspected :
  forall (o : USBMassStorage) (block_num : Z) (buf w r st : list byte)
         (rest : list reply) (tr : list request),
    let count := len buf / 512 in
    let rd := rw10_command _SCSI_CMD_READ_10 (lun o) block_num count in
    let wr := rw10_command _SCSI_CMD_WRITE_10 (lun o) block_num count in
    let answered (data s : list byte) :=
      (o, mkDevice (command_replies data w r s ++ rest) tr) in
    (forall st' : list byte,
        same_but_csw (readblocks block_num buf (answered buf st))
                     (readblocks block_num buf (answered buf st'))
        /\ same_but_csw (writeblocks block_num buf (answered buf st))
                        (writeblocks block_num buf (answered buf st'))
        /\ same_but_csw (_inquire (answered (bytearray 36) st))
                        (_inquire (answered (bytearray 36) st'))
        /\ same_but_csw (_read_capacity (answered (bytearray 8) st))
                        (_read_capacity (answered (bytearray 8) st')))
    /\ (0 <= lun o < 256 ->
        0 <= block_num < 2 ^ 32 ->
        len buf / 512 < 2 ^ 16 ->
        (15 <= length (cbw o))%nat ->
        readblocks block_num buf (answered buf st)
        = (Return (if nonempty buf then fill buf r else buf),
           (after_command o (cbw_image (cbw o) _DIR_IN rd (len buf)) st,
            mkDevice rest
              (tr ++ exchange o _DIR_IN buf
                       (cbw_image (cbw o) _DIR_IN rd (len buf)))))
        /\ writeblocks block_num buf (answered buf st)
           = (Return buf,
              (after_command o (cbw_image (cbw o) _DIR_OUT wr (len buf)) st,
               mkDevice rest
                 (tr ++ exchange o _DIR_OUT buf
                          (cbw_image (cbw o) _DIR_OUT wr (len buf)))))
        /\ _inquire (answered (bytearray 36) st)
           = (Return tt,
              (after_command o
                 (cbw_image (cbw o) _DIR_IN inquiry_command 36) st,
               mkDevice rest
                 (tr ++ exchange o _DIR_IN (bytearray 36)
                          (cbw_image (cbw o) _DIR_IN inquiry_command 36))))
        /\ fst (_read_capacity (answered (bytearray 8) st)) = Return tt)
    /\ (0 <= lun o < 256 ->
        (15 <= length (cbw o))%nat ->
        length (csw o) = 13%nat ->
        fst (_wait_for_ready 0
               (o, mkDevice [ack; Data (status_wrapper 0)] tr)) = Return tt
        /\ fst (_wait_for_ready 0
                  (o, mkDevice [ack; Data (status_wrapper 1)] tr))
           = Raise OutOfTries).
Proof.
  intros o block_num buf w r st rest tr count rd wr answered.
  split; [|split].
  - intros st'. unfold answered.
    split; [apply (blocks_same _SCSI_CMD_READ_10 _DIR_IN)|].
    split; [apply (blocks_same _SCSI_CMD_WRITE_10 _DIR_OUT)|].
    split; [|apply read_capacity_same].
    unfold _inquire.
    change (let* c := setitem (bytearray 6) 0 _SCSI_CMD_INQUIRY in
            setitem c 4 (len (bytearray 36)))
      with (@inr exn _ inquiry_command).
    rewrite !bind_run. unfold lift at 1 2, ret at 1 3.
    apply same_then_ret, scsi_command_same.
  - intros Hl Hb Hc Lc.
    pose proof (len_bound_of_count buf Hc) as Hlen.
    assert (Brd : build_cbw (cbw o) _DIR_IN rd buf
                  = inr (cbw_image (cbw o) _DIR_IN rd (len buf))).
    { apply build_cbw_ok; try assumption; try lia.
      - unfold _DIR_IN. lia.
      - reflexivity. }
    assert (Bwr : build_cbw (cbw o) _DIR_OUT wr buf
                  = inr (cbw_image (cbw o) _DIR_OUT wr (len buf))).
    { apply build_cbw_ok; try assumption; try lia.
      - unfold _DIR_OUT. lia.
      - reflexivity. }
    unfold answered.
    split; [|split; [|split]].
    + rewrite readblocks_eq by assumption.
      fold count. fold rd.
      rewrite (scsi_command_answered o _DIR_IN rd buf _ w r st rest tr Brd).
      change (_DIR_IN =? _DIR_IN) with true. rewrite andb_true_r.
      reflexivity.
    + rewrite writeblocks_eq by assumption.
      fold count. fold wr.
      rewrite (scsi_command_answered o _DIR_OUT wr buf _ w r st rest tr Bwr).
      change (_DIR_OUT =? _DIR_IN) with false. rewrite andb_false_r.
      reflexivity.
    + apply inquire_run. exact Lc.
    + cbn [command_replies nonempty bytearray repeat app].
      rewrite (read_capacity_run o w r st rest tr Lc). reflexivity.
  - intros Hl Lc Ls. split.
    + change [ack; Data (status_wrapper 0)]
        with (flat_map round_replies [] ++ [ack; Data (status_wrapper 0)] ++ []).
      rewrite wait_for_ready_run;
        try assumption; try reflexivity; try (simpl; lia);
        try (left; reflexivity); try constructor.
    + change [ack; Data (status_wrapper 1)]
        with (flat_map round_replies [] ++ [ack; Data (status_wrapper 1)] ++ []).
      rewrite wait_for_ready_run;
        try assumption; try reflexivity; try (simpl; lia);
        try (right; reflexivity); try constructor.
Qed.

(** A read whose status wrapper reports failure returns all the same. *)
Lemma status_wrapper_not_inspected_witness :
  fst (readblocks 5 (bytearray 512)
         (sample_session 0,
          mkDevice [ack; Data (bytearray 512); Data (status_wrapper 1)] []))
  = Return (bytearray 512)
  /\ fst (writeblocks 5 (bytearray 512)
            (sample_session 0,
             mkDevice [ack; Data (bytearray 512); Data (status_wrapper 1)] []))
     = Return (bytearray 512)
  /\ fst (_wait_for_ready 0
            (sample_session 0, mkDevice [ack; Data (status_wrapper 1)] []))
     = Raise OutOfTries.
Proof.
  assert (Hl : 0 <= lun (sample_session 0) < 256) by (simpl; lia).
  assert (Hb : 0 <= 5 < 2 ^ 32) by lia.
  assert (Hc : len (bytearray 512) / 512 < 2 ^ 16) by (vm_compute; reflexivity).
  assert (Lc : (15 <= length (cbw (sample_session 0)))%nat) by (simpl; lia).
  assert (Ls : length (csw (sample_session 0)) = 13%nat) by reflexivity.
  destruct (status_wrapper_not_inspected (sample_session 0) 5
              (bytearray 512) [] (bytearray 512) (status_wrapper 1) [] [])
    as (_ & Answered & Loop).
  destruct (Answered Hl Hb Hc Lc) as (R & W & _).
  destruct (Loop Hl Lc Ls) as (_ & L).
  split; [exact (f_equal fst R)|]. split; [exact (f_equal fst W)|exact L].
Defined.

(* ------------------------------------------------------------------ *)
(** * The Get-Max-LUN reply *)

(** What [init_with_descriptor] does with the replies to
    [set_configuration] and to Get-Max-LUN. *)
Lemma init_cases (fuel : nat) (desc : list byte) (lun_arg : Z)
      (o0 : USBMassStorage) (sc : list reply) (tr : list request) :
  let start := (o0, mkDevice sc tr) in
  let scanned v :=
    set_out_ep (s_out_ep v)
      (set_in_ep (s_in_ep v)
         (set_block_size None
            (set_sector_count None (set_out_ep 0 (set_in_ep 0 o0))))) in
  match scan fuel desc with
  | Raise e =>
      init_with_descriptor fuel desc lun_arg start
      = (Raise e,
         (set_block_size None
            (set_sector_count None (set_out_ep 0 (set_in_ep 0 o0))),
          mkDevice sc tr))
  | Diverge =>
      init_with_descriptor fuel desc lun_arg start
      = (Diverge,
         (set_block_size None
            (set_sector_count None (set_out_ep 0 (set_in_ep 0 o0))),
          mkDevice sc tr))
  | Return v =>
      if (s_in_ep v =? 0) || (s_out_ep v =? 0) then
        init_with_descriptor fuel desc lun_arg start
        = (Raise NoMSCInterface, (scanned v, mkDevice sc tr))
      else
        match sc with
        | [] =>
            init_with_descriptor fuel desc lun_arg start
            = (Raise (USBError Timeout),
               (set_lun lun_arg (scanned v),
                mkDevice [] (tr ++ [SetConfiguration (config_value v)])))
        | Fail f :: rest =>
            init_with_descriptor fuel desc lun_arg start
            = (Raise (USBError f),
               (set_lun lun_arg (scanned v),
                mkDevice rest (tr ++ [SetConfiguration (config_value v)])))
        | [Data a] =>
            init_with_descriptor fuel desc lun_arg start
            = open_session
                (set_lun lun_arg (scanned v),
                 mkDevice []
                   (tr ++ [SetConfiguration (config_value v);
                           get_max_lun_request v]))
        | Data a :: r :: rest =>
            init_with_descriptor fuel desc lun_arg start
            = open_session
                (set_lun lun_arg (scanned v),
                 mkDevice rest
                   (tr ++ [SetConfiguration (config_value v);
                           get_max_lun_request v]))
        end
  end.
Proof.
  intros start scanned. subst start.
  destruct (scan fuel desc) as [v|e|] eqn:Hs.
  - destruct ((s_in_ep v =? 0) || (s_out_ep v =? 0)) eqn:Hc;
      [|destruct sc as [|[a|f] [|r rest]]];
      unfold init_with_descriptor;
      do 4 (rewrite bind_run; unfold modify_self at 1; cbn [fst snd]);
      rewrite bind_run; unfold lift_outcome at 1; rewrite Hs;
      do 2 (rewrite bind_run; unfold modify_self at 1; cbn [fst snd]);
      rewrite Hc; try reflexivity;
      rewrite bind_run; unfold modify_self at 1; cbn [fst snd];
      rewrite bind_run; unfold transfer at 1; cbn [script trace];
      try reflexivity; rewrite bind_run.
    + unfold get_max_lun_request.
      unfold get_max_lun, try_except_USBError, ctrl_transfer, bind, transfer.
      cbn [script trace]. rewrite <- app_assoc. reflexivity.
    + match goal with
      | |- context [get_max_lun ?w (?o, mkDevice (r :: rest) ?t)] =>
          destruct (max_lun_block (msc_interface v) o r rest t) as [n E]
      end.
      rewrite E. unfold get_max_lun_request. rewrite <- app_assoc.
      reflexivity.
  - unfold init_with_descriptor.
    do 4 (rewrite bind_run; unfold modify_self at 1; cbn [fst snd]).
    rewrite bind_run. unfold lift_outcome at 1. rewrite Hs. reflexivity.
  - unfold init_with_descriptor.
    do 4 (rewrite bind_run; unfold modify_self at 1; cbn [fst snd]).
    rewrite bind_run. unfold lift_outcome at 1. rewrite Hs. reflexivity.
Qed.

(** C10. The Get-Max-LUN reply does not matter: two constructions against
    devices that differ in that reply only, be it in the byte sent or in
    whether the transfer failed, end with the same outcome, the same object
    and the same requests made. *)
Theorem max_lun_reply_irrelevant :
  forall (fuel : nat) (lun_arg : Z) (r0 r1 x y : reply) (rest : list reply)
         (tr : list request),
    let run r :=
      __init__ fuel lun_arg (new_object, mkDevice (r0 :: r1 :: r :: rest) tr) in
    fst (run x) = fst (run y)
    /\ fst (snd (run x)) = fst (snd (run y))
    /\ trace (snd (snd (run x))) = trace (snd (snd (run y))).
Proof.
  intros fuel lun_arg r0 r1 x y rest tr run. subst run. cbv beta.
  unfold __init__. rewrite !bind_run. unfold transfer. cbn [script trace].
  destruct r0 as [desc|f]; [|repeat split].
  pose proof (init_cases fuel desc lun_arg new_object (r1 :: x :: rest)
                (tr ++ [GetConfigurationDescriptor 0])) as Hx.
  pose proof (init_cases fuel desc lun_arg new_object (r1 :: y :: rest)
                (tr ++ [GetConfigurationDescriptor 0])) as Hy.
  cbv zeta in Hx, Hy.
  destruct (scan fuel desc) as [v|e|].
  - destruct ((s_in_ep v =? 0) || (s_out_ep v =? 0)).
    + rewrite Hx, Hy. repeat split.
    + destruct r1 as [a|f]; rewrite Hx, Hy; repeat split.
  - rewrite Hx, Hy. repeat split.
  - rewrite Hx, Hy. repeat split.
Qed.

(* ------------------------------------------------------------------ *)
(** * Failed transfers *)

Section Surfaces.

Lemma consumed_nil (e : option exn) : consumed_ok [] e.
Proof. left. constructor. Qed.

Lemma surfaces_pure {A} (m : M A) :
  (forall s, snd (snd (m s)) = snd s) -> surfaces m.
Proof.
  intros H s r s' E. exists []. split; [|apply consumed_nil].
  specialize (H s). rewrite E in H. cbn [snd] in H. now rewrite H.
Qed.

Lemma surfaces_ret {A} (a : A) : surfaces (ret a).
Proof. apply surfaces_pure. reflexivity. Qed.

Lemma surfaces_raise {A} (e : exn) : surfaces (@raise A e).
Proof. apply surfaces_pure. reflexivity. Qed.

Lemma surfaces_lift {A} (r : exn + A) : surfaces (lift r).
Proof. destruct r; [apply surfaces_raise|apply surfaces_ret]. Qed.

Lemma surfaces_get_self : surfaces get_self.
Proof. apply surfaces_pure. reflexivity. Qed.

Lemma surfaces_modify_self (f : USBMassStorage -> USBMassStorage) :
  surfaces (modify_self f).
Proof. apply surfaces_pure. reflexivity. Qed.

Lemma surfaces_sleep : surfaces sleep.
Proof.
  intros [o d] r s' E. exists []. split; [|apply consumed_nil].
  unfold sleep in E. injection E as _ <-. reflexivity.
Qed.

Lemma surfaces_transfer (q : request) : surfaces (transfer q).
Proof.
  intros [o [sc tr]] r s' E. unfold transfer in E. cbn [script trace] in E.
  destruct sc as [|[bs|f] rest]; injection E as <- <-; cbn [snd script].
  - exists []. split; [reflexivity|apply consumed_nil].
  - exists [Data bs]. split; [reflexivity|].
    left. constructor; [exists bs; reflexivity|constructor].
  - exists [Fail f]. split; [reflexivity|].
    right. exists [], f. repeat split. constructor.
Qed.

Lemma surfaces_bind {A B} (m : M A) (k : A -> M B) :
  surfaces m -> (forall a, surfaces (k a)) -> surfaces (bind m k).
Proof.
  intros Hm Hk s r s' E. unfold bind in E.
  destruct (m s) as [[a|e|] s1] eqn:Em.
  - destruct (Hm s _ _ Em) as [u1 [S1 C1]].
    destruct (Hk a s1 _ _ E) as [u2 [S2 C2]].
    exists (u1 ++ u2). split.
    + rewrite S1, S2. apply app_assoc.
    + destruct C1 as [D1|(u & f & _ & _ & X)]; [|discriminate].
      destruct C2 as [D2|(u & f & -> & D2 & X)].
      * left. apply Forall_app. split; assumption.
      * right. exists (u1 ++ u), f. split; [apply app_assoc|].
        split; [apply Forall_app; split; assumption|exact X].
  - injection E as <- <-. destruct (Hm s _ _ Em) as [u1 [S1 C1]].
    exists u1. split; assumption.
  - injection E as <- <-. destruct (Hm s _ _ Em) as [u1 [S1 C1]].
    exists u1. split; assumption.
Qed.

Lemma surfaces_device_write (ep : Z) (data : list byte) :
  surfaces (device_write ep data).
Proof.
  apply surfaces_bind; [apply surfaces_transfer|intros; apply surfaces_ret].
Qed.

Lemma surfaces_device_read (ep : Z) (buf : list byte) :
  surfaces (device_read ep buf).
Proof.
  apply surfaces_bind; [apply surfaces_transfer|intros; apply surfaces_ret].
Qed.

Create HintDb surfaces.

#[local] Hint Resolve surfaces_ret surfaces_raise surfaces_lift
  surfaces_get_self surfaces_modify_self surfaces_sleep surfaces_transfer
  surfaces_device_write surfaces_device_read : surfaces.

(** Sequencing and branching preserve the property; the leaves are in the
    hint database. *)
Ltac surface :=
  repeat first
    [ solve [auto with surfaces]
    | match goal with
      | |- surfaces (if ?b then _ else _) => destruct b
      end
    | apply surfaces_bind; [|intros] ].

Lemma surfaces_scsi_command (direction : Z) (command data : list byte) :
  surfaces (_scsi_command direction command data).
Proof. unfold _scsi_command. surface. Qed.

#[local] Hint Resolve surfaces_scsi_command : surfaces.

Lemma surfaces_wait_loop (remaining : nat) (t sn sr : list byte) :
  surfaces (wait_loop remaining t sn sr).
Proof.
  revert sr. induction remaining as [|n IH]; intros sr; cbn [wait_loop];
    surface.
Qed.

#[local] Hint Resolve surfaces_wait_loop : surfaces.

Lemma surfaces_wait_for_ready (tries : Z) : surfaces (_wait_for_ready tries).
Proof. unfold _wait_for_ready, self_csw_setitem. surface. Qed.

Lemma surfaces_inquire : surfaces _inquire.
Proof. unfold _inquire. surface. Qed.

#[local] Hint Resolve surfaces_wait_for_ready surfaces_inquire : surfaces.

Lemma surfaces_open_session : surfaces open_session.
Proof. unfold open_session, self_cbw_setitem. surface. Qed.

(** A failure among the replies consumed is the last of them, and is what
    was raised. *)
Lemma consumed_failure (used : list reply) (e : option exn) (j : nat)
      (f : usb_failure) :
  consumed_ok used e -> nth_error used j = Some (Fail f) ->
  e = Some (USBError f) /\ S j = length used.
Proof.
  intros [D|(u & f' & -> & D & X)] Hj.
  - exfalso. apply nth_error_In in Hj.
    rewrite Forall_forall in D. destruct (D _ Hj) as [bs Hbs]. discriminate.
  - destruct (Nat.lt_ge_cases j (length u)) as [Lt|Ge].
    + exfalso. rewrite nth_error_app1 in Hj by exact Lt.
      apply nth_error_In in Hj.
      rewrite Forall_forall in D. destruct (D _ Hj) as [bs Hbs]. discriminate.
    + rewrite nth_error_app2 in Hj by exact Ge.
      destruct (j - length u)%nat as [|m] eqn:Ej.
      * cbn in Hj. injection Hj as <-. split; [exact X|].
        rewrite length_app. cbn [length]. lia.
      * cbn in Hj. destruct m; discriminate.
Qed.

Lemma surfaces_read_capacity : surfaces _read_capacity.
Proof. unfold _read_capacity. surface. Qed.

#[local] Hint Resolve surfaces_read_capacity : surfaces.

Lemma surfaces_readblocks (block_num : Z) (buf : list byte) :
  surfaces (readblocks block_num buf).
Proof. unfold readblocks. surface. Qed.

Lemma surfaces_writeblocks (block_num : Z) (buf : list byte) :
  surfaces (writeblocks block_num buf).
Proof. unfold writeblocks. surface. Qed.

Lemma surfaces_ioctl (operation : Z) : surfaces (ioctl operation).
Proof. unfold ioctl. surface. Qed.

(** What [surfaces] says of a run, in terms of the replies alone. *)
Lemma surfaces_failure_is_last {A} (m : M A) :
  surfaces m -> forall s, failure_is_last s (m s).
Proof.
  intros H s. destruct (m s) as [r s'] eqn:E.
  destruct (H s r s' E) as [used [U C]].
  exists used. split; [exact U|].
  intros i f Hi. destruct (consumed_failure used (raised r) i f C Hi) as [X L].
  split; [|exact L]. cbn [fst]. destruct r; cbn in X; congruence.
Qed.

End Surfaces.

(** The claim as first stated fails: a Get-Max-LUN transfer that times
    out, which is a failure other than a stall, is caught like a stall, and
    the construction goes on to return normally. *)
Lemma get_max_lun_timeout_counterexample :
  fst (__init__ 10 0
         (new_object,
          mkDevice (init_replies sample_descriptor [] (Fail Timeout)
                      (bytearray 36) (status_wrapper 0)
                      ++ [ack; Data (status_wrapper 0)]) []))
  = Return tt.
Proof. vm_compute. reflexivity. Qed.

(** C8 (amended).  Whatever failure the Get-Max-LUN transfer reports, a
    stall, a timeout or another [USBError], it is caught and the max LUN is
    taken to be 0: a construction whose other transfers are answered by a
    ready device returns normally, having gone on to the inquiry and the
    Test-Unit-Ready.  Every other
    failed transfer of a construction (the replies are consumed in the
    order descriptor, [set_configuration], Get-Max-LUN, bulk transfers, so
    the Get-Max-LUN reply is the one at index 2) is the last transfer made,
    and the construction raises its error. *)
Theorem transfer_failures :
  (forall (f : usb_failure) (wIndex : option Z) (o : USBMassStorage)
          (rest : list reply) (tr : list request),
      get_max_lun wIndex (o, mkDevice (Fail f :: rest) tr)
      = (Return 0,
         (o, mkDevice rest (tr ++ [CtrlTransfer 0xA1 254 0 wIndex 1]))))
  /\
  (forall (f : usb_failure) (fuel : nat) (lun_arg : Z)
          (desc a inq icsw final : list byte) (v : scan_vars)
          (rest : list reply) (tr : list request),
      scan fuel desc = Return v ->
      s_in_ep v <> 0 -> s_out_ep v <> 0 ->
      0 <= lun_arg < 256 ->
      csw_ready final ->
      let so := session_object v lun_arg in
      __init__ fuel lun_arg
        (new_object,
         mkDevice (init_replies desc a (Fail f) inq icsw
                     ++ [ack; Data final] ++ rest) tr)
      = (Return tt,
         (with_buffers so (tur_cbw (cbw so) lun_arg) final,
          mkDevice rest (tr ++ init_events v lun_arg ++ tur_events so))))
  /\
  (forall (fuel : nat) (lun_arg : Z) (sc : list reply) (tr : list request)
          (r : outcome unit) (s' : state),
      __init__ fuel lun_arg (new_object, mkDevice sc tr) = (r, s') ->
      exists used,
        sc = used ++ script (snd s')
        /\ forall (i : nat) (f : usb_failure),
            nth_error used i = Some (Fail f) -> i <> 2%nat ->
            r = Raise (USBError f) /\ S i = length used).
Proof.
  split; [intros; apply max_lun_value|].
  split.
  - intros f fuel lun_arg desc a inq icsw final v rest tr Hs Hi Ho Hl
           [Lf Hz] so.
    pose proof (init_run fuel lun_arg desc a inq icsw final (Fail f) v []
                  rest tr Hs Hi Ho Hl (Forall_nil _) Lf (Nat.le_0_l _)
                  (or_introl Hz)) as R.
    cbv zeta in R. cbn [flat_map app length repeat concat] in R.
    cbn [app]. rewrite R. fold so.
    apply final_check_ready.
    destruct (with_buffers_fields so (tur_cbw (cbw so) lun_arg) final)
      as (_ & _ & _ & _ & _ & _ & ->). exact Hz.
  - intros fuel lun_arg sc tr r s'. unfold __init__. rewrite bind_run.
    unfold transfer at 1. cbn [script trace].
    destruct sc as [|[desc|f0] sc].
    + intros E. injection E as <- <-. exists []. split; [reflexivity|].
      intros i f Hi. destruct i; discriminate.
    + pose proof (init_cases fuel desc lun_arg new_object sc
                    (tr ++ [GetConfigurationDescriptor 0])) as C.
      cbv zeta in C.
      destruct (scan fuel desc) as [v|e|].
      * destruct ((s_in_ep v =? 0) || (s_out_ep v =? 0)).
        { rewrite C. intros E. injection E as <- <-.
          exists [Data desc]. split; [reflexivity|].
          intros [|[|i]] f Hi; discriminate. }
        destruct sc as [|[a|f1] [|r2 rest]]; rewrite C; intros E.
        -- injection E as <- <-. exists [Data desc]. split; [reflexivity|].
           intros [|[|i]] f Hi; discriminate.
        -- destruct (surfaces_open_session _ _ _ E) as [u [S C']].
           cbn [snd script] in S.
           symmetry in S. apply app_eq_nil in S. destruct S as [-> S].
           exists [Data desc; Data a]. rewrite S. split; [reflexivity|].
           intros [|[|[|i]]] f Hi; discriminate.
        -- destruct (surfaces_open_session _ _ _ E) as [u [S C']].
           cbn [snd script] in S.
           exists (Data desc :: Data a :: r2 :: u). split.
           ++ cbn [app]. now rewrite S.
           ++ intros [|[|[|i]]] f Hi Hne; try discriminate; [lia|].
              cbn [nth_error] in Hi.
              destruct (consumed_failure u _ i f C' Hi) as [X Y].
              split; [|cbn [length]; lia].
              destruct r; try discriminate. cbn [raised] in X. congruence.
        -- injection E as <- <-. exists [Data desc; Fail f1].
           split; [reflexivity|].
           intros [|[|[|i]]] f Hi Hne; try discriminate.
           cbn [nth_error] in Hi. injection Hi as <-. split; reflexivity.
        -- injection E as <- <-. exists [Data desc; Fail f1].
           split; [reflexivity|].
           intros [|[|[|i]]] f Hi Hne; try discriminate.
           cbn [nth_error] in Hi. injection Hi as <-. split; reflexivity.
      * rewrite C. intros E. injection E as <- <-.
        exists [Data desc]. split; [reflexivity|].
        intros [|[|i]] f Hi; discriminate.
      * rewrite C. intros E. injection E as <- <-.
        exists [Data desc]. split; [reflexivity|].
        intros [|[|i]] f Hi; discriminate.
    + intros E. injection E as <- <-. exists [Fail f0].
      split; [reflexivity|].
      intros [|i] f Hi Hne.
      * cbn in Hi. injection Hi as <-. split; reflexivity.
      * destruct i; discriminate.
Qed.

(** A thumb drive that answers Get-Max-LUN with a failure that is no
    stall, and everything else properly; and one that fails
    [set_configuration]. *)
Lemma transfer_failures_witness :
  (let so := session_object sample_vars 0 in
   __init__ 10 0
     (new_object,
      mkDevice (init_replies sample_descriptor [] (Fail OtherFailure)
                  (bytearray 36) (status_wrapper 0)
                  ++ [ack; Data (status_wrapper 0)] ++ []) [])
   = (Return tt,
      (with_buffers so (tur_cbw (cbw so) 0) (status_wrapper 0),
       mkDevice [] ([] ++ init_events sample_vars 0 ++ tur_events so))))
  /\
  (let result :=
     __init__ 10 0
       (new_object, mkDevice [Data sample_descriptor; Fail Stall; ack] []) in
   exists used,
     [Data sample_descriptor; Fail Stall; ack]
     = used ++ script (snd (snd result))
     /\ forall (i : nat) (f : usb_failure),
         nth_error used i = Some (Fail f) -> i <> 2%nat ->
         fst result = Raise (USBError f) /\ S i = length used).
Proof.
  split.
  - apply (proj1 (proj2 transfer_failures) OtherFailure 10%nat 0
             sample_descriptor []
             (bytearray 36) (status_wrapper 0) (status_wrapper 0) sample_vars
             [] []).
    + vm_compute. reflexivity.
    + simpl. lia.
    + simpl. lia.
    + lia.
    + split; reflexivity.
  - intros result.
    apply (proj2 (proj2 transfer_failures) 10%nat 0
             [Data sample_descriptor; Fail Stall; ack] []
             (fst result) (snd result)).
    subst result. apply surjective_pairing.
Defined.

(* ------------------------------------------------------------------ *)
(** * The descriptor scan on well-formed descriptors *)

Section ScanRecords.

Import Descriptor.

Lemma getitem_in_record (pre r post : list byte) (k : nat) :
  (k < length r)%nat ->
  getitem (pre ++ r ++ post) (length pre + k) = inr (field r k).
Proof.
  intros H. unfold getitem, field.
  rewrite nth_error_app2 by lia.
  replace (length pre + k - length pre)%nat with k by lia.
  rewrite nth_error_app1 by exact H.
  rewrite (nth_error_nth' r x00 H). reflexivity.
Qed.

Lemma min_length_ge_2 (ty : Z) : (2 <= min_length ty)%nat.
Proof.
  unfold min_length.
  destruct (ty =? DESC_CONFIGURATION); [lia|].
  destruct (ty =? DESC_INTERFACE); [lia|].
  destruct (ty =? DESC_ENDPOINT); lia.
Qed.

Lemma well_formed_inv (r : record) :
  well_formed r = true ->
  field r 0 = Z.of_nat (length r)
  /\ (min_length (rtype r) <= length r)%nat
  /\ (2 <= length r)%nat.
Proof.
  unfold well_formed. intros H. apply andb_true_iff in H.
  destruct H as [H1 H2]. apply Z.eqb_eq in H1. apply Nat.leb_le in H2.
  pose proof (min_length_ge_2 (rtype r)). repeat split; try assumption; lia.
Qed.

(** On a well-formed record the loop body reads inside the record, does
    what [apply_record] does, and moves to the next record. *)
Lemma scan_record_wf (pre r post : list byte) (v : scan_vars) :
  well_formed r = true ->
  scan_record (pre ++ r ++ post) (length pre) v
  = inr ((length pre + length r)%nat, apply_record v r).
Proof.
  intros W. destruct (well_formed_inv r W) as (H0 & Hm & H2).
  unfold scan_record.
  replace (getitem (pre ++ r ++ post) (length pre))
    with (@inr exn Z (field r 0))
    by (rewrite <- (getitem_in_record pre r post 0) by lia;
        now rewrite Nat.add_0_r).
  rewrite (getitem_in_record pre r post 1) by lia.
  cbn [ebind]. fold (rtype r).
  unfold apply_record, is_configuration, is_interface, is_endpoint.
  unfold min_length in Hm.
  rewrite H0, Nat2Z.id.
  destruct (rtype r =? DESC_CONFIGURATION).
  { rewrite (getitem_in_record pre r post 5) by lia. reflexivity. }
  destruct (rtype r =? DESC_INTERFACE).
  { rewrite (getitem_in_record pre r post 2) by lia.
    rewrite (getitem_in_record pre r post 5) by lia.
    rewrite (getitem_in_record pre r post 6) by lia. reflexivity. }
  destruct (rtype r =? DESC_ENDPOINT).
  - destruct (in_msc_interface v); [|reflexivity].
    cbn [andb]. rewrite (getitem_in_record pre r post 2) by lia.
    cbn [ebind]. unfold is_in. destruct (negb _); reflexivity.
  - reflexivity.
Qed.

(** On a well-formed descriptor the scan ends, after one turn per record,
    with what [apply_records] computes. *)
Lemma scan_loop_records (rs : list record) :
  forall (pre : list byte) (v : scan_vars) (fuel : nat),
    Forall (fun r => well_formed r = true) rs ->
    (length rs < fuel)%nat ->
    scan_loop fuel (pre ++ concat rs) (length pre) v
    = Return (apply_records rs v).
Proof.
  induction rs as [|r rs IH]; intros pre v fuel W F.
  - destruct fuel as [|fuel]; [lia|].
    cbn [concat scan_loop apply_records fold_left].
    rewrite app_nil_r, Nat.ltb_irrefl. reflexivity.
  - destruct fuel as [|fuel]; [simpl in F; lia|].
    inversion W as [|r' rs' Wr Wrs]; subst.
    destruct (well_formed_inv r Wr) as (_ & _ & H2).
    cbn [concat scan_loop].
    replace (length pre <? length (pre ++ r ++ concat rs))%nat with true
      by (symmetry; apply Nat.ltb_lt; rewrite !length_app; lia).
    rewrite scan_record_wf by exact Wr.
    rewrite app_assoc, <- length_app.
    rewrite IH; [reflexivity|exact Wrs|simpl in F; lia].
Qed.

Lemma scan_records (rs : list record) (fuel : nat) :
  Forall (fun r => well_formed r = true) rs ->
  (length rs < fuel)%nat ->
  scan fuel (concat rs) = Return (apply_records rs scan_start).
Proof.
  intros W F. unfold scan.
  apply (scan_loop_records rs [] scan_start fuel W F).
Qed.

End ScanRecords.

Section RecordFacts.

Import Descriptor.

Lemma apply_records_app (a b : list record) (v : scan_vars) :
  apply_records (a ++ b) v = apply_records b (apply_records a v).
Proof. apply fold_left_app. Qed.

Lemma configuration_not_other (r : record) :
  is_configuration r = true -> is_interface r = false /\ is_endpoint r = false.
Proof.
  unfold is_configuration, is_interface, is_endpoint.
  intros H. apply Z.eqb_eq in H. rewrite H. split; reflexivity.
Qed.

Lemma interface_not_other (r : record) :
  is_interface r = true -> is_configuration r = false /\ is_endpoint r = false.
Proof.
  unfold is_configuration, is_interface, is_endpoint.
  intros H. apply Z.eqb_eq in H. rewrite H. split; reflexivity.
Qed.

Lemma endpoint_not_other (r : record) :
  is_endpoint r = true -> is_configuration r = false /\ is_interface r = false.
Proof.
  unfold is_configuration, is_interface, is_endpoint.
  intros H. apply Z.eqb_eq in H. rewrite H. split; reflexivity.
Qed.

(** A value set by the records that satisfy [p]: the one set by the only
    such record. *)
Lemma fold_no_match {A} (p : A -> bool) (g : A -> Z) (rs : list A) (d : Z) :
  filter p rs = [] ->
  fold_left (fun a r => if p r then g r else a) rs d = d.
Proof.
  revert d. induction rs as [|r rs IH]; intros d H; [reflexivity|].
  cbn [filter] in H. cbn [fold_left].
  destruct (p r); [discriminate|]. apply IH. exact H.
Qed.

Lemma fold_single_match {A} (p : A -> bool) (g : A -> Z) (rs : list A)
      (c : A) (d : Z) :
  filter p rs = [c] ->
  fold_left (fun a r => if p r then g r else a) rs d = g c.
Proof.
  revert d. induction rs as [|r rs IH]; intros d H; [discriminate|].
  cbn [filter] in H. cbn [fold_left].
  destruct (p r).
  - injection H as -> H. apply fold_no_match. exact H.
  - apply IH. exact H.
Qed.

(** The configuration value is the selector of the last configuration
    record. *)
Lemma config_value_records (rs : list record) (v : scan_vars) :
  config_value (apply_records rs v)
  = fold_left (fun a r => if is_configuration r then field r 5 else a)
      rs (config_value v).
Proof.
  revert v. induction rs as [|r rs IH]; intros v; [reflexivity|].
  unfold apply_records in *. cbn [fold_left]. rewrite IH. f_equal.
  unfold apply_record.
  destruct (is_configuration r); [reflexivity|].
  destruct (is_interface r); [reflexivity|].
  destruct (is_endpoint r && in_msc_interface v); [|reflexivity].
  destruct (is_in r); reflexivity.
Qed.

(** Outside a Mass-Storage interface, and as long as none begins, the
    endpoints and the interface number stay as they are. *)
Lemma outside_msc (rs : list record) :
  forall v : scan_vars,
    Forall (fun r => is_msc r = false) rs ->
    in_msc_interface v = false ->
    let v' := apply_records rs v in
    s_in_ep v' = s_in_ep v /\ s_out_ep v' = s_out_ep v
    /\ msc_interface v' = msc_interface v
    /\ in_msc_interface v' = false.
Proof.
  induction rs as [|r rs IH]; intros v N F; [repeat split; exact F|].
  inversion N as [|r' rs' Nr Nrs]; subst.
  cbv zeta. unfold apply_records. cbn [fold_left].
  fold (apply_records rs (apply_record v r)).
  assert (S : s_in_ep (apply_record v r) = s_in_ep v
              /\ s_out_ep (apply_record v r) = s_out_ep v
              /\ msc_interface (apply_record v r) = msc_interface v
              /\ in_msc_interface (apply_record v r) = false).
  { unfold apply_record. unfold is_msc in Nr.
    destruct (is_configuration r); [repeat split; exact F|].
    destruct (is_interface r).
    - cbn [andb] in Nr. rewrite Nr. repeat split.
    - rewrite F, andb_false_r. repeat split; exact F. }
  destruct S as (S1 & S2 & S3 & S4).
  destruct (IH (apply_record v r) Nrs S4) as (I1 & I2 & I3 & I4).
  cbv zeta in I1, I2, I3, I4.
  rewrite I1, I2, I3, I4. repeat split; assumption.
Qed.

(** Inside a Mass-Storage interface, up to the next interface record, the
    endpoint records set the two addresses. *)
Lemma inside_msc (rs : list record) :
  forall v : scan_vars,
    Forall (fun r => is_interface r = false) rs ->
    in_msc_interface v = true ->
    let v' := apply_records rs v in
    s_in_ep v'
    = fold_left (fun a r => if in_endpoint r then field r 2 else a)
        rs (s_in_ep v)
    /\ s_out_ep v'
       = fold_left (fun a r => if out_endpoint r then field r 2 else a)
           rs (s_out_ep v)
    /\ msc_interface v' = msc_interface v
    /\ in_msc_interface v' = true.
Proof.
  induction rs as [|r rs IH]; intros v N T; [repeat split; exact T|].
  inversion N as [|r' rs' Nr Nrs]; subst.
  cbv zeta. unfold apply_records. cbn [fold_left].
  fold (apply_records rs (apply_record v r)).
  assert (S : s_in_ep (apply_record v r)
              = (if in_endpoint r then field r 2 else s_in_ep v)
              /\ s_out_ep (apply_record v r)
                 = (if out_endpoint r then field r 2 else s_out_ep v)
              /\ msc_interface (apply_record v r) = msc_interface v
              /\ in_msc_interface (apply_record v r) = true).
  { unfold apply_record, in_endpoint, out_endpoint. rewrite Nr, T.
    destruct (is_configuration r) eqn:C.
    - destruct (configuration_not_other r C) as [_ ->].
      repeat split; exact T.
    - rewrite andb_true_r.
      destruct (is_endpoint r); [|repeat split; exact T].
      destruct (is_in r); repeat split; exact T. }
  destruct S as (S1 & S2 & S3 & S4).
  destruct (IH (apply_record v r) Nrs S4) as (I1 & I2 & I3 & I4).
  cbv zeta in I1, I2, I3, I4.
  rewrite I1, I2, I3, I4, S1, S2, S3. repeat split.
Qed.

(** After the interface: either nothing follows, or an interface record
    that is not Mass-Storage closes it. *)
Lemma after_msc (post : list record) (v : scan_vars) :
  Forall (fun r => is_msc r = false) post ->
  post = [] \/ (exists p post', post = p :: post' /\ is_interface p = true) ->
  let v' := apply_records post v in
  s_in_ep v' = s_in_ep v /\ s_out_ep v' = s_out_ep v
  /\ msc_interface v' = msc_interface v.
Proof.
  intros N [->|(p & post' & -> & I)]; [repeat split|].
  inversion N as [|r' rs' Np Npost]; subst.
  cbv zeta. unfold apply_records. cbn [fold_left].
  fold (apply_records post' (apply_record v p)).
  assert (S : s_in_ep (apply_record v p) = s_in_ep v
              /\ s_out_ep (apply_record v p) = s_out_ep v
              /\ msc_interface (apply_record v p) = msc_interface v
              /\ in_msc_interface (apply_record v p) = false).
  { unfold apply_record. unfold is_msc in Np. rewrite I in *.
    destruct (interface_not_other p I) as [-> _].
    cbn [andb] in Np. rewrite Np. repeat split. }
  destruct S as (S1 & S2 & S3 & S4).
  destruct (outside_msc post' (apply_record v p) Npost S4)
    as (I1 & I2 & I3 & _).
  cbv zeta in I1, I2, I3. rewrite I1, I2, I3. repeat split; assumption.
Qed.

End RecordFacts.

Section Honoured.

Import Descriptor.

Lemma honoured_more (rs : list record) (e r : record) :
  honoured rs e -> honoured (rs ++ [r]) e.
Proof.
  intros (a & m & b & c & -> & Hm & Hb & He).
  exists a, m, b, (c ++ [r]). repeat split; try assumption.
  rewrite <- !app_assoc. cbn [app]. rewrite <- app_assoc. reflexivity.
Qed.

(** Where the endpoints the scan holds come from: an address other than 0
    was read from an endpoint record of a Mass-Storage interface. *)
Lemma endpoints_are_honoured (rs : list record) :
  let v := apply_records rs scan_start in
  (s_in_ep v <> 0 -> exists e, honoured rs e /\ is_in e = true)
  /\ (s_out_ep v <> 0 -> exists e, honoured rs e /\ is_in e = false)
  /\ (in_msc_interface v = true ->
      exists a m b,
        rs = a ++ m :: b /\ is_msc m = true
        /\ Forall (fun r => is_interface r = false) b).
Proof.
  induction rs as [|r rs IH] using rev_ind.
  - cbn. repeat split; intros H; try (exfalso; apply H; reflexivity).
    discriminate.
  - cbv zeta in *. rewrite apply_records_app.
    set (v := apply_records rs scan_start) in *.
    destruct IH as (Iin & Iout & Imsc).
    unfold apply_records. cbn [fold_left].
    assert (Keep_in : s_in_ep v <> 0 ->
                      exists e, honoured (rs ++ [r]) e /\ is_in e = true).
    { intros H. destruct (Iin H) as [e [He Hi]].
      exists e. split; [apply honoured_more; exact He|exact Hi]. }
    assert (Keep_out : s_out_ep v <> 0 ->
                       exists e, honoured (rs ++ [r]) e /\ is_in e = false).
    { intros H. destruct (Iout H) as [e [He Hi]].
      exists e. split; [apply honoured_more; exact He|exact Hi]. }
    assert (Keep_msc : is_interface r = false ->
                       in_msc_interface v = true ->
                       exists a m b,
                         rs ++ [r] = a ++ m :: b /\ is_msc m = true
                         /\ Forall (fun r => is_interface r = false) b).
    { intros Hr H. destruct (Imsc H) as (a & m & b & -> & Hm & Hb).
      exists a, m, (b ++ [r]). split; [|split; [exact Hm|]].
      - rewrite <- app_assoc. reflexivity.
      - apply Forall_app. split; [exact Hb|]. constructor; [exact Hr|constructor]. }
    unfold apply_record.
    destruct (is_configuration r) eqn:C.
    { destruct (configuration_not_other r C) as [NI _].
      cbn [s_in_ep s_out_ep in_msc_interface].
      split; [exact Keep_in|]. split; [exact Keep_out|]. apply Keep_msc, NI. }
    destruct (is_interface r) eqn:I.
    { cbn [s_in_ep s_out_ep in_msc_interface].
      split; [exact Keep_in|]. split; [exact Keep_out|].
      intros H. exists rs, r, []. split; [reflexivity|].
      split; [|constructor].
      unfold is_msc. rewrite I. cbn [andb]. exact H. }
    destruct (is_endpoint r) eqn:E; cbn [andb].
    + destruct (in_msc_interface v) eqn:T.
      * assert (Hr : honoured (rs ++ [r]) r).
        { destruct (Imsc eq_refl) as (a & m & b & -> & Hm & Hb).
          exists a, m, b, []. repeat split; try assumption.
          rewrite <- app_assoc. reflexivity. }
        destruct (is_in r) eqn:D; cbn [s_in_ep s_out_ep in_msc_interface].
        -- split; [intros _; exists r; split; assumption|].
           split; [exact Keep_out|]. intros _.
           apply Keep_msc; reflexivity.
        -- split; [exact Keep_in|].
           split; [intros _; exists r; split; assumption|].
           intros _. apply Keep_msc; reflexivity.
      * cbv iota. split; [exact Keep_in|]. split; [exact Keep_out|].
        rewrite T. discriminate.
    + split; [exact Keep_in|]. split; [exact Keep_out|].
      intros H. apply Keep_msc; [reflexivity|exact H].
Qed.

End Honoured.

Section ScanContract.

Import Descriptor.

(** What the scan holds after a descriptor with one Mass-Storage interface
    that has one endpoint of each direction. *)
Lemma scan_extracts (pre body post : list record) (iface c e_in e_out : record) :
  let rs := pre ++ iface :: body ++ post in
  let v := apply_records rs scan_start in
  Forall (fun r => is_msc r = false) pre ->
  is_msc iface = true ->
  Forall (fun r => is_interface r = false) body ->
  Forall (fun r => is_msc r = false) post ->
  post = [] \/ (exists p post', post = p :: post' /\ is_interface p = true) ->
  filter in_endpoint body = [e_in] ->
  filter out_endpoint body = [e_out] ->
  filter is_configuration rs = [c] ->
  s_in_ep v = field e_in 2 /\ s_out_ep v = field e_out 2
  /\ msc_interface v = Some (field iface 2)
  /\ config_value v = field c 5.
Proof.
  intros rs v Npre Hm Nbody Npost Hpost Hin Hout Hc.
  assert (Cv : config_value v = field c 5).
  { subst v. rewrite config_value_records.
    apply (fold_single_match is_configuration (fun r => field r 5)).
    exact Hc. }
  subst v rs.
  rewrite apply_records_app.
  change (iface :: body ++ post) with ([iface] ++ body ++ post) in *.
  rewrite !apply_records_app.
  destruct (outside_msc pre scan_start Npre eq_refl) as (A1 & A2 & A3 & A4).
  cbv zeta in A1, A2, A3, A4.
  set (v1 := apply_records pre scan_start) in *.
  assert (B : s_in_ep (apply_records [iface] v1) = 0
              /\ s_out_ep (apply_records [iface] v1) = 0
              /\ msc_interface (apply_records [iface] v1)
                 = Some (field iface 2)
              /\ in_msc_interface (apply_records [iface] v1) = true).
  { unfold apply_records. cbn [fold_left]. unfold apply_record.
    unfold is_msc in Hm.
    apply andb_true_iff in Hm. destruct Hm as [Hm H6].
    apply andb_true_iff in Hm. destruct Hm as [Hi H5].
    destruct (interface_not_other iface Hi) as [-> _].
    rewrite Hi, H5, H6. cbn [andb].
    repeat split; assumption. }
  destruct B as (B1 & B2 & B3 & B4).
  set (v2 := apply_records [iface] v1) in *.
  destruct (inside_msc body v2 Nbody B4) as (C1 & C2 & C3 & C4).
  cbv zeta in C1, C2, C3, C4.
  rewrite (fold_single_match in_endpoint (fun r => field r 2) body e_in _ Hin)
    in C1.
  rewrite (fold_single_match out_endpoint (fun r => field r 2) body e_out _ Hout)
    in C2.
  set (v3 := apply_records body v2) in *.
  destruct (after_msc post v3 Npost Hpost) as (D1 & D2 & D3).
  cbv zeta in D1, D2, D3.
  rewrite D1, D2, D3, C1, C2, C3, B3.
  repeat split. rewrite <- Cv. subst v3 v2 v1.
  now rewrite !apply_records_app.
Qed.

Lemma in_address_nonzero (e : record) : is_in e = true -> field e 2 <> 0.
Proof.
  unfold is_in. intros H E. rewrite E in H. discriminate.
Qed.

Lemma filter_single_holds {A} (p : A -> bool) (l : list A) (x : A) :
  filter p l = [x] -> p x = true.
Proof.
  intros H. assert (I : In x (filter p l)) by (rewrite H; left; reflexivity).
  apply filter_In in I. apply I.
Qed.

End ScanContract.

(* ------------------------------------------------------------------ *)
(** * The descriptor scanner *)

Section Scanner.

Import Descriptor.

Lemma zero_length_loops (fuel : nat) (v : scan_vars) :
  scan_loop fuel zero_length_descriptor 9 v = Diverge.
Proof.
  induction fuel as [|fuel IH]; [reflexivity|].
  cbn [scan_loop].
  change (9 <? length zero_length_descriptor)%nat with true. cbv iota.
  replace (scan_record zero_length_descriptor 9 v) with (@inr exn _ (9%nat, v))
    by (destruct v; reflexivity).
  exact IH.
Qed.

Lemma zero_length_diverges (fuel : nat) :
  scan fuel zero_length_descriptor = Diverge.
Proof.
  destruct fuel as [|fuel]; [reflexivity|].
  unfold scan. cbn [scan_loop].
  change (0 <? length zero_length_descriptor)%nat with true. cbv iota.
  change (scan_record zero_length_descriptor 0 scan_start)
    with (@inr exn _ (9%nat, mkScan 0 0 true (Some 0) 0)).
  apply zero_length_loops.
Qed.

(** The claim as first stated, for every raw byte sequence, fails.  After
    a Mass-Storage interface record without endpoints, a trailing byte
    makes the construction raise [IndexError], and a record of length zero
    makes it loop for ever, where the claim has it fail with "No MSC
    interface found"; and a Mass-Storage interface with an IN endpoint 0x81
    and an OUT endpoint of address 0 is refused, where the claim has the
    addresses extracted. *)
Lemma raw_descriptor_counterexample :
  fst (__init__ 100 0 (new_object, mkDevice [Data truncated_descriptor] []))
  = Raise IndexError
  /\ (forall fuel : nat,
        fst (__init__ fuel 0
               (new_object, mkDevice [Data zero_length_descriptor] []))
        = Diverge)
  /\ fst (__init__ 100 0
            (new_object,
             mkDevice (init_replies endpoint_zero_descriptor [] (Data [x00])
                         (bytearray 36) (status_wrapper 0)
                         ++ [ack; Data (status_wrapper 0)]) []))
     = Raise NoMSCInterface.
Proof.
  split; [vm_compute; reflexivity|]. split; [|vm_compute; reflexivity].
  intros fuel. unfold __init__. rewrite bind_run.
  unfold transfer at 1. cbn [script trace].
  pose proof (init_cases fuel zero_length_descriptor 0 new_object []
                ([] ++ [GetConfigurationDescriptor 0])) as C.
  cbv zeta in C. rewrite zero_length_diverges in C. rewrite C. reflexivity.
Qed.

(** C2 (amended).  For a well-formed descriptor, a concatenation of
    records each of which starts with its own length and holds the fields
    the scan reads from it: if exactly one interface record has class 8 and
    subclass 6, and between it and the next interface record there are one
    endpoint record with the high address bit set and one with it clear and
    an address other than 0, and there is one configuration record, the
    construction selects that configuration's value, addresses Get-Max-LUN
    to that interface number and keeps those two endpoint addresses; if no
    endpoint record of a class-8/subclass-6 interface has the high bit set,
    or none has it clear, the construction raises "No MSC interface found"
    having requested nothing but the descriptor.  With enough fuel, one
    turn per record and one more, the scan terminates. *)
Theorem scanner_contract :
  forall (rs : list record) (fuel : nat) (lun_arg : Z),
    Forall (fun r => well_formed r = true) rs ->
    (length rs < fuel)%nat ->
    (forall (pre body post : list record) (iface c e_in e_out : record)
            (a : list byte) (r : reply) (rest : list reply)
            (tr : list request),
        rs = pre ++ iface :: body ++ post ->
        Forall (fun r => is_msc r = false) pre ->
        is_msc iface = true ->
        Forall (fun r => is_interface r = false) body ->
        Forall (fun r => is_msc r = false) post ->
        post = []
        \/ (exists p post', post = p :: post' /\ is_interface p = true) ->
        filter in_endpoint body = [e_in] ->
        filter out_endpoint body = [e_out] ->
        field e_out 2 <> 0 ->
        filter is_configuration rs = [c] ->
        (exists v,
            scan fuel (concat rs) = Return v
            /\ config_value v = field c 5
            /\ msc_interface v = Some (field iface 2)
            /\ s_in_ep v = field e_in 2
            /\ s_out_ep v = field e_out 2)
        /\ __init__ fuel lun_arg
             (new_object, mkDevice (Data (concat rs) :: Data a :: r :: rest) tr)
           = open_session
               (mkObj (field e_in 2) (field e_out 2) None None lun_arg [] [],
                mkDevice rest
                  (tr ++ [GetConfigurationDescriptor 0;
                          SetConfiguration (field c 5);
                          CtrlTransfer 0xA1 254 0 (Some (field iface 2)) 1])))
    /\
    ((forall e, honoured rs e -> is_in e = false)
     \/ (forall e, honoured rs e -> is_in e = true) ->
     forall (rest : list reply) (tr : list request),
     exists o',
       __init__ fuel lun_arg (new_object, mkDevice (Data (concat rs) :: rest) tr)
       = (Raise NoMSCInterface,
          (o', mkDevice rest (tr ++ [GetConfigurationDescriptor 0])))).
Proof.
  intros rs fuel lun_arg W F.
  pose proof (scan_records rs fuel W F) as S.
  split.
  - intros pre body post iface c e_in e_out a r rest tr
           -> Npre Hm Nbody Npost Hpost Hin Hout Hnz Hc.
    destruct (scan_extracts pre body post iface c e_in e_out
                Npre Hm Nbody Npost Hpost Hin Hout Hc) as (E1 & E2 & E3 & E4).
    cbv zeta in E1, E2, E3, E4.
    set (rs := pre ++ iface :: body ++ post) in *.
    set (v := apply_records rs scan_start) in *.
    split.
    + exists v. repeat split; assumption.
    + assert (Hi : s_in_ep v <> 0).
      { rewrite E1. apply in_address_nonzero.
        pose proof (filter_single_holds in_endpoint body e_in Hin) as P.
        unfold in_endpoint in P. apply andb_true_iff in P. apply P. }
      assert (Ho : s_out_ep v <> 0) by (rewrite E2; exact Hnz).
      unfold __init__. rewrite bind_run.
      unfold transfer at 1. cbn [script trace].
      rewrite (init_reaches_session fuel (concat rs) lun_arg v new_object
                 a r rest _ S Hi Ho).
      unfold get_max_lun_request. rewrite E1, E2, E3, E4.
      rewrite <- app_assoc. reflexivity.
  - intros Hlack rest tr.
    unfold __init__. rewrite bind_run.
    unfold transfer at 1. cbn [script trace].
    pose proof (init_cases fuel (concat rs) lun_arg new_object rest
                  (tr ++ [GetConfigurationDescriptor 0])) as C.
    cbv zeta in C. rewrite S in C.
    destruct (endpoints_are_honoured rs) as (Iin & Iout & _).
    cbv zeta in Iin, Iout.
    set (v := apply_records rs scan_start) in *.
    assert (Z0 : (s_in_ep v =? 0) || (s_out_ep v =? 0) = true).
    { apply orb_true_iff. destruct Hlack as [Hl|Hl].
      - left. apply Z.eqb_eq.
        destruct (Z.eq_dec (s_in_ep v) 0) as [E|N]; [exact E|].
        destruct (Iin N) as [e [He Hd]]. rewrite (Hl e He) in Hd.
        discriminate.
      - right. apply Z.eqb_eq.
        destruct (Z.eq_dec (s_out_ep v) 0) as [E|N]; [exact E|].
        destruct (Iout N) as [e [He Hd]]. rewrite (Hl e He) in Hd.
        discriminate. }
    rewrite Z0 in C. rewrite C. eexists. reflexivity.
Qed.

End Scanner.

Section ScannerWitness.

Import Descriptor.

Lemma honoured_in (rs : list record) (e : record) :
  honoured rs e -> In e rs /\ is_endpoint e = true.
Proof.
  intros (a & m & b & c & -> & _ & _ & He). split; [|exact He].
  apply in_or_app. right. right. apply in_or_app. right. left. reflexivity.
Qed.

(** The descriptor of a thumb drive, and the same without its OUT
    endpoint. *)
Lemma scanner_contract_witness :
  __init__ 10 0
    (new_object,
     mkDevice (Data sample_descriptor :: Data [] :: Data [x00] :: []) [])
  = open_session
      (mkObj 0x81 0x02 None None 0 [] [],
       mkDevice []
         ([] ++ [GetConfigurationDescriptor 0; SetConfiguration 1;
                 CtrlTransfer 0xA1 254 0 (Some 0) 1]))
  /\ exists o',
      __init__ 10 0
        (new_object,
         mkDevice (Data (concat [sample_configuration; sample_interface;
                                 sample_in_endpoint]) :: [ack]) [])
      = (Raise NoMSCInterface,
         (o', mkDevice [ack] ([] ++ [GetConfigurationDescriptor 0]))).
Proof.
  split.
  - assert (W : Forall (fun r => well_formed r = true)
                  [sample_configuration; sample_interface;
                   sample_in_endpoint; sample_out_endpoint])
      by (repeat constructor).
    assert (F : (length [sample_configuration; sample_interface;
                         sample_in_endpoint; sample_out_endpoint] < 10)%nat)
      by (simpl; lia).
    refine (proj2 (proj1 (scanner_contract _ 10%nat 0 W F)
                     [sample_configuration] [sample_in_endpoint;
                                             sample_out_endpoint] []
                     sample_interface sample_configuration
                     sample_in_endpoint sample_out_endpoint
                     [] (Data [x00]) [] []
                     eq_refl _ eq_refl _ _ _ eq_refl eq_refl _ eq_refl)).
    + repeat constructor.
    + repeat constructor.
    + constructor.
    + left. reflexivity.
    + discriminate.
  - assert (W : Forall (fun r => well_formed r = true)
                  [sample_configuration; sample_interface;
                   sample_in_endpoint])
      by (repeat constructor).
    assert (F : (length [sample_configuration; sample_interface;
                         sample_in_endpoint] < 10)%nat)
      by (simpl; lia).
    apply (proj2 (scanner_contract _ 10%nat 0 W F)).
    right. intros e He. apply honoured_in in He. destruct He as [Hin Hep].
    destruct Hin as [<-|[<-|[<-|[]]]]; try discriminate; reflexivity.
Defined.

End ScannerWitness.

(* ------------------------------------------------------------------ *)
(** * What every method keeps *)

Section Keeps.

Variable R : state -> state -> Prop.
Hypothesis R_refl : forall s, R s s.
Hypothesis R_trans : forall s1 s2 s3, R s1 s2 -> R s2 s3 -> R s1 s3.

Lemma keeps_ret {A} (a : A) : keeps R (ret a).
Proof. intros s. apply R_refl. Qed.

Lemma keeps_raise {A} (e : exn) : keeps R (@raise A e).
Proof. intros s. apply R_refl. Qed.

Lemma keeps_lift {A} (r : exn + A) : keeps R (lift r).
Proof. destruct r; [apply keeps_raise|apply keeps_ret]. Qed.

Lemma keeps_get_self : keeps R get_self.
Proof. intros s. apply R_refl. Qed.

(** Sequencing, with what is known of the value passed on. *)
Lemma keeps_bind_from {A B} (m : M A) (k : A -> M B) :
  keeps R m ->
  (forall s a s', m s = (Return a, s') -> R s' (snd (k a s'))) ->
  keeps R (bind m k).
Proof.
  intros Hm Hk s. unfold bind. specialize (Hm s).
  destruct (m s) as [[a|e|] s1] eqn:E; cbn [snd] in *.
  - apply R_trans with s1; [exact Hm|]. apply (Hk s a s1 E).
  - exact Hm.
  - exact Hm.
Qed.

Lemma keeps_bind {A B} (m : M A) (k : A -> M B) :
  keeps R m -> (forall a, keeps R (k a)) -> keeps R (bind m k).
Proof.
  intros Hm Hk. apply keeps_bind_from; [exact Hm|].
  intros s a s' _. apply Hk.
Qed.

(** Sequencing after a computation that only raises. *)
Lemma keeps_bind_lift {A B} (r : exn + A) (k : A -> M B) :
  (forall a, r = inr a -> keeps R (k a)) -> keeps R (bind (lift r) k).
Proof.
  intros H. destruct r as [e|a].
  - intros s. apply R_refl.
  - intros s. apply (H a eq_refl).
Qed.

Lemma keeps_if {A} (b : bool) (m1 m2 : M A) :
  keeps R m1 -> keeps R m2 -> keeps R (if b then m1 else m2).
Proof. destruct b; auto. Qed.

End Keeps.

Lemma lift_returns {A} (r : exn + A) (a : A) (s s' : state) :
  lift r s = (Return a, s') -> r = inr a /\ s' = s.
Proof.
  destruct r as [e|a']; cbn; intros H; [discriminate|].
  injection H as -> ->. split; reflexivity.
Qed.

Lemma get_self_returns (o : USBMassStorage) (s s' : state) :
  get_self s = (Return o, s') -> o = fst s /\ s' = s.
Proof. unfold get_self. intros H. injection H as <- <-. split; reflexivity. Qed.

Lemma setitem_length (buf b : list byte) (i : nat) (v : Z) :
  setitem buf i v = inr b -> length b = length buf.
Proof.
  unfold setitem. destruct (Nat.ltb_spec i (length buf)) as [L|L]; [|discriminate].
  destruct (to_byte v) as [b0|]; [|discriminate].
  intros H. assert (E : firstn i buf ++ b0 :: skipn (S i) buf = b) by congruence.
  rewrite <- E, length_app, length_firstn. cbn [length].
  rewrite length_skipn. lia.
Qed.

Lemma pack_length (o : Struct.order) (fmt : list Struct.code) :
  forall (vals : list Z) (bs : list byte),
    Struct.pack o fmt vals = Some bs -> length bs = Struct.calcsize fmt.
Proof.
  induction fmt as [|c fmt IH]; intros vals bs.
  - destruct vals; cbn; [|discriminate]. intros H. injection H as <-. reflexivity.
  - assert (G : forall v vals',
                 match Struct.encode o (Struct.size c) v,
                       Struct.pack o fmt vals' with
                 | Some b, Some bs0 => Some (b ++ bs0)
                 | _, _ => None
                 end = Some bs ->
                 length bs = (Struct.size c + Struct.calcsize fmt)%nat).
    { intros v vals'. unfold Struct.encode.
      destruct ((0 <=? v) && (v <? 2 ^ (8 * Z.of_nat (Struct.size c))));
        [|discriminate].
      destruct (Struct.pack o fmt vals') as [bs0|] eqn:E; [|discriminate].
      intros H. injection H as <-. rewrite length_app, (IH _ _ E).
      destruct o; [rewrite le_bytes_length|rewrite be_bytes_length];
        reflexivity. }
    destruct c; cbn [Struct.pack Struct.calcsize fold_right];
      try (destruct vals as [|v vals']; [discriminate|apply G]).
    destruct (Struct.pack o fmt vals) as [bs0|] eqn:E; [|discriminate].
    intros H. injection H as <-. cbn [length Struct.size].
    rewrite (IH _ _ E). reflexivity.
Qed.

Lemma pack_into_length (o : Struct.order) (fmt : list Struct.code)
      (buffer b : list byte) (offset : nat) (vals : list Z) :
  Struct.pack_into o fmt buffer offset vals = inr b ->
  length b = length buffer.
Proof.
  unfold Struct.pack_into.
  destruct (Struct.pack o fmt vals) as [bs|] eqn:E; [|discriminate].
  apply pack_length in E.
  destruct (Nat.leb_spec (offset + Struct.calcsize fmt) (length buffer))
    as [L|L]; [|discriminate].
  intros H. injection H as <-.
  rewrite !length_app, length_firstn, length_skipn, E. lia.
Qed.

Ltac shape_leaf o k :=
  destruct o as [i0 e0 n0 b0 l0 c0 t0];
  cbn [fst snd in_ep out_ep lun sector_count block_size cbw csw
       set_cbw set_csw] in *;
  repeat split; try apply fill_length;
  try (intros N;
       match goal with
       | ED : (_ =? _) = true |- _ => apply Z.eqb_eq in ED; contradiction
       end);
  try (right; eexists; reflexivity);
  try (right; (split; [reflexivity|fin k])).

(** One command, whatever the device does: the attributes stay, the status
    buffer keeps its length, and either nothing was sent (the command
    block could not be packed) or the command block is the one built and
    between one and three transfers of [exchange] were made. *)
Lemma scsi_command_shape (o : USBMassStorage) (d : usb_device)
      (direction : Z) (command data : list byte) :
  let res := _scsi_command direction command data (o, d) in
  let o' := fst (snd res) in
  let d' := snd (snd res) in
  in_ep o' = in_ep o /\ out_ep o' = out_ep o /\ lun o' = lun o
  /\ sector_count o' = sector_count o /\ block_size o' = block_size o
  /\ length (csw o') = length (csw o)
  /\ match fst res with
     | Return x =>
         length x = length data /\ (direction <> _DIR_IN -> x = data)
     | Raise e =>
         build_cbw (cbw o) direction command data = inl e
         \/ exists f, e = USBError f
     | Diverge => False
     end
  /\ ((cbw o' = cbw o /\ trace d' = trace d)
      \/ (build_cbw (cbw o) direction command data = inr (cbw o')
          /\ exists k,
               (1 <= k)%nat
               /\ trace d'
                  = trace d ++ firstn k (exchange o direction data (cbw o')))).
Proof.
  intros res o' d'. subst o' d'.
  assert (Hr : res = _scsi_command direction command data (o, d))
    by reflexivity.
  clearbody res.
  destruct (build_cbw (cbw o) direction command data) as [e|c] eqn:B.
  - rewrite (scsi_command_unpackable o d direction command data e B) in Hr.
    subst res. cbn [fst snd]. repeat split; try reflexivity.
    + left. reflexivity.
    + left. split; reflexivity.
  - revert Hr. revert B.
    destruct d as [sc tr].
    unfold build_cbw, ebind, _scsi_command.
    rewrite bind_run. unfold get_self at 1. cbn [fst].
    rewrite bind_run.
    destruct (Struct.pack_into _ _ _ _ _) as [e'|c']; [discriminate|].
    intros H.
    assert (E : slice_assign c' 15 (15 + length (A:=byte) command) command = c)
      by congruence.
    clear H.
    unfold lift at 1, ret at 1.
    rewrite bind_run; unfold modify_self at 1; cbn [fst snd].
    rewrite bind_run; unfold get_self at 1; cbn [fst snd].
    rewrite E.
    replace (out_ep (set_cbw c o)) with (out_ep o) by (destruct o; reflexivity).
    replace (in_ep (set_cbw c o)) with (in_ep o) by (destruct o; reflexivity).
    replace (cbw (set_cbw c o)) with c by (destruct o; reflexivity).
    replace (csw (set_cbw c o)) with (csw o) by (destruct o; reflexivity).
    unfold exchange, device_write, device_read, bind, transfer, ret, modify_self.
    cbn [script trace fst snd].
    destruct sc as [|[w|f] sc]; cbn [script trace fst snd].
    1,3: intros ->; shape_leaf o 1%nat.
    destruct (nonempty data).
    + destruct (direction =? _DIR_IN) eqn:ED.
      * destruct sc as [|[r|f] sc]; cbn [script trace fst snd].
        1,3: intros ->; shape_leaf o 2%nat.
        destruct sc as [|[st|f] sc]; cbn [script trace fst snd];
          intros ->; shape_leaf o 3%nat.
      * destruct sc as [|[r|f] sc]; cbn [script trace fst snd].
        1,3: intros ->; shape_leaf o 2%nat.
        destruct sc as [|[st|f] sc]; cbn [script trace fst snd];
          intros ->; shape_leaf o 3%nat.
    + destruct sc as [|[st|f] sc]; cbn [script trace fst snd];
        intros ->; shape_leaf o 2%nat.
Qed.

Lemma Forall_firstn_of {A} (P : A -> Prop) (l : list A) (k : nat) :
  Forall P l -> Forall P (firstn k l).
Proof.
  revert k. induction l as [|x l IH]; intros k H.
  - rewrite firstn_nil. constructor.
  - destruct k as [|k]; [constructor|].
    inversion H; subst. cbn [firstn]. constructor; [assumption|].
    apply IH. assumption.
Qed.

Lemma on_endpoints_same (p : bool) (o o' : USBMassStorage) (q : request) :
  in_ep o' = in_ep o -> out_ep o' = out_ep o ->
  on_endpoints p o' q -> on_endpoints p o q.
Proof. intros I O. destruct q; cbn; congruence. Qed.

Lemma exchange_on_endpoints (p : bool) (o : USBMassStorage) (direction : Z)
      (data c : list byte) :
  Forall (on_endpoints p o) (exchange o direction data c).
Proof.
  unfold exchange. constructor; [reflexivity|].
  apply Forall_app. split.
  - destruct (nonempty data); [|constructor].
    constructor; [|constructor].
    destruct (direction =? _DIR_IN); reflexivity.
  - constructor; [reflexivity|constructor].
Qed.

Lemma steady_refl (p : bool) (s : state) : steady p s s.
Proof.
  split; [repeat split|]. split; [reflexivity|]. split.
  - intros H. split; [exact H|reflexivity].
  - exists []. split; [symmetry; apply app_nil_r|constructor].
Qed.

Lemma steady_trans (p : bool) (s1 s2 s3 : state) :
  steady p s1 s2 -> steady p s2 s3 -> steady p s1 s3.
Proof.
  intros ((I1 & O1 & L1) & C1 & B1 & (a1 & T1 & F1))
         ((I2 & O2 & L2) & C2 & B2 & (a2 & T2 & F2)).
  split; [|split; [|split]].
  - repeat split; congruence.
  - congruence.
  - intros H. destruct (B1 H) as [H1 H1']. destruct (B2 H1) as [H2 H2'].
    split; congruence.
  - exists (a1 ++ a2). split.
    + rewrite T2, T1. symmetry. apply app_assoc.
    + apply Forall_app. split; [exact F1|].
      eapply Forall_impl; [|exact F2].
      intros q. apply on_endpoints_same; assumption.
Qed.

Lemma same_capacity_refl (s : state) : same_capacity s s.
Proof. split; reflexivity. Qed.

Lemma same_capacity_trans (s1 s2 s3 : state) :
  same_capacity s1 s2 -> same_capacity s2 s3 -> same_capacity s1 s3.
Proof. intros [A1 B1] [A2 B2]. split; congruence. Qed.

(** A command of at most sixteen bytes leaves a command block of 31 bytes
    one. *)
Lemma scsi_command_steady (p : bool) (direction : Z) (command data : list byte) :
  (length command <= 16)%nat ->
  keeps (steady p) (_scsi_command direction command data).
Proof.
  intros L [o d].
  destruct (scsi_command_shape o d direction command data)
    as (I & O & Lu & _ & _ & C & _ & H).
  cbn [fst snd] in *.
  split; [repeat split; assumption|]. split; [exact C|].
  destruct H as [[E T]|[B (k & _ & T)]].
  - split.
    + intros H. rewrite E. split; [exact H|reflexivity].
    + exists []. split; [rewrite T; symmetry; apply app_nil_r|constructor].
  - apply build_cbw_inv in B. destruct B as [L15 B]. split.
    + intros H. cbn [fst] in *. rewrite B. split.
      * rewrite cbw_image_length; [exact H|lia].
      * apply cbw_image_layout. lia.
    + eexists. split; [exact T|].
      apply Forall_firstn_of, exchange_on_endpoints.
Qed.

Lemma scsi_command_capacity (direction : Z) (command data : list byte) :
  keeps same_capacity (_scsi_command direction command data).
Proof.
  intros [o d].
  destruct (scsi_command_shape o d direction command data)
    as (_ & _ & _ & S & B & _).
  split; assumption.
Qed.

Lemma sleep_steady : keeps (steady true) sleep.
Proof.
  intros [o d]. unfold sleep. cbn [fst snd].
  split; [repeat split|]. split; [reflexivity|]. split.
  - intros H. split; [exact H|reflexivity].
  - exists [Sleep]. split; [reflexivity|].
    constructor; [reflexivity|constructor].
Qed.

Lemma sleep_capacity : keeps same_capacity sleep.
Proof. intros [o d]. split; reflexivity. Qed.

(** An assignment to an attribute other than the endpoints, the LUN and
    the buffers. *)
Lemma modify_self_steady (p : bool) (f : USBMassStorage -> USBMassStorage) :
  (forall o, in_ep (f o) = in_ep o /\ out_ep (f o) = out_ep o
             /\ lun (f o) = lun o /\ cbw (f o) = cbw o /\ csw (f o) = csw o) ->
  keeps (steady p) (modify_self f).
Proof.
  intros H [o d]. destruct (H o) as (I & O & L & C & S).
  unfold modify_self. cbn [fst snd].
  split; [repeat split; assumption|]. split; [exact (f_equal (@length byte) S)|].
  split.
  - intros E. cbn [fst] in *. rewrite C. split; [exact E|reflexivity].
  - exists []. split; [symmetry; apply app_nil_r|constructor].
Qed.

Lemma self_csw_setitem_steady (p : bool) (i : nat) (v : Z) :
  keeps (steady p) (self_csw_setitem i v).
Proof.
  intros [o d]. unfold self_csw_setitem, bind, get_self, lift, modify_self.
  cbn [fst snd].
  destruct (setitem (csw o) i v) as [e|c] eqn:E; cbn [raise ret fst snd].
  - apply steady_refl.
  - apply setitem_length in E.
    destruct o as [i0 e0 n0 b0 l0 c0 t0]; cbn [csw set_csw] in *.
    split; [repeat split|]. split; [exact E|]. split.
    + intros H. split; [exact H|reflexivity].
    + exists []. split; [symmetry; apply app_nil_r|constructor].
Qed.

Lemma self_csw_setitem_capacity (i : nat) (v : Z) :
  keeps same_capacity (self_csw_setitem i v).
Proof.
  intros [o d]. unfold self_csw_setitem, bind, get_self, lift, modify_self.
  cbn [fst snd].
  destruct (setitem (csw o) i v) as [e|c]; cbn [raise ret fst snd];
    destruct o; split; reflexivity.
Qed.

Create HintDb keeps.

#[local] Hint Resolve scsi_command_capacity sleep_steady sleep_capacity
  self_csw_setitem_steady self_csw_setitem_capacity : keeps.

(** Sequencing and branching keep what their parts keep. *)
Ltac keep refl trans :=
  repeat first
    [ solve [auto with keeps]
    | apply keeps_ret; exact refl
    | apply keeps_raise; exact refl
    | apply keeps_lift; exact refl
    | apply keeps_get_self; exact refl
    | match goal with
      | |- keeps _ (if ?b then _ else _) => destruct b
      | |- keeps _ (match ?r with O => _ | S _ => _ end) => destruct r
      end
    | apply keeps_bind; [exact trans| |intros] ].

Lemma wait_loop_capacity (remaining : nat) (t sn sr : list byte) :
  keeps same_capacity (wait_loop remaining t sn sr).
Proof.
  revert sr. induction remaining as [|n IH]; intros sr; cbn [wait_loop];
    keep same_capacity_refl same_capacity_trans.
Qed.

#[local] Hint Resolve wait_loop_capacity : keeps.

Lemma wait_for_ready_capacity (tries : Z) :
  keeps same_capacity (_wait_for_ready tries).
Proof.
  unfold _wait_for_ready. keep same_capacity_refl same_capacity_trans.
Qed.

Lemma inquire_capacity : keeps same_capacity _inquire.
Proof. unfold _inquire. keep same_capacity_refl same_capacity_trans. Qed.

Lemma readblocks_capacity (block_num : Z) (buf : list byte) :
  keeps same_capacity (readblocks block_num buf).
Proof. unfold readblocks. keep same_capacity_refl same_capacity_trans. Qed.

Lemma writeblocks_capacity (block_num : Z) (buf : list byte) :
  keeps same_capacity (writeblocks block_num buf).
Proof. unfold writeblocks. keep same_capacity_refl same_capacity_trans. Qed.

#[local] Hint Resolve scsi_command_steady : keeps.

Lemma wait_loop_steady (remaining : nat) (t sn sr : list byte) :
  (length t <= 16)%nat -> (length sn <= 16)%nat ->
  keeps (steady true) (wait_loop remaining t sn sr).
Proof.
  intros Lt Ls. revert sr.
  induction remaining as [|n IH]; intros sr; cbn [wait_loop];
    keep (steady_refl true) (steady_trans true).
Qed.

Lemma two_setitems_length (n i j : nat) (v w : Z) (b : list byte) :
  (let* t := setitem (bytearray n) i v in setitem t j w) = inr b ->
  length b = n.
Proof.
  unfold ebind. destruct (setitem (bytearray n) i v) as [e|t] eqn:E;
    [discriminate|].
  intros H. apply setitem_length in H. apply setitem_length in E.
  rewrite H, E. apply bytearray_length.
Qed.

Lemma wait_for_ready_steady (tries : Z) :
  keeps (steady true) (_wait_for_ready tries).
Proof.
  unfold _wait_for_ready.
  apply keeps_bind; [apply steady_trans|apply self_csw_setitem_steady|intros _].
  apply keeps_bind; [apply steady_trans|apply keeps_get_self, steady_refl|intros self].
  apply keeps_bind_lift; [apply steady_refl|intros t Ht].
  apply keeps_bind_lift; [apply steady_refl|intros sn Hs].
  apply two_setitems_length in Ht. apply two_setitems_length in Hs.
  assert (Lt : (length t <= 16)%nat) by lia.
  assert (Ls : (length sn <= 16)%nat) by lia.
  pose proof (wait_loop_steady (Z.to_nat tries) t sn (bytearray 18) Lt Ls).
  keep (steady_refl true) (steady_trans true).
Qed.

Lemma inquire_steady (p : bool) : keeps (steady p) _inquire.
Proof.
  unfold _inquire.
  apply keeps_bind_lift; [apply steady_refl|intros c Hc].
  apply two_setitems_length in Hc.
  assert (Lc : (length c <= 16)%nat) by lia.
  keep (steady_refl p) (steady_trans p).
Qed.

Lemma read_capacity_steady (p : bool) : keeps (steady p) _read_capacity.
Proof.
  unfold _read_capacity.
  apply keeps_bind_lift; [apply steady_refl|intros c Hc].
  apply setitem_length in Hc. rewrite bytearray_length in Hc.
  assert (Lc : (length c <= 16)%nat) by lia.
  apply keeps_bind; [apply steady_trans|auto with keeps|intros r].
  apply keeps_bind; [apply steady_trans|apply keeps_lift, steady_refl|intros q].
  repeat (apply keeps_bind; [apply steady_trans| |intros _]);
    apply modify_self_steady; intros o; destruct o; repeat split.
Qed.

Lemma readblocks_steady (p : bool) (block_num : Z) (buf : list byte) :
  keeps (steady p) (readblocks block_num buf).
Proof.
  unfold readblocks.
  apply keeps_bind; [apply steady_trans|apply keeps_get_self, steady_refl|intros self].
  apply keeps_bind_lift; [apply steady_refl|intros c Hc].
  apply pack_into_length in Hc. rewrite bytearray_length in Hc.
  apply scsi_command_steady. lia.
Qed.

Lemma writeblocks_steady (p : bool) (block_num : Z) (buf : list byte) :
  keeps (steady p) (writeblocks block_num buf).
Proof.
  unfold writeblocks.
  apply keeps_bind; [apply steady_trans|apply keeps_get_self, steady_refl|intros self].
  apply keeps_bind_lift; [apply steady_refl|intros c Hc].
  apply pack_into_length in Hc. rewrite bytearray_length in Hc.
  apply scsi_command_steady. lia.
Qed.

Lemma ioctl_steady (p : bool) (operation : Z) : keeps (steady p) (ioctl operation).
Proof.
  unfold ioctl. pose proof (read_capacity_steady p).
  keep (steady_refl p) (steady_trans p).
Qed.

Lemma steady_session (p : bool) (s s' : state) :
  steady p s s' -> session (fst s) -> session (fst s').
Proof.
  intros ((I & O & L) & C & B & _) (S1 & S2 & S3 & S4 & S5 & S6).
  destruct (B S1) as [B1 B2].
  unfold session. rewrite I, O, L, C, B1, B2. repeat split; assumption || lia.
Qed.

Lemma sample_session_is_session (lun_arg : Z) :
  0 <= lun_arg < 256 -> session (sample_session lun_arg).
Proof.
  intros H. unfold session, sample_session, session_object.
  cbn [cbw csw lun in_ep out_ep sample_vars s_in_ep s_out_ep].
  repeat split; try reflexivity; lia.
Qed.

(** X2: a session stays a session.  Whatever the device answers and
    however the call ends, after [readblocks], [writeblocks], [ioctl],
    [_inquire], [_read_capacity] and [_wait_for_ready] the command block
    still has 31 bytes and starts with the signature and a tag of zero, the
    status buffer still has 13 bytes, and the LUN and the endpoints are in
    range as before. *)
Theorem methods_keep_session :
  forall (o : USBMassStorage) (d : usb_device) (block_num tries operation : Z)
         (buf : list byte),
    session o ->
    session (fst (snd (readblocks block_num buf (o, d))))
    /\ session (fst (snd (writeblocks block_num buf (o, d))))
    /\ session (fst (snd (ioctl operation (o, d))))
    /\ session (fst (snd (_inquire (o, d))))
    /\ session (fst (snd (_read_capacity (o, d))))
    /\ session (fst (snd (_wait_for_ready tries (o, d)))).
Proof.
  intros o d block_num tries operation buf S.
  split; [|split; [|split; [|split; [|split]]]].
  - exact (steady_session _ _ _ (readblocks_steady false block_num buf (o, d)) S).
  - exact (steady_session _ _ _ (writeblocks_steady false block_num buf (o, d)) S).
  - exact (steady_session _ _ _ (ioctl_steady false operation (o, d)) S).
  - exact (steady_session _ _ _ (inquire_steady false (o, d)) S).
  - exact (steady_session _ _ _ (read_capacity_steady false (o, d)) S).
  - exact (steady_session _ _ _ (wait_for_ready_steady tries (o, d)) S).
Qed.

Lemma methods_keep_session_witness :
  let o := sample_session 0 in
  let d := mkDevice [ack; Data (bytearray 512); Data (status_wrapper 0)] [] in
  session o
  /\ session (fst (snd (readblocks 7 (bytearray 512) (o, d))))
  /\ session (fst (snd (writeblocks 7 (bytearray 512) (o, d))))
  /\ session (fst (snd (ioctl 4 (o, d))))
  /\ session (fst (snd (_inquire (o, d))))
  /\ session (fst (snd (_read_capacity (o, d))))
  /\ session (fst (snd (_wait_for_ready 3 (o, d)))).
Proof.
  intros o d.
  assert (S : session o) by (apply sample_session_is_session; lia).
  split; [exact S|].
  exact (methods_keep_session o d 7 3 4 (bytearray 512) S).
Defined.

(** X3: no method touches the endpoints or the LUN, and only
    [_read_capacity] (and [ioctl], which calls it) touches [sector_count]
    and [block_size]: this holds for every object, every argument and every
    device, however the call ends. *)
Theorem methods_keep_attributes :
  forall (block_num tries operation direction : Z)
         (buf command data : list byte),
    let frame s s' := same_addressing s s' /\ same_capacity s s' in
    keeps frame (_scsi_command direction command data)
    /\ keeps frame (readblocks block_num buf)
    /\ keeps frame (writeblocks block_num buf)
    /\ keeps frame _inquire
    /\ keeps frame (_wait_for_ready tries)
    /\ keeps same_addressing _read_capacity
    /\ keeps same_addressing (ioctl operation).
Proof.
  intros block_num tries operation direction buf command data frame.
  subst frame. cbv beta.
  split; [|split; [|split; [|split; [|split; [|split]]]]].
  - intros [o d].
    destruct (scsi_command_shape o d direction command data)
      as (I & O & L & S & B & _).
    split; [repeat split; assumption|split; assumption].
  - intros s. split.
    + apply (readblocks_steady false block_num buf s).
    + apply readblocks_capacity.
  - intros s. split.
    + apply (writeblocks_steady false block_num buf s).
    + apply writeblocks_capacity.
  - intros s. split.
    + apply (inquire_steady false s).
    + apply inquire_capacity.
  - intros s. split.
    + apply (wait_for_ready_steady tries s).
    + apply wait_for_ready_capacity.
  - intros s. apply (read_capacity_steady false s).
  - intros s. apply (ioctl_steady false operation s).
Qed.

(** X4: the methods talk to the device through the two bulk endpoints
    only.  Every request a call adds to the trace is a write to [out_ep]
    or a read from [in_ep]; [_wait_for_ready] also sleeps.  No method
    makes a control transfer, fetches a descriptor or sets the
    configuration, and the requests made before the call stay as they
    were. *)
Theorem methods_use_bulk_endpoints_only :
  forall (s : state) (block_num tries operation : Z) (buf : list byte),
    let bulk (pause : bool) (s' : state) :=
      exists added,
        trace (snd s') = trace (snd s) ++ added
        /\ Forall (on_endpoints pause (fst s)) added in
    bulk false (snd (readblocks block_num buf s))
    /\ bulk false (snd (writeblocks block_num buf s))
    /\ bulk false (snd (ioctl operation s))
    /\ bulk false (snd (_inquire s))
    /\ bulk false (snd (_read_capacity s))
    /\ bulk true (snd (_wait_for_ready tries s)).
Proof.
  intros s block_num tries operation buf bulk. subst bulk. cbv beta.
  split; [|split; [|split; [|split; [|split]]]].
  - apply (readblocks_steady false block_num buf s).
  - apply (writeblocks_steady false block_num buf s).
  - apply (ioctl_steady false operation s).
  - apply (inquire_steady false s).
  - apply (read_capacity_steady false s).
  - apply (wait_for_ready_steady tries s).
Qed.

(* ------------------------------------------------------------------ *)
(** * The descriptor scan on arbitrary bytes *)

Section RawScan.

Lemma getitem_range (buf : list byte) (i : nat) (z : Z) :
  getitem buf i = inr z -> 0 <= z < 256.
Proof.
  unfold getitem. destruct (nth_error buf i) as [b|]; [|discriminate].
  intros H. injection H as <-. apply byte_val_range.
Qed.

Lemma getitem_raises (buf : list byte) (i : nat) (e : exn) :
  getitem buf i = inl e -> e = IndexError.
Proof.
  unfold getitem. destruct (nth_error buf i) as [b|]; [discriminate|].
  intros H. injection H as <-. reflexivity.
Qed.

Lemma getitem_present (buf : list byte) (i : nat) (z : Z) :
  getitem buf i = inr z -> (i < length buf)%nat.
Proof.
  unfold getitem. destruct (nth_error buf i) as [b|] eqn:E; [|discriminate].
  intros _. apply nth_error_Some. congruence.
Qed.

(** The direction bit of a byte is set from 128 on. *)
Lemma direction_bit (b : byte) :
  (Z.land (byte_val b) _DIR_IN =? 0) = (byte_val b <? 128).
Proof. destruct b; reflexivity. Qed.

Lemma direction_bit_of (buf : list byte) (i : nat) (z : Z) :
  getitem buf i = inr z -> (Z.land z _DIR_IN =? 0) = (z <? 128).
Proof.
  unfold getitem. destruct (nth_error buf i) as [b|]; [|discriminate].
  intros H. injection H as <-. apply direction_bit.
Qed.

(** The loop body raises nothing but [IndexError]. *)
Lemma scan_record_raises (desc : list byte) (i : nat) (v : scan_vars)
      (e : exn) :
  scan_record desc i v = inl e -> e = IndexError.
Proof.
  unfold scan_record, ebind.
  destruct (getitem desc i) as [e0|dl] eqn:E0;
    [intros H; injection H as <-; exact (getitem_raises _ _ _ E0)|].
  destruct (getitem desc (i + 1)) as [e1|ty] eqn:E1;
    [intros H; injection H as <-; exact (getitem_raises _ _ _ E1)|].
  destruct (ty =? DESC_CONFIGURATION).
  { destruct (getitem desc (i + 5)) as [e5|c] eqn:E5; [|discriminate].
    intros H; injection H as <-; exact (getitem_raises _ _ _ E5). }
  destruct (ty =? DESC_INTERFACE).
  { destruct (getitem desc (i + 2)) as [e2|n] eqn:E2;
      [intros H; injection H as <-; exact (getitem_raises _ _ _ E2)|].
    destruct (getitem desc (i + 5)) as [e5|c] eqn:E5;
      [intros H; injection H as <-; exact (getitem_raises _ _ _ E5)|].
    destruct (getitem desc (i + 6)) as [e6|sc] eqn:E6; [|discriminate].
    intros H; injection H as <-; exact (getitem_raises _ _ _ E6). }
  destruct ((ty =? DESC_ENDPOINT) && in_msc_interface v); [|discriminate].
  destruct (getitem desc (i + 2)) as [e2|a] eqn:E2.
  - intros H; injection H as <-; exact (getitem_raises _ _ _ E2).
  - destruct (negb (Z.land a _DIR_IN =? 0)); discriminate.
Qed.

(** The loop body keeps the variables in range, and moves on by the
    length byte it read. *)
Lemma scan_record_step (desc : list byte) (i i' : nat) (v v' : scan_vars) :
  scan_record desc i v = inr (i', v') ->
  (i < length desc)%nat
  /\ (exists dl, getitem desc i = inr dl /\ i' = (i + Z.to_nat dl)%nat)
  /\ (scan_in_range v -> scan_in_range v').
Proof.
  unfold scan_record, ebind.
  destruct (getitem desc i) as [e0|dl] eqn:E0; [discriminate|].
  destruct (getitem desc (i + 1)) as [e1|ty] eqn:E1; [discriminate|].
  pose proof (getitem_present _ _ _ E0) as P0.
  assert (G : forall w : scan_vars,
             (scan_in_range v -> scan_in_range w) ->
             @inr exn _ ((i + Z.to_nat dl)%nat, w) = inr (i', v') ->
             (i < length desc)%nat
             /\ (exists dl0, @inr exn Z dl = inr dl0
                             /\ i' = (i + Z.to_nat dl0)%nat)
             /\ (scan_in_range v -> scan_in_range v')).
  { intros w Hw H. injection H as <- <-.
    split; [exact P0|]. split; [|exact Hw]. exists dl. split; reflexivity. }
  destruct (ty =? DESC_CONFIGURATION).
  { destruct (getitem desc (i + 5)) as [e5|c] eqn:E5; [discriminate|].
    apply G. intros (A & B & C & D).
    pose proof (getitem_range _ _ _ E5).
    repeat split; cbn [s_in_ep s_out_ep config_value in_msc_interface
                       msc_interface]; try assumption; try lia. }
  destruct (ty =? DESC_INTERFACE).
  { destruct (getitem desc (i + 2)) as [e2|n] eqn:E2; [discriminate|].
    destruct (getitem desc (i + 5)) as [e5|c] eqn:E5; [discriminate|].
    destruct (getitem desc (i + 6)) as [e6|sc] eqn:E6; [discriminate|].
    apply G. intros (A & B & C & D).
    pose proof (getitem_range _ _ _ E2).
    repeat split; cbn [s_in_ep s_out_ep config_value in_msc_interface
                       msc_interface]; try assumption; try lia.
    destruct ((c =? 8) && (sc =? 6)).
    - intros _. exists n. split; [reflexivity|assumption].
    - intros [F|F]; [discriminate|]. apply D. right. exact F. }
  destruct ((ty =? DESC_ENDPOINT) && in_msc_interface v) eqn:Ee.
  - apply andb_true_iff in Ee. destruct Ee as [_ Em].
    destruct (getitem desc (i + 2)) as [e2|a] eqn:E2; [discriminate|].
    pose proof (getitem_range _ _ _ E2) as Ra.
    pose proof (direction_bit_of _ _ _ E2) as Da.
    destruct (Z.land a _DIR_IN =? 0); cbn [negb];
      symmetry in Da;
      [apply Z.ltb_lt in Da|apply Z.ltb_ge in Da];
      apply G; intros (A & B & C & D);
      (repeat split; cbn [s_in_ep s_out_ep config_value in_msc_interface
                          msc_interface]; try assumption; try lia);
      intros _; apply D; left; exact Em.
  - apply G. auto.
Qed.

Lemma scan_loop_in_range (desc : list byte) (fuel : nat) :
  forall (i : nat) (v : scan_vars),
    scan_in_range v ->
    match scan_loop fuel desc i v with
    | Return v' => scan_in_range v'
    | Raise e => e = IndexError
    | Diverge => True
    end.
Proof.
  induction fuel as [|fuel IH]; intros i v Hv; cbn [scan_loop]; [exact I|].
  destruct (i <? length desc)%nat; [|exact Hv].
  destruct (scan_record desc i v) as [e|[i' v']] eqn:E.
  - exact (scan_record_raises _ _ _ _ E).
  - apply IH. apply (scan_record_step _ _ _ _ _ E). exact Hv.
Qed.

Lemma scan_start_in_range : scan_in_range scan_start.
Proof.
  unfold scan_in_range, scan_start.
  cbn [s_in_ep s_out_ep config_value in_msc_interface msc_interface].
  split; [left; reflexivity|]. split; [lia|]. split; [lia|].
  intros [F|[F|F]]; [discriminate|contradiction|contradiction].
Qed.

(** The scan from its start. *)
Lemma scan_result_in_range (fuel : nat) (desc : list byte) :
  match scan fuel desc with
  | Return v => scan_in_range v
  | Raise e => e = IndexError
  | Diverge => True
  end.
Proof.
  unfold scan. apply scan_loop_in_range, scan_start_in_range.
Qed.

End RawScan.

(** X9: on any bytes at all, what the scan returns is in range, and what it
    raises is [IndexError]. *)
Theorem scan_of_raw_bytes :
  forall (fuel : nat) (config_descriptor : list byte),
    match scan fuel config_descriptor with
    | Return v => scan_in_range v
    | Raise e => e = IndexError
    | Diverge => True
    end.
Proof.
  intros fuel desc. unfold scan.
  apply scan_loop_in_range, scan_start_in_range.
Qed.

Lemma bind_returns {A B} (m : M A) (k : A -> M B) (s s' : state) (b : B) :
  bind m k s = (Return b, s') ->
  exists a s1, m s = (Return a, s1) /\ k a s1 = (Return b, s').
Proof.
  unfold bind. destruct (m s) as [[a|e|] s1]; try discriminate.
  intros H. exists a, s1. split; [reflexivity|exact H].
Qed.

(** [_wait_for_ready] returns only when the status byte is 0. *)
Lemma wait_for_ready_returns_ready (tries : Z) (s s' : state) :
  _wait_for_ready tries s = (Return tt, s') ->
  getitem (csw (fst s')) 12 = inr 0.
Proof.
  unfold _wait_for_ready. intros H.
  apply bind_returns in H. destruct H as (? & s1 & _ & H).
  apply bind_returns in H. destruct H as (self & s2 & _ & H).
  apply bind_returns in H. destruct H as (t & s3 & _ & H).
  apply bind_returns in H. destruct H as (sn & s4 & _ & H).
  apply bind_returns in H. destruct H as (? & s5 & _ & H).
  apply bind_returns in H. destruct H as (? & s6 & _ & H).
  apply bind_returns in H. destruct H as (self' & s7 & G & H).
  apply get_self_returns in G. destruct G as [-> ->].
  apply bind_returns in H. destruct H as (st & s8 & L & H).
  apply lift_returns in L. destruct L as [L ->].
  destruct (st =? 0) eqn:E; cbn [negb] in H; [|discriminate].
  injection H as <-. apply Z.eqb_eq in E. subst st. exact L.
Qed.

Lemma cbw_template_head (lun_arg : Z) : firstn 8 (cbw_template lun_arg) = cbw_head.
Proof. reflexivity. Qed.

(** X1: what a construction that returns has set up.  Whatever the object
    held before and whatever the device sent, when [__init__] returns the
    object is a session (a command block of 31 bytes with signature and
    tag, a status buffer of 13 bytes, a LUN in 0..255, an IN endpoint in
    0x80..0xFF and an OUT endpoint in 0x01..0x7F), its LUN is the argument,
    [sector_count] and [block_size] are [None], and the status byte is 0. *)
Theorem constructed_session :
  forall (fuel : nat) (lun_arg : Z) (o0 o : USBMassStorage)
         (d d' : usb_device),
    __init__ fuel lun_arg (o0, d) = (Return tt, (o, d')) ->
    session o
    /\ lun o = lun_arg
    /\ sector_count o = None
    /\ block_size o = None
    /\ getitem (csw o) 12 = inr 0.
Proof.
  intros fuel lun_arg o0 o [sc tr] d'.
  unfold __init__. rewrite bind_run. unfold transfer at 1.
  cbn [script trace].
  destruct sc as [|[desc|f] sc]; try discriminate.
  pose proof (init_cases fuel desc lun_arg o0 sc
                (tr ++ [GetConfigurationDescriptor 0])) as C.
  cbv zeta in C.
  pose proof (scan_result_in_range fuel desc) as Rg.
  destruct (scan fuel desc) as [v|e|] eqn:Es;
    [|rewrite C; discriminate|rewrite C; discriminate].
  destruct ((s_in_ep v =? 0) || (s_out_ep v =? 0)) eqn:Ez;
    [rewrite C; discriminate|].
  apply orb_false_iff in Ez. destruct Ez as [Zi Zo].
  apply Z.eqb_neq in Zi. apply Z.eqb_neq in Zo.
  set (o1 := set_lun lun_arg _) in C.
  assert (exists d1, init_with_descriptor fuel desc lun_arg
                       (o0, mkDevice sc (tr ++ [GetConfigurationDescriptor 0]))
                     = open_session (o1, d1)
                     \/ exists e s1, init_with_descriptor fuel desc lun_arg
                       (o0, mkDevice sc (tr ++ [GetConfigurationDescriptor 0]))
                     = (Raise e, s1)) as [d1 [E|(e & s1 & E)]].
  { destruct sc as [|[a|f] sc].
    - exists d'. right. eauto.
    - destruct sc as [|r rest]; eexists; left; exact C.
    - exists d'. right. eauto. }
  2: { rewrite E. discriminate. }
  rewrite E. clear E C.
  assert (L1 : lun o1 = lun_arg) by reflexivity.
  assert (I1 : in_ep o1 = s_in_ep v) by reflexivity.
  assert (O1 : out_ep o1 = s_out_ep v) by reflexivity.
  assert (S1 : sector_count o1 = None) by reflexivity.
  assert (B1 : block_size o1 = None) by reflexivity.
  clearbody o1.
  destruct (Z_le_dec 0 lun_arg) as [Lo|Lo];
    [destruct (Z_lt_dec lun_arg 256) as [Hi|Hi]|].
  2,3: destruct (open_session_bad_lun o1 d1) as [o' E];
       [lia|rewrite E; discriminate].
  rewrite open_session_run by lia.
  set (o2 := with_buffers o1 _ _).
  destruct (with_buffers_fields o1 (cbw_template (lun o1)) csw_template)
    as (F1 & F2 & F3 & F4 & F5 & F6 & F7).
  fold o2 in F1, F2, F3, F4, F5, F6, F7.
  assert (S2 : session o2).
  { destruct Rg as (Ri & Ro & _ & _).
    unfold session. rewrite F1, F2, F3, F6, F7, I1, O1, L1.
    split; [apply template_lun_index|]. split; [apply cbw_template_head|].
    split; [reflexivity|]. split; [lia|]. split; lia. }
  clearbody o2.
  intros H.
  assert (K : keeps (steady true) (_inquire ;;; _wait_for_ready 100)).
  { apply keeps_bind; [apply steady_trans|apply inquire_steady|intros _].
    apply wait_for_ready_steady. }
  assert (Kc : keeps same_capacity (_inquire ;;; _wait_for_ready 100)).
  { apply keeps_bind; [apply same_capacity_trans|apply inquire_capacity|intros _].
    apply wait_for_ready_capacity. }
  specialize (K (o2, d1)). specialize (Kc (o2, d1)).
  rewrite H in K, Kc. cbn [fst snd] in K, Kc.
  split; [exact (steady_session _ _ _ K S2)|].
  destruct K as ((_ & _ & Lk) & _). destruct Kc as [Sc Bc].
  cbn [fst] in *.
  split; [congruence|]. split; [congruence|]. split; [congruence|].
  apply bind_returns in H. destruct H as (? & s3 & _ & H).
  apply (wait_for_ready_returns_ready _ _ _ H).
Qed.

Lemma constructed_session_witness :
  let d := mkDevice (init_replies sample_descriptor [] (Data [x00])
                       (bytearray 36) (status_wrapper 0)
                       ++ [ack; Data (status_wrapper 0)]) [] in
  let o := fst (snd (__init__ 10 0 (new_object, d))) in
  session o
  /\ lun o = 0
  /\ sector_count o = None
  /\ block_size o = None
  /\ getitem (csw o) 12 = inr 0.
Proof.
  intros d o.
  apply (constructed_session 10 0 new_object o d
           (snd (snd (__init__ 10 0 (new_object, d))))).
  vm_compute. reflexivity.
Defined.

(** How a command of a session that fits its fields can end. *)
Lemma session_command_outcome (o : USBMassStorage) (d : usb_device)
      (direction : Z) (command data : list byte) :
  session o -> len data < 2 ^ 32 -> 0 <= direction < 256 ->
  len command < 256 ->
  match fst (_scsi_command direction command data (o, d)) with
  | Return x => length x = length data /\ (direction <> _DIR_IN -> x = data)
  | Raise e => exists f, e = USBError f
  | Diverge => False
  end.
Proof.
  intros (S1 & _) Ld Hd Lc.
  destruct (scsi_command_shape o d direction command data)
    as (_ & _ & _ & _ & _ & _ & H & _).
  destruct (fst (_scsi_command direction command data (o, d))) as [x|e|];
    [exact H| |exact H].
  destruct H as [H|H]; [|exact H].
  rewrite build_cbw_ok in H by (assumption || lia). discriminate.
Qed.

(** X5: how [readblocks] and [writeblocks] can end on a session.  When
    the block number fits 32 bits and the block count fits 16 bits, a call
    returns, with a buffer of the same length ([writeblocks]: the same
    buffer), or raises [usb.core.USBError]; otherwise it raises
    [struct.error] before any transfer, leaving object and device as they
    were.  Nothing else is raised. *)
Theorem block_method_errors :
  forall (o : USBMassStorage) (d : usb_device) (block_num : Z)
         (buf : list byte),
    session o ->
    let fits := 0 <= block_num < 2 ^ 32 /\ len buf / 512 < 2 ^ 16 in
    (fits ->
     match fst (readblocks block_num buf (o, d)) with
     | Return b => length b = length buf
     | Raise e => exists f, e = USBError f
     | Diverge => False
     end
     /\ match fst (writeblocks block_num buf (o, d)) with
        | Return b => b = buf
        | Raise e => exists f, e = USBError f
        | Diverge => False
        end)
    /\ (~ fits ->
        readblocks block_num buf (o, d) = (Raise StructError, (o, d))
        /\ writeblocks block_num buf (o, d) = (Raise StructError, (o, d))).
Proof.
  intros o d block_num buf S fits. subst fits.
  pose proof S as (S1 & _ & _ & S4 & _).
  split.
  - intros [Hb Hc].
    pose proof (len_bound_of_count buf Hc) as Hl.
    rewrite readblocks_eq, writeblocks_eq by assumption.
    split.
    + assert (H := session_command_outcome o d _DIR_IN
                    (rw10_command _SCSI_CMD_READ_10 (lun o) block_num
                       (len buf / 512)) buf S).
      assert (Lc : len (rw10_command _SCSI_CMD_READ_10 (lun o) block_num
                          (len buf / 512)) < 256)
        by (unfold len; rewrite rw10_length; cbn; lia).
      specialize (H (proj2 Hl) ltac:(unfold _DIR_IN, _DIR_OUT; lia) Lc). revert H.
      destruct (fst (_scsi_command _ _ _ _)) as [x|e|]; intros H;
        [apply H|exact H|exact H].
    + assert (H := session_command_outcome o d _DIR_OUT
                    (rw10_command _SCSI_CMD_WRITE_10 (lun o) block_num
                       (len buf / 512)) buf S).
      assert (Lc : len (rw10_command _SCSI_CMD_WRITE_10 (lun o) block_num
                          (len buf / 512)) < 256)
        by (unfold len; rewrite rw10_length; cbn; lia).
      specialize (H (proj2 Hl) ltac:(unfold _DIR_IN, _DIR_OUT; lia) Lc). revert H.
      destruct (fst (_scsi_command _ _ _ _)) as [x|e|]; intros H;
        [apply H; discriminate|exact H|exact H].
  - intros N. apply blocks_overflow.
    assert (0 <= len buf / 512).
    { apply Z.div_pos; [unfold len; lia|lia]. }
    destruct (Z_le_dec 0 block_num); [|left; lia].
    destruct (Z_lt_dec block_num (2 ^ 32)); [|left; lia].
    right. left. intros G. apply N. split; lia.
Qed.

Lemma block_method_errors_witness :
  let o := sample_session 0 in
  let d := mkDevice [ack; Fail Stall] [] in
  session o
  /\ match fst (readblocks 7 (bytearray 512) (o, d)) with
     | Return b => length b = length (bytearray 512)
     | Raise e => exists f, e = USBError f
     | Diverge => False
     end
  /\ match fst (writeblocks 7 (bytearray 512) (o, d)) with
     | Return b => b = bytearray 512
     | Raise e => exists f, e = USBError f
     | Diverge => False
     end.
Proof.
  intros o d.
  assert (S : session o) by (apply sample_session_is_session; lia).
  split; [exact S|].
  apply (proj1 (block_method_errors o d 7 (bytearray 512) S)).
  split; [lia|reflexivity].
Defined.

(* ------------------------------------------------------------------ *)
(** * How long the scan runs *)

Section ScanTurns.

(** A turn of the loop that succeeds succeeds again on the variables it
    leaves, and moves by the same amount. *)
Lemma scan_record_again (desc : list byte) (i i' : nat) (v v' : scan_vars) :
  scan_record desc i v = inr (i', v') ->
  exists v'', scan_record desc i v' = inr (i', v'').
Proof.
  unfold scan_record, ebind.
  destruct (getitem desc i) as [e0|dl]; [discriminate|].
  destruct (getitem desc (i + 1)) as [e1|ty]; [discriminate|].
  destruct (ty =? DESC_CONFIGURATION).
  { destruct (getitem desc (i + 5)) as [e5|c]; [discriminate|].
    intros H. injection H as <- <-. eexists. reflexivity. }
  destruct (ty =? DESC_INTERFACE).
  { destruct (getitem desc (i + 2)) as [e2|n]; [discriminate|].
    destruct (getitem desc (i + 5)) as [e5|c]; [discriminate|].
    destruct (getitem desc (i + 6)) as [e6|sc]; [discriminate|].
    intros H. injection H as <- <-. eexists. reflexivity. }
  destruct ((ty =? DESC_ENDPOINT) && in_msc_interface v) eqn:Ee.
  - destruct (getitem desc (i + 2)) as [e2|a]; [discriminate|].
    destruct (negb (Z.land a _DIR_IN =? 0)); intros H;
      injection H as <- <-; cbn [in_msc_interface]; rewrite Ee;
      eexists; reflexivity.
  - intros H. injection H as <- <-. rewrite Ee. eexists. reflexivity.
Qed.

(** A turn that does not move is repeated for ever. *)
Lemma scan_loop_stuck (desc : list byte) (i : nat) (fuel : nat) :
  forall v v' : scan_vars,
    scan_record desc i v = inr (i, v') ->
    scan_loop fuel desc i v = Diverge.
Proof.
  induction fuel as [|fuel IH]; intros v v' E; cbn [scan_loop];
    [reflexivity|].
  destruct (scan_record_step _ _ _ _ _ E) as (L & _ & _).
  apply Nat.ltb_lt in L. rewrite L, E.
  destruct (scan_record_again _ _ _ _ _ E) as [v'' E'].
  apply (IH v' v'' E').
Qed.

(** With more turns than bytes left, the loop runs out of them only when
    it comes to a record whose length byte is 0, where a turn leaves the
    position as it is; and then it never ends. *)
Lemma scan_loop_bound (desc : list byte) (fuel : nat) :
  forall (i : nat) (v : scan_vars),
    (length desc - i < fuel)%nat ->
    scan_loop fuel desc i v = Diverge ->
    (forall n, scan_loop n desc i v = Diverge)
    /\ exists n j w w',
         scan_turns n desc i v = Some (j, w)
         /\ getitem desc j = inr 0
         /\ scan_record desc j w = inr (j, w').
Proof.
  induction fuel as [|fuel IH]; intros i v F; [lia|].
  cbn [scan_loop].
  destruct (Nat.ltb_spec i (length desc)) as [L|L]; [|discriminate].
  destruct (scan_record desc i v) as [e|[i' v']] eqn:E; [discriminate|].
  destruct (scan_record_step _ _ _ _ _ E) as (_ & (dl & Gd & ->) & _).
  pose proof (getitem_range _ _ _ Gd) as Rd.
  destruct (Z.eq_dec dl 0) as [->|N].
  - intros _. cbn [Z.to_nat] in E. rewrite Nat.add_0_r in E. split.
    + intros n. apply (scan_loop_stuck desc i n v v' E).
    + exists 0%nat, i, v, v'. repeat split; assumption.
  - intros D.
    destruct (IH (i + Z.to_nat dl)%nat v' ltac:(lia) D)
      as [A (n & j & w & w' & T & G & R)].
    apply Nat.ltb_lt in L. split.
    + intros [|m]; cbn [scan_loop]; [reflexivity|]. rewrite L, E. apply A.
    + exists (S n), j, w, w'. cbn [scan_turns]. rewrite L, E.
      repeat split; assumption.
Qed.

(** A loop that ends does so whatever number of turns it is given
    beyond those it needs. *)
Lemma scan_loop_more (desc : list byte) (fuel : nat) :
  forall (i : nat) (v : scan_vars) (k : nat),
    scan_loop fuel desc i v <> Diverge ->
    scan_loop (fuel + k) desc i v = scan_loop fuel desc i v.
Proof.
  induction fuel as [|fuel IH]; intros i v k; cbn [scan_loop Nat.add].
  - intros H. contradiction.
  - destruct (i <? length desc)%nat; [|reflexivity].
    destruct (scan_record desc i v) as [e|[i' v']]; [reflexivity|].
    apply IH.
Qed.

End ScanTurns.

(** A sound descriptor, by contrast: the scan of [sample_descriptor]
    starts its turns at 0, 9, 18 and 25, where the length bytes are 9, 9, 7
    and 7, and ends after the fourth. *)
Lemma sample_scan_positions :
  map (fun n => option_map fst (scan_turns n sample_descriptor 0 scan_start))
      [0; 1; 2; 3; 4; 5]%nat
  = [Some 0; Some 9; Some 18; Some 25; Some 32; None]%nat.
Proof. reflexivity. Qed.

(** X10: the scan makes at most one turn per byte of the descriptor, or
    never ends.  Given more turns than the descriptor has bytes, the loop
    does what it does given one turn more than bytes; and if that is not
    enough, no number of turns is, and the scan has come, after some number
    of turns, to a record whose length byte is 0, where a turn of the loop
    leaves the position [i] as it is. *)
Theorem scan_turn_bound :
  forall (config_descriptor : list byte) (k : nat),
    let enough := S (length config_descriptor) in
    scan (enough + k) config_descriptor = scan enough config_descriptor
    /\ (scan enough config_descriptor = Diverge ->
        (forall n, scan n config_descriptor = Diverge)
        /\ exists n j v v',
             scan_turns n config_descriptor 0 scan_start = Some (j, v)
             /\ getitem config_descriptor j = inr 0
             /\ scan_record config_descriptor j v = inr (j, v')).
Proof.
  intros desc k enough. subst enough. unfold scan.
  assert (B : scan_loop (S (length desc)) desc 0 scan_start = Diverge ->
              (forall n, scan_loop n desc 0 scan_start = Diverge)
              /\ exists n j v v',
                   scan_turns n desc 0 scan_start = Some (j, v)
                   /\ getitem desc j = inr 0
                   /\ scan_record desc j v = inr (j, v')).
  { apply scan_loop_bound. lia. }
  split; [|exact B].
  destruct (scan_loop (S (length desc)) desc 0 scan_start) as [v|e|] eqn:E.
  - rewrite scan_loop_more; [exact E|rewrite E; discriminate].
  - rewrite scan_loop_more; [exact E|rewrite E; discriminate].
  - apply B. reflexivity.
Qed.

(* ------------------------------------------------------------------ *)
(** * A LUN that is no byte *)

(** X12: a LUN outside 0..255 is found out late.  When the descriptor has
    the two endpoints, [__init__] with such a LUN has the configuration set
    and Get-Max-LUN sent before [self.cbw[14] = self.lun] raises the range
    error of the byte store; no SCSI command is sent. *)
Theorem lun_out_of_range_rejected :
  forall (fuel : nat) (lun_arg : Z) (desc a : list byte) (r : reply)
         (rest : list reply) (tr : list request) (v : scan_vars),
    scan fuel desc = Return v ->
    s_in_ep v <> 0 -> s_out_ep v <> 0 ->
    ~ (0 <= lun_arg < 256) ->
    let result :=
      __init__ fuel lun_arg
        (new_object, mkDevice (Data desc :: Data a :: r :: rest) tr) in
    fst result = Raise ByteRange
    /\ script (snd (snd result)) = rest
    /\ trace (snd (snd result))
       = tr ++ [GetConfigurationDescriptor 0;
                SetConfiguration (config_value v);
                get_max_lun_request v].
Proof.
  intros fuel lun_arg desc a r rest tr v Es Zi Zo N result.
  assert (R : exists o',
             result
             = (Raise ByteRange,
                (o', mkDevice rest
                       ((tr ++ [GetConfigurationDescriptor 0])
                          ++ [SetConfiguration (config_value v);
                              get_max_lun_request v])))).
  { subst result. unfold __init__. rewrite bind_run. unfold transfer at 1.
    cbn [script trace].
    rewrite (init_reaches_session fuel desc lun_arg v new_object a r rest _
               Es Zi Zo).
    apply open_session_bad_lun. exact N. }
  destruct R as [o' ->]. cbn [fst snd script trace].
  split; [reflexivity|]. split; [reflexivity|].
  rewrite <- app_assoc. reflexivity.
Qed.

Lemma lun_out_of_range_rejected_witness :
  let result :=
    __init__ 10 256
      (new_object,
       mkDevice (Data sample_descriptor :: Data [] :: Data [x00] :: [ack]) []) in
  fst result = Raise ByteRange
  /\ script (snd (snd result)) = [ack]
  /\ trace (snd (snd result))
     = [] ++ [GetConfigurationDescriptor 0; SetConfiguration 1;
              CtrlTransfer 0xA1 254 0 (Some 0) 1].
Proof.
  apply (lun_out_of_range_rejected 10 256 sample_descriptor [] (Data [x00])
           [ack] [] sample_vars).
  - reflexivity.
  - discriminate.
  - discriminate.
  - lia.
Defined.

(* ------------------------------------------------------------------ *)
(** * The numbers of a capacity *)

Lemma be_decode_bound (bs : list byte) :
  be_decode bs < 256 ^ Z.of_nat (length bs).
Proof.
  induction bs as [|b bs IH] using rev_ind.
  - reflexivity.
  - rewrite be_decode_app, length_app. cbn [length].
    replace (Z.of_nat (length bs + 1)) with (Z.succ (Z.of_nat (length bs)))
      by lia.
    rewrite Z.pow_succ_r by lia. change (256 ^ Z.of_nat 1) with 256.
    assert (D : be_decode [b] = byte_val b) by (unfold be_decode; cbn; lia).
    pose proof (byte_val_range b). rewrite D. lia.
Qed.

(** Encoding what was decoded gives the bytes back. *)
Lemma be_bytes_be_decode (bs : list byte) :
  be_bytes (length bs) (be_decode bs) = bs.
Proof.
  induction bs as [|b bs IH] using rev_ind; [reflexivity|].
  rewrite length_app, Nat.add_1_r. cbn [length].
  unfold be_bytes. cbn [le_bytes rev].
  rewrite be_decode_app. cbn [length]. change (256 ^ Z.of_nat 1) with 256.
  pose proof (byte_val_range b) as Rb.
  assert (D : be_decode [b] = byte_val b) by (unfold be_decode; simpl; lia).
  rewrite D.
  replace ((be_decode bs * 256 + byte_val b) / 256) with (be_decode bs)
    by (apply Z.div_unique with (byte_val b); lia).
  fold (be_bytes (length bs) (be_decode bs)). rewrite IH.
  f_equal. f_equal. apply byte_val_inj. rewrite byte_wrap_val.
  symmetry. apply Z.mod_unique with (be_decode bs); lia.
Qed.

Lemma skipn_repeat_of {A} (x : A) (n m : nat) :
  skipn n (repeat x m) = repeat x (m - n).
Proof.
  revert m. induction n as [|n IH]; intros m.
  - rewrite Nat.sub_0_r. reflexivity.
  - destruct m as [|m]; [reflexivity|]. cbn [repeat skipn Nat.sub]. apply IH.
Qed.

(** A reply of at most eight bytes, in the buffer of eight zero bytes. *)
Lemma fill_short_capacity (resp : list byte) :
  (length resp <= 8)%nat ->
  fill (bytearray 8) resp = resp ++ repeat x00 (8 - length resp).
Proof.
  intros L. unfold fill, bytearray.
  rewrite repeat_length, firstn_all2 by exact L.
  rewrite skipn_repeat_of. reflexivity.
Qed.

(** X13: whatever the device sends as capacity data, the numbers stored
    fit.  [_read_capacity] reads into a buffer of eight zero bytes, so a
    reply of any length unpacks: the sector count is between 1 and 2^32,
    the block size below 2^32; a reply of fewer than eight bytes is read
    as if it went on with zero bytes, and an empty reply gives a count of
    1 and a size of 0. *)
Theorem capacity_is_bounded :
  forall (o : USBMassStorage) (w resp st : list byte) (rest : list reply)
         (tr : list request),
    (15 <= length (cbw o))%nat ->
    let result :=
      _read_capacity
        (o, mkDevice (Data w :: Data resp :: Data st :: rest) tr) in
    fst result = Return tt
    /\ exists n b,
         sector_count (fst (snd result)) = Some n
         /\ block_size (fst (snd result)) = Some b
         /\ 1 <= n <= 2 ^ 32
         /\ 0 <= b < 2 ^ 32
         /\ ((length resp <= 8)%nat ->
             let padded := resp ++ repeat x00 (8 - length resp) in
             n = be_decode (firstn 4 padded) + 1
             /\ b = be_decode (skipn 4 padded))
         /\ (resp = [] -> n = 1 /\ b = 0).
Proof.
  intros o w resp st rest tr L result. subst result.
  rewrite (read_capacity_run o w resp st rest tr L). cbv zeta.
  cbn [fst snd].
  set (response := fill (bytearray 8) resp).
  assert (Lr : length response = 8%nat)
    by (subst response; rewrite fill_length; reflexivity).
  split; [reflexivity|].
  exists (be_decode (firstn 4 response) + 1), (be_decode (skipn 4 response)).
  split; [destruct (after_command _ _ _); reflexivity|].
  split; [destruct (after_command _ _ _); reflexivity|].
  pose proof (be_decode_nonneg (firstn 4 response)) as N1.
  pose proof (be_decode_bound (firstn 4 response)) as B1.
  pose proof (be_decode_nonneg (skipn 4 response)) as N2.
  pose proof (be_decode_bound (skipn 4 response)) as B2.
  rewrite length_firstn, Lr in B1. rewrite length_skipn, Lr in B2.
  change (256 ^ Z.of_nat (Nat.min 4 8)) with (2 ^ 32) in B1.
  change (256 ^ Z.of_nat (8 - 4)) with (2 ^ 32) in B2.
  split; [lia|]. split; [lia|]. split.
  - intros G. subst response. rewrite fill_short_capacity by exact G.
    split; reflexivity.
  - intros ->. subst response. split; reflexivity.
Qed.

Lemma capacity_is_bounded_witness :
  let resp := [xff; xff; xff; xff; x00; x00; x02] in
  let result :=
    _read_capacity
      (sample_session 0,
       mkDevice (ack :: Data resp :: Data (status_wrapper 0) :: []) []) in
  fst result = Return tt
  /\ exists n b,
       sector_count (fst (snd result)) = Some n
       /\ block_size (fst (snd result)) = Some b
       /\ 1 <= n <= 2 ^ 32
       /\ 0 <= b < 2 ^ 32
       /\ ((length resp <= 8)%nat ->
           let padded := resp ++ repeat x00 (8 - length resp) in
           n = be_decode (firstn 4 padded) + 1
           /\ b = be_decode (skipn 4 padded))
       /\ (resp = [] -> n = 1 /\ b = 0).
Proof.
  intros resp.
  apply (capacity_is_bounded (sample_session 0) [] resp (status_wrapper 0)
           [] []).
  cbn. lia.
Defined.

(** X14: the last block the device reports can be asked for.  After
    [_read_capacity] on an eight-byte reply, [readblocks(sector_count - 1,
    buf)] packs without error, and the four address bytes of its command
    are the first four bytes the device sent: the big-endian packing of the
    command undoes the big-endian unpacking of the capacity. *)
Theorem last_block_is_addressable :
  forall (o : USBMassStorage) (w resp st buf : list byte)
         (rest : list reply) (tr : list request),
    length resp = 8%nat ->
    (15 <= length (cbw o))%nat ->
    0 <= lun o < 256 ->
    len buf / 512 < 2 ^ 16 ->
    let s1 :=
      snd (_read_capacity
             (o, mkDevice (Data w :: Data resp :: Data st :: rest) tr)) in
    exists n,
      sector_count (fst s1) = Some n
      /\ readblocks (n - 1) buf s1
         = _scsi_command _DIR_IN
             ([x28; byte_wrap (lun o)] ++ firstn 4 resp ++ [x00]
                ++ be_bytes 2 (len buf / 512) ++ [x00]) buf s1.
Proof.
  intros o w resp st buf rest tr Lr L Hl Hc s1. subst s1.
  rewrite (read_capacity_run o w resp st rest tr L). cbv zeta.
  rewrite (fill_exact (bytearray 8) resp) by (rewrite bytearray_length; exact Lr).
  cbn [fst snd].
  exists (be_decode (firstn 4 resp) + 1).
  split; [destruct (after_command _ _ _); reflexivity|].
  set (o1 := set_sector_count _ _).
  assert (E : lun o1 = lun o) by (subst o1; destruct o; reflexivity).
  pose proof (be_decode_nonneg (firstn 4 resp)) as N1.
  pose proof (be_decode_bound (firstn 4 resp)) as B1.
  assert (L4 : length (firstn 4 resp) = 4%nat)
    by (rewrite length_firstn; lia).
  rewrite L4 in B1. change (256 ^ Z.of_nat 4) with (2 ^ 32) in B1.
  rewrite readblocks_eq by (rewrite ?E; lia).
  rewrite E. unfold rw10_command.
  replace (be_decode (firstn 4 resp) + 1 - 1) with (be_decode (firstn 4 resp))
    by lia.
  rewrite <- L4 at 1. rewrite be_bytes_be_decode. reflexivity.
Qed.

Lemma last_block_is_addressable_witness :
  let resp := [x00; x00; x03; xe7; x00; x00; x02; x00] in
  let s1 :=
    snd (_read_capacity
           (sample_session 0,
            mkDevice (ack :: Data resp :: Data (status_wrapper 0) :: []) [])) in
  exists n,
    sector_count (fst s1) = Some n
    /\ readblocks (n - 1) (bytearray 512) s1
       = _scsi_command _DIR_IN
           ([x28; byte_wrap (lun (sample_session 0))] ++ firstn 4 resp ++ [x00]
              ++ be_bytes 2 (len (bytearray 512) / 512) ++ [x00])
           (bytearray 512) s1.
Proof.
  intros resp.
  apply (last_block_is_addressable (sample_session 0) [] resp
           (status_wrapper 0) (bytearray 512) [] []).
  - reflexivity.
  - cbn. lia.
  - cbn. lia.
  - reflexivity.
Defined.

(* ------------------------------------------------------------------ *)
(** * A status reply that is too short *)

Section ShortStatus.

Lemma status_preset_length (st0 : list byte) :
  length st0 = 13%nat -> length (status_preset st0) = 13%nat.
Proof.
  intros H. unfold status_preset.
  rewrite length_app, length_firstn. cbn [length]. rewrite length_skipn. lia.
Qed.

(** A reply that does not reach the status byte leaves it as preset. *)
Lemma short_fill_status (st0 st : list byte) :
  length st0 = 13%nat -> (length st < 13)%nat ->
  getitem (fill (status_preset st0) st) 12 = inr 1.
Proof.
  intros H0 H. unfold getitem, fill.
  rewrite status_preset_length by exact H0.
  rewrite firstn_all2 by lia.
  rewrite nth_error_app2 by lia.
  rewrite nth_error_skipn.
  replace (length st + (12 - length st))%nat with 12%nat by lia.
  unfold status_preset.
  rewrite nth_error_app2 by (rewrite length_firstn; lia).
  rewrite length_firstn, H0. reflexivity.
Qed.

(** A reply that does not reach the status byte leaves it as it was. *)
Lemma short_fill_keeps (st0 st : list byte) :
  length st0 = 13%nat -> (length st < 13)%nat ->
  getitem (fill st0 st) 12 = getitem st0 12.
Proof.
  intros H0 H. unfold getitem, fill. rewrite H0.
  rewrite firstn_all2 by lia.
  rewrite nth_error_app2 by lia.
  rewrite nth_error_skipn.
  replace (length st + (12 - length st))%nat with 12%nat by lia.
  reflexivity.
Qed.

(** A turn of the loop, answered, for a status reply to the
    Test-Unit-Ready of any length. *)
Lemma retry_run_any {A} (K : list byte -> M A) (o : USBMassStorage)
      (st sr sd sc tc : list byte) (rest : list reply) (tr : list request) :
  (8 <= length (cbw o))%nat ->
  length st = 13%nat -> length sr = 18%nat ->
  (sleep ;;;
   sense_response' <- _scsi_command _DIR_IN sense_command sr ;;
   _scsi_command _DIR_OUT (test_ready_command (lun o)) [] ;;;
   K sense_response')
    (with_buffers o (tur_cbw (cbw o) (lun o)) st,
     mkDevice (ack :: Data sd :: Data sc :: ack :: Data tc :: rest) tr)
  = K (fill sr sd)
      (with_buffers o (tur_cbw (cbw o) (lun o)) (fill (fill st sc) tc),
       mkDevice rest (tr ++ [Sleep] ++ sense_events o ++ tur_events o)).
Proof.
  intros L Hst Hsr.
  pose proof (with_buffers_fields o (tur_cbw (cbw o) (lun o)) st)
    as (Fi & Fo & Fl & _ & _ & Fc & Fs).
  unfold bind at 1. unfold sleep at 1. cbn [script trace].
  erewrite bind_return.
  2:{ eapply scsi_command_data with (r := sd) (st := sc) (w := []).
      - rewrite Fc. apply build_cbw_ok.
        + apply cbw_image_long. exact L.
        + unfold len. rewrite Hsr. reflexivity.
        + unfold _DIR_IN. lia.
        + reflexivity.
      - destruct sr; [discriminate|reflexivity].
      - reflexivity. }
  rewrite with_buffers_after.
  unfold tur_cbw at 1. rewrite cbw_image_twice by (try reflexivity; lia).
  change (_DIR_IN =? _DIR_IN) with true. cbv iota.
  pose proof (with_buffers_fields o
                (cbw_image (cbw o) _DIR_IN sense_command (len sr))
                (fill st sc)) as (Gi & Go & Gl & _ & _ & Gc & Gs).
  erewrite bind_return.
  2:{ eapply scsi_command_no_data with (st := tc) (w := []).
      - rewrite Gc. apply build_cbw_ok.
        + apply cbw_image_long. exact L.
        + reflexivity.
        + unfold _DIR_OUT. lia.
        + reflexivity.
      - reflexivity. }
  rewrite with_buffers_after.
  rewrite cbw_image_twice by (try reflexivity; lia).
  cbn [trace].
  unfold exchange. rewrite Fi, Fo, Fs, Gi, Go, Gs, fill_length, Hst, Hsr.
  change (nonempty []) with false. cbv iota.
  replace (nonempty sr) with true by (destruct sr; [discriminate|reflexivity]).
  change (_DIR_IN =? _DIR_IN) with true. cbv iota.
  unfold sense_events, tur_events, sense_cbw, tur_cbw.
  assert (Hl : len sr = 18) by (unfold len; rewrite Hsr; reflexivity).
  rewrite Hl. change (len []) with 0.
  rewrite !cbw_image_twice by (try reflexivity; lia).
  rewrite <- !app_assoc. reflexivity.
Qed.

(** [_wait_for_ready] up to its first Test-Unit-Ready, for a status reply
    of any length. *)
Lemma wait_for_ready_first_any (tries : Z) (o : USBMassStorage)
      (st : list byte) (more : list reply) (tr : list request) :
  length (csw o) = 13%nat -> (15 <= length (cbw o))%nat ->
  0 <= lun o < 256 ->
  _wait_for_ready tries (o, mkDevice (ack :: Data st :: more) tr)
  = (wait_loop (Z.to_nat tries) (test_ready_command (lun o))
               sense_command (bytearray 18) ;;; final_check)
      (with_buffers o (tur_cbw (cbw o) (lun o))
         (fill (status_preset (csw o)) st),
       mkDevice more (tr ++ tur_events o)).
Proof.
  intros Ls Lc Hl. unfold _wait_for_ready.
  rewrite bind_run.
  assert (E1 : self_csw_setitem 12 1 (o, mkDevice (ack :: Data st :: more) tr)
               = (Return tt,
                  (set_csw (status_preset (csw o)) o,
                   mkDevice (ack :: Data st :: more) tr))).
  { unfold self_csw_setitem, bind, get_self, lift, setitem. cbn [fst].
    rewrite Ls. reflexivity. }
  rewrite E1. clear E1.
  set (o1 := set_csw _ o).
  assert (F : in_ep o1 = in_ep o /\ out_ep o1 = out_ep o /\ lun o1 = lun o
              /\ cbw o1 = cbw o /\ csw o1 = status_preset (csw o)).
  { subst o1. destruct o. repeat split. }
  destruct F as (Fi & Fo & Fl & Fc & Fs).
  rewrite bind_run. unfold get_self at 1. cbn [fst].
  rewrite Fl, test_ready_built by exact Hl.
  rewrite bind_run. unfold lift at 1, ret at 1.
  rewrite sense_built.
  rewrite bind_run. unfold lift at 1, ret at 1.
  erewrite bind_return.
  2:{ eapply scsi_command_no_data with (w := []) (st := st).
      - rewrite Fc. apply build_cbw_ok.
        + exact Lc.
        + reflexivity.
        + unfold _DIR_OUT. lia.
        + reflexivity.
      - reflexivity. }
  rewrite after_command_buffers. rewrite Fs.
  replace (with_buffers o1 _ (fill (status_preset (csw o)) st))
    with (with_buffers o (tur_cbw (cbw o) (lun o))
            (fill (status_preset (csw o)) st))
    by (subst o1; destruct o; reflexivity).
  unfold exchange. rewrite Fi, Fo, Fs, status_preset_length by exact Ls.
  cbn [nonempty app trace].
  reflexivity.
Qed.

Lemma final_check_steady (p : bool) : keeps (steady p) final_check.
Proof.
  unfold final_check.
  apply keeps_bind; [apply steady_trans|apply keeps_get_self, steady_refl|intros self].
  apply keeps_bind; [apply steady_trans|apply keeps_lift, steady_refl|intros st].
  destruct (negb (st =? 0));
    [apply keeps_raise, steady_refl|apply keeps_ret, steady_refl].
Qed.

(** What a computation sends first stays first when more follows. *)
Lemma sends_first_bind {A B} (m : M A) (k : A -> M B) (s : state)
      (pre : list request) :
  (exists added, trace (snd (snd (m s))) = trace (snd s) ++ pre ++ added) ->
  (forall a, keeps (steady true) (k a)) ->
  exists added,
    trace (snd (snd (bind m k s))) = trace (snd s) ++ pre ++ added.
Proof.
  intros [a1 H] Hk. unfold bind.
  destruct (m s) as [[a|e|] s1]; cbn [snd] in *;
    [|exists a1; exact H|exists a1; exact H].
  destruct (Hk a s1) as (_ & _ & _ & (a2 & T & _)).
  exists (a1 ++ a2). rewrite T, H, <- !app_assoc. reflexivity.
Qed.

End ShortStatus.

(** X15: a status reply too short to carry the status byte leaves
    [self.csw[12]] as it was, and [_wait_for_ready] presets that byte to 1
    once only, before its first Test-Unit-Ready.  So when the device
    answers the first Test-Unit-Ready with fewer than 13 bytes, whatever
    the byte held before, the device is taken as not ready: without tries
    left the call raises "Out of tries" after this one command, with tries
    left it sleeps and sends a Request-Sense.  But when it answers a later
    Test-Unit-Ready so, the byte is the status of the Request-Sense before
    it: after a Test-Unit-Ready that failed and a Request-Sense that
    reported status 0, a short reply to the next Test-Unit-Ready makes the
    call return as if the device were ready. *)
Theorem short_status_keeps_status_byte :
  forall (tries : Z) (o : USBMassStorage) (st : list byte)
         (more : list reply) (tr : list request),
    session o ->
    (length st < 13)%nat ->
    let first :=
      _wait_for_ready tries (o, mkDevice (ack :: Data st :: more) tr) in
    (tries <= 0 ->
     fst first = Raise OutOfTries
     /\ script (snd (snd first)) = more
     /\ trace (snd (snd first)) = tr ++ tur_events o)
    /\ (0 < tries ->
        exists added,
          trace (snd (snd first))
          = (tr ++ tur_events o)
              ++ [Sleep;
                  Write (out_ep o) (sense_cbw (tur_cbw (cbw o) (lun o)))]
              ++ added)
    /\ (forall r : round,
           0 < tries ->
           csw_failed (failed r) ->
           csw_ready (sense_status r) ->
           let later :=
             _wait_for_ready tries
               (o, mkDevice (round_replies r ++ [ack; Data st] ++ more) tr) in
           fst later = Return tt
           /\ script (snd (snd later)) = more
           /\ trace (snd (snd later))
              = tr ++ round_events o ++ tur_events o).
Proof.
  intros tries o st more tr (S1 & _ & S3 & S4 & _) Hs result.
  assert (Lc : (15 <= length (cbw o))%nat) by lia.
  pose proof (wait_for_ready_first_any tries o st more tr S3 Lc S4) as E.
  fold result in E.
  set (o2 := with_buffers o (tur_cbw (cbw o) (lun o))
               (fill (status_preset (csw o)) st)) in E.
  set (d2 := mkDevice more (tr ++ tur_events o)) in E.
  destruct (with_buffers_fields o (tur_cbw (cbw o) (lun o))
              (fill (status_preset (csw o)) st))
    as (Fi & Fo & Fl & _ & _ & Fc & Fs).
  fold o2 in Fi, Fo, Fl, Fc, Fs.
  assert (G : getitem (csw o2) 12 = inr 1)
    by (rewrite Fs; apply short_fill_status; assumption).
  split; [|split].
  - intros T. rewrite E.
    replace (Z.to_nat tries) with 0%nat by lia.
    erewrite bind_return by (eapply wait_loop_exhausted; exact G).
    rewrite (final_check_failed o2 d2 1 G) by lia.
    cbn [fst snd script trace]. repeat split.
  - intros T. rewrite E.
    destruct (Z.to_nat tries) as [|n] eqn:En; [lia|].
    change (tr ++ tur_events o) with (trace (snd (o2, d2))).
    apply sends_first_bind; [|intros _; apply final_check_steady].
    rewrite (wait_loop_failed n _ _ _ o2 d2 1 G) by lia.
    rewrite bind_run. unfold sleep at 1. cbn [fst snd script trace].
    set (s3 := (o2, mkDevice more ((tr ++ tur_events o) ++ [Sleep]))).
    assert (H : exists added,
               trace (snd (snd
                 ((sense_response' <-
                     _scsi_command _DIR_IN sense_command (bytearray 18) ;;
                   _scsi_command _DIR_OUT (test_ready_command (lun o)) [] ;;;
                   wait_loop n (test_ready_command (lun o)) sense_command
                     sense_response') s3)))
               = trace (snd s3)
                   ++ [Write (out_ep o)
                         (sense_cbw (tur_cbw (cbw o) (lun o)))]
                   ++ added).
    { apply sends_first_bind.
      - subst s3.
        destruct (scsi_command_shape o2 (mkDevice more
                     ((tr ++ tur_events o) ++ [Sleep]))
                    _DIR_IN sense_command (bytearray 18))
          as (_ & _ & _ & _ & _ & _ & _ & [[_ B]|[B (k & K1 & K2)]]).
        + exfalso. revert B.
          pose proof (scsi_command_trace o2 (mkDevice more
                        ((tr ++ tur_events o) ++ [Sleep]))
                        _DIR_IN sense_command (bytearray 18)
                        (sense_cbw (cbw o2))) as Q.
          destruct Q as (k & K1 & K2).
          { apply build_cbw_ok.
            - rewrite Fc. apply cbw_image_long. lia.
            - reflexivity.
            - unfold _DIR_IN. lia.
            - reflexivity. }
          rewrite K2. destruct k as [|k]; [lia|].
          cbn [trace exchange firstn]. intros B.
          apply (f_equal (@length request)) in B.
          rewrite length_app in B. cbn [length] in B. lia.
        + rewrite build_cbw_ok in B.
          2: rewrite Fc; apply cbw_image_long; lia.
          2: reflexivity.
          2: unfold _DIR_IN; lia.
          2: reflexivity.
          assert (B' : cbw (fst (snd (_scsi_command _DIR_IN sense_command
                                        (bytearray 18)
                                        (o2, mkDevice more
                                               ((tr ++ tur_events o) ++ [Sleep])))))
                       = sense_cbw (cbw o2)).
          { apply (f_equal (fun x : exn + list byte =>
                              match x with inr y => y | inl _ => [] end))
              in B.
            symmetry. exact B. }
          rewrite B' in K2. rewrite K2.
          destruct k as [|k]; [lia|].
          cbn [snd trace exchange firstn]. rewrite Fo, Fc.
          eexists. reflexivity.
      - intros a.
        apply keeps_bind; [apply steady_trans| |intros _].
        + apply scsi_command_steady. cbn. lia.
        + apply wait_loop_steady; cbn; lia. }
    destruct H as [added H]. subst s3. cbn [snd trace] in H.
    exists added. subst d2. cbn [script trace]. rewrite H.
    rewrite <- !app_assoc. reflexivity.
  - clear E G Fi Fo Fl Fc Fs. clear o2 d2. clear result.
    intros [fc sd sc] T [Lf (s & Gf & Nf)] [Lsc Gsc] later.
    cbn [failed sense_status] in *.
    assert (R : later
                = (Return tt,
                   (with_buffers o (tur_cbw (cbw o) (lun o))
                      (fill (fill fc sc) st),
                    mkDevice more
                      ((tr ++ tur_events o)
                         ++ [Sleep] ++ sense_events o ++ tur_events o)))).
    { subst later.
      cbn [round_replies failed sense_data sense_status app].
      rewrite wait_for_ready_first by assumption.
      destruct (Z.to_nat tries) as [|n] eqn:En; [lia|].
      set (o2 := with_buffers o (tur_cbw (cbw o) (lun o)) fc).
      assert (G2 : getitem (csw o2) 12 = inr s)
        by (subst o2; destruct o; exact Gf).
      erewrite bind_return.
      2:{ rewrite (wait_loop_failed n _ _ _ o2 _ s G2 Nf).
          subst o2.
          rewrite (retry_run_any
                     (fun x => wait_loop n (test_ready_command (lun o))
                                 sense_command x)
                     o fc (bytearray 18) sd sc st more
                     (tr ++ tur_events o))
            by (try assumption; try apply bytearray_length; lia).
          apply wait_loop_ready.
          replace (csw (with_buffers o (tur_cbw (cbw o) (lun o))
                          (fill (fill fc sc) st)))
            with (fill (fill fc sc) st) by (destruct o; reflexivity).
          rewrite short_fill_keeps
            by (try assumption; rewrite fill_length; assumption).
          rewrite (fill_exact fc sc) by lia. exact Gsc. }
      apply final_check_ready.
      replace (csw (with_buffers o (tur_cbw (cbw o) (lun o))
                      (fill (fill fc sc) st)))
        with (fill (fill fc sc) st) by (destruct o; reflexivity).
      rewrite short_fill_keeps
        by (try assumption; rewrite fill_length; assumption).
      rewrite (fill_exact fc sc) by lia. exact Gsc. }
    rewrite R. cbn [fst snd script trace].
    split; [reflexivity|]. split; [reflexivity|].
    unfold round_events. rewrite <- !app_assoc. reflexivity.
Qed.

Lemma short_status_keeps_status_byte_witness :
  let o := sample_session 0 in
  let first := _wait_for_ready 0 (o, mkDevice (ack :: Data [] :: [ack]) []) in
  let r := mkRound (status_wrapper 1) (bytearray 18) (status_wrapper 0) in
  let later :=
    _wait_for_ready 100
      (o, mkDevice (round_replies r ++ [ack; Data []] ++ [ack]) []) in
  session o
  /\ (fst first = Raise OutOfTries
      /\ script (snd (snd first)) = [ack]
      /\ trace (snd (snd first)) = [] ++ tur_events o)
  /\ (fst later = Return tt
      /\ script (snd (snd later)) = [ack]
      /\ trace (snd (snd later)) = [] ++ round_events o ++ tur_events o).
Proof.
  intros o first r later.
  assert (S : session o) by (apply sample_session_is_session; lia).
  split; [exact S|].
  split.
  - apply (proj1 (short_status_keeps_status_byte 0 o [] [ack] [] S
                    ltac:(cbn; lia))).
    lia.
  - apply (proj2 (proj2 (short_status_keeps_status_byte 100 o [] [ack] [] S
                           ltac:(cbn; lia))) r).
    + lia.
    + split; [reflexivity|]. exists 1. split; [reflexivity|lia].
    + split; reflexivity.
Defined.

(* ------------------------------------------------------------------ *)
(** * The command block, read back *)

Section CommandBlockValues.

Lemma le_decode_le_bytes (n : nat) (v : Z) :
  0 <= v < 256 ^ Z.of_nat n -> le_decode (le_bytes n v) = v.
Proof.
  revert v. induction n as [|n IH]; intros v Hv.
  - change (256 ^ Z.of_nat 0) with 1 in Hv. cbn. lia.
  - rewrite Nat2Z.inj_succ, Z.pow_succ_r in Hv by lia.
    cbn [le_bytes le_decode fold_right]. fold (le_decode (le_bytes n (v / 256))).
    rewrite IH, byte_wrap_val.
    + pose proof (Z.div_mod v 256). lia.
    + split; [apply Z.div_pos; lia|apply Z.div_lt_upper_bound; lia].
Qed.

(** A command block is built only from values that fit their fields. *)
Lemma build_cbw_fits (c : list byte) (direction : Z)
      (command data c' : list byte) :
  build_cbw c direction command data = inr c' ->
  0 <= len data < 2 ^ 32 /\ 0 <= direction < 256 /\ 0 <= len command < 256.
Proof.
  unfold build_cbw, ebind, Struct.pack_into, Struct.pack, Struct.encode,
    Struct.size.
  change (2 ^ (8 * Z.of_nat 4)) with (2 ^ 32).
  change (2 ^ (8 * Z.of_nat 1)) with 256.
  destruct ((0 <=? len data) && (len data <? 2 ^ 32)) eqn:E1; [|discriminate].
  destruct ((0 <=? direction) && (direction <? 256)) eqn:E2; [|discriminate].
  destruct ((0 <=? len command) && (len command <? 256)) eqn:E3;
    [|discriminate].
  intros _.
  apply andb_true_iff in E1, E2, E3.
  destruct E1 as [A1 B1], E2 as [A2 B2], E3 as [A3 B3].
  apply Z.leb_le in A1, A2, A3. apply Z.ltb_lt in B1, B2, B3.
  repeat split; assumption.
Qed.

Lemma getitem_nth_error (buf : list byte) (i : nat) (b : byte) :
  nth_error buf i = Some b -> getitem buf i = inr (byte_val b).
Proof. unfold getitem. intros ->. reflexivity. Qed.

Lemma cbw_image_size (c : list byte) (direction : Z) (command : list byte)
      (n : Z) :
  (15 <= length c)%nat ->
  length (cbw_image c direction command n)
  = Nat.max (length c) (15 + length command).
Proof.
  intros L. unfold cbw_image.
  rewrite !length_app, length_firstn, length_skipn, le_bytes_length.
  cbn [length]. lia.
Qed.

(** The object keeps the command block a command was sent with. *)
Lemma scsi_command_block (o : USBMassStorage) (d : usb_device)
      (direction : Z) (command data c : list byte) :
  build_cbw (cbw o) direction command data = inr c ->
  cbw (fst (snd (_scsi_command direction command data (o, d)))) = c.
Proof.
  intros B.
  destruct (scsi_command_shape o d direction command data)
    as (_ & _ & _ & _ & _ & _ & _ & [[_ T]|[B' _]]).
  - exfalso.
    destruct (scsi_command_trace o d direction command data c B)
      as (k & K1 & K2).
    rewrite K2 in T. destruct k as [|k]; [lia|].
    cbn [exchange firstn] in T.
    apply (f_equal (@length request)) in T.
    rewrite length_app in T. cbn [length] in T. lia.
  - congruence.
Qed.

End CommandBlockValues.

(** X16: how long the command block gets.  The block a command is sent
    with is the buffer the object keeps; its length is that of the buffer
    before or, for a command that does not fit, 15 plus the length of the
    command.  A buffer of 31 bytes stays one exactly for commands of at
    most 16 bytes: a longer command makes this and every later command
    block longer than the 31 bytes of a CBW. *)
Theorem command_block_length :
  forall (o : USBMassStorage) (d : usb_device) (direction : Z)
         (command data c : list byte),
    build_cbw (cbw o) direction command data = inr c ->
    let o' := fst (snd (_scsi_command direction command data (o, d))) in
    cbw o' = c
    /\ length c = Nat.max (length (cbw o)) (15 + length command)
    /\ (length (cbw o) = 31%nat ->
        (length c = 31%nat <-> (length command <= 16)%nat)).
Proof.
  intros o d direction command data c B o'. subst o'.
  split; [exact (scsi_command_block o d direction command data c B)|].
  destruct (build_cbw_inv _ _ _ _ _ B) as [L ->].
  rewrite cbw_image_size by exact L.
  split; [reflexivity|]. intros E. rewrite E. lia.
Qed.

Lemma command_block_length_witness :
  let o := sample_session 0 in
  let command := bytearray 17 in
  let c := cbw_image (cbw o) _DIR_OUT command 0 in
  let o' := fst (snd (_scsi_command _DIR_OUT command [] (o, mkDevice [] []))) in
  cbw o' = c
  /\ length c = Nat.max (length (cbw o)) (15 + length command)
  /\ (length (cbw o) = 31%nat ->
      (length c = 31%nat <-> (length command <= 16)%nat)).
Proof.
  intros o command c.
  apply (command_block_length o (mkDevice [] []) _DIR_OUT command [] c).
  reflexivity.
Defined.

(** X17: the header of a command block says what was meant.  Whenever a
    command is sent, bytes 8 to 11 of its block read as a little-endian
    number are [len(data)], byte 12 is [direction], byte 13 is 0 and byte
    14 is [len(command)]: the three values fit their fields, or the command
    would not have been packed. *)
Theorem command_block_header_decodes :
  forall (o : USBMassStorage) (d : usb_device) (direction : Z)
         (command data c : list byte),
    build_cbw (cbw o) direction command data = inr c ->
    (exists more,
        trace (snd (snd (_scsi_command direction command data (o, d))))
        = trace d ++ Write (out_ep o) c :: more)
    /\ le_decode (firstn 4 (skipn 8 c)) = len data
    /\ getitem c 12 = inr direction
    /\ getitem c 13 = inr 0
    /\ getitem c 14 = inr (len command).
Proof.
  intros o d direction command data c B.
  split.
  { destruct (scsi_command_trace o d direction command data c B)
      as (k & K1 & K2).
    destruct k as [|k]; [lia|].
    rewrite K2. cbn [exchange firstn]. eexists. reflexivity. }
  destruct (build_cbw_fits _ _ _ _ _ B) as (Fd & Fi & Fc).
  destruct (build_cbw_inv _ _ _ _ _ B) as [L ->].
  destruct (cbw_image_layout (cbw o) direction command (len data))
    as (_ & H8 & H12 & H13 & H14 & _); [lia|].
  rewrite H8, (getitem_nth_error _ _ _ H12), (getitem_nth_error _ _ _ H13),
    (getitem_nth_error _ _ _ H14), !byte_wrap_val.
  rewrite le_decode_le_bytes by (change (256 ^ Z.of_nat 4) with (2 ^ 32); lia).
  rewrite !Z.mod_small by lia.
  repeat split.
Qed.

Lemma command_block_header_decodes_witness :
  let o := sample_session 0 in
  let c := cbw_image (cbw o) _DIR_IN inquiry_command 36 in
  (exists more,
      trace (snd (snd (_scsi_command _DIR_IN inquiry_command (bytearray 36)
                         (o, mkDevice [] []))))
      = [] ++ Write (out_ep o) c :: more)
  /\ le_decode (firstn 4 (skipn 8 c)) = 36
  /\ getitem c 12 = inr 0x80
  /\ getitem c 13 = inr 0
  /\ getitem c 14 = inr 6.
Proof.
  intros o c.
  apply (command_block_header_decodes o (mkDevice [] []) _DIR_IN
           inquiry_command (bytearray 36) c).
  reflexivity.
Defined.

(* ------------------------------------------------------------------ *)
(** * Data the driver asks for and does not look at *)

(** X18: the inquiry data and the sense data are discarded.  Two runs of
    [_inquire] that differ in the inquiry data the device sends end in the
    same state; and [_wait_for_ready] ends in the same state, with the same
    requests made, whatever sense data and whatever status the device
    returns for the Request-Sense commands (and whatever failed status
    wrapper it sent for the Test-Unit-Ready commands that failed). *)
Theorem responses_are_discarded :
  (forall (o : USBMassStorage) (w r r' st : list byte) (rest : list reply)
          (tr : list request),
      (15 <= length (cbw o))%nat ->
      _inquire (o, mkDevice (Data w :: Data r :: Data st :: rest) tr)
      = _inquire (o, mkDevice (Data w :: Data r' :: Data st :: rest) tr))
  /\
  (forall (tries : Z) (o : USBMassStorage) (rounds rounds' : list round)
          (final : list byte) (rest : list reply) (tr : list request),
      length (csw o) = 13%nat ->
      (15 <= length (cbw o))%nat ->
      0 <= lun o < 256 ->
      Forall (fun r => csw_failed (failed r)) rounds ->
      Forall (fun r => csw_failed (failed r)) rounds' ->
      length rounds' = length rounds ->
      length final = 13%nat ->
      (length rounds <= Z.to_nat tries)%nat ->
      getitem final 12 = inr 0 \/ length rounds = Z.to_nat tries ->
      _wait_for_ready tries
        (o, mkDevice (flat_map round_replies rounds
                        ++ [ack; Data final] ++ rest) tr)
      = _wait_for_ready tries
          (o, mkDevice (flat_map round_replies rounds'
                          ++ [ack; Data final] ++ rest) tr)).
Proof.
  split.
  - intros o w r r' st rest tr L.
    rewrite !inquire_run by exact L. reflexivity.
  - intros tries o rounds rounds' final rest tr Ls Lc Hl F F' E Lf Hn He.
    rewrite (wait_for_ready_run tries o rounds final rest tr)
      by assumption.
    rewrite (wait_for_ready_run tries o rounds' final rest tr)
      by (try assumption; rewrite E; assumption).
    rewrite !map_const_repeat, E. reflexivity.
Qed.

Lemma responses_are_discarded_witness :
  _inquire (sample_session 0,
            mkDevice (Data [] :: Data (bytearray 36)
                        :: Data (status_wrapper 0) :: []) [])
  = _inquire (sample_session 0,
              mkDevice (Data [] :: Data (repeat xff 36)
                          :: Data (status_wrapper 0) :: []) [])
  /\ _wait_for_ready 100
       (sample_session 0,
        mkDevice (flat_map round_replies [sample_round]
                    ++ [ack; Data (status_wrapper 0)] ++ []) [])
     = _wait_for_ready 100
         (sample_session 0,
          mkDevice (flat_map round_replies
                      [mkRound (status_wrapper 1) (repeat xff 18)
                               (status_wrapper 1)]
                      ++ [ack; Data (status_wrapper 0)] ++ []) []).
Proof.
  split.
  - apply (proj1 responses_are_discarded). cbn. lia.
  - apply (proj2 responses_are_discarded 100 (sample_session 0)
             [sample_round]
             [mkRound (status_wrapper 1) (repeat xff 18) (status_wrapper 1)]
             (status_wrapper 0) [] []).
    + reflexivity.
    + cbn. lia.
    + cbn. lia.
    + apply (sample_rounds_failed 1).
    + constructor; [|constructor]. split; [reflexivity|].
      exists 1. split; [reflexivity|lia].
    + reflexivity.
    + reflexivity.
    + cbn. lia.
    + left. reflexivity.
Defined.

(* ------------------------------------------------------------------ *)
(** * Descriptors with more than one candidate *)

Section LastWins.

Import Descriptor.

Lemma no_in_endpoint_keeps (rs : list record) :
  forall v : scan_vars,
    Forall (fun r => in_endpoint r = false) rs ->
    s_in_ep (apply_records rs v) = s_in_ep v.
Proof.
  induction rs as [|r rs IH]; intros v N; [reflexivity|].
  inversion N as [|r' rs' Nr Nrs]; subst.
  unfold apply_records. cbn [fold_left].
  fold (apply_records rs (apply_record v r)).
  rewrite (IH _ Nrs). unfold apply_record. unfold in_endpoint in Nr.
  destruct (is_configuration r); [reflexivity|].
  destruct (is_interface r); [reflexivity|].
  destruct (is_endpoint r); cbn [andb] in *; [|reflexivity].
  rewrite Nr. destruct (in_msc_interface v); reflexivity.
Qed.

Lemma no_out_endpoint_keeps (rs : list record) :
  forall v : scan_vars,
    Forall (fun r => out_endpoint r = false) rs ->
    s_out_ep (apply_records rs v) = s_out_ep v.
Proof.
  induction rs as [|r rs IH]; intros v N; [reflexivity|].
  inversion N as [|r' rs' Nr Nrs]; subst.
  unfold apply_records. cbn [fold_left].
  fold (apply_records rs (apply_record v r)).
  rewrite (IH _ Nrs). unfold apply_record. unfold out_endpoint in Nr.
  destruct (is_configuration r); [reflexivity|].
  destruct (is_interface r); [reflexivity|].
  destruct (is_endpoint r); cbn [andb] in *; [|reflexivity].
  apply negb_false_iff in Nr.
  rewrite Nr. destruct (in_msc_interface v); reflexivity.
Qed.

Lemma no_msc_keeps (rs : list record) :
  forall v : scan_vars,
    Forall (fun r => is_msc r = false) rs ->
    msc_interface (apply_records rs v) = msc_interface v.
Proof.
  induction rs as [|r rs IH]; intros v N; [reflexivity|].
  inversion N as [|r' rs' Nr Nrs]; subst.
  unfold apply_records. cbn [fold_left].
  fold (apply_records rs (apply_record v r)).
  rewrite (IH _ Nrs). unfold apply_record. unfold is_msc in Nr.
  destruct (is_configuration r); [reflexivity|].
  destruct (is_interface r).
  - cbn [andb] in Nr. rewrite Nr. reflexivity.
  - destruct (is_endpoint r && in_msc_interface v); [|reflexivity].
    destruct (is_in r); reflexivity.
Qed.

(** The variables after an endpoint record of a Mass-Storage interface. *)
Lemma endpoint_in_msc (a b : list record) (m e : record) (v0 : scan_vars) :
  is_msc m = true ->
  Forall (fun r => is_interface r = false) b ->
  is_endpoint e = true ->
  let v := apply_records (a ++ m :: b ++ [e]) v0 in
  (is_in e = true -> s_in_ep v = field e 2)
  /\ (is_in e = false -> s_out_ep v = field e 2)
  /\ msc_interface v = Some (field m 2).
Proof.
  intros Hm Hb He v. subst v.
  rewrite apply_records_app.
  change (m :: b ++ [e]) with ([m] ++ b ++ [e]).
  rewrite !apply_records_app.
  set (va := apply_records a v0).
  unfold is_msc in Hm.
  apply andb_true_iff in Hm. destruct Hm as [Hm H6].
  apply andb_true_iff in Hm. destruct Hm as [Hi H5].
  destruct (interface_not_other m Hi) as [Cm _].
  assert (M : msc_interface (apply_records [m] va) = Some (field m 2)
              /\ in_msc_interface (apply_records [m] va) = true).
  { unfold apply_records. cbn [fold_left]. unfold apply_record.
    rewrite Cm, Hi, H5, H6. split; reflexivity. }
  destruct M as [M1 M2].
  destruct (inside_msc b (apply_records [m] va) Hb M2) as (_ & _ & B3 & B4).
  cbv zeta in B3, B4.
  set (vb := apply_records b (apply_records [m] va)) in *.
  destruct (endpoint_not_other e He) as [Ce Ie].
  unfold apply_records at 1 2 3. cbn [fold_left]. unfold apply_record.
  rewrite Ce, Ie, He, B4. cbn [andb].
  destruct (is_in e);
    cbn [s_in_ep s_out_ep msc_interface];
    (split; [intros; reflexivity || discriminate|]);
    (split; [intros; reflexivity || discriminate|]);
    rewrite B3; exact M1.
Qed.

(** X11: the last endpoint record counts.  In a well-formed descriptor,
    an endpoint record that lies in a Mass-Storage interface gives the
    object its address, whatever came before it (an earlier Mass-Storage
    interface with endpoints of its own too), unless an endpoint record of
    the same direction follows; and the interface number used for
    Get-Max-LUN is that of the last Mass-Storage interface record, whether
    or not the endpoints came from that interface. *)
Theorem last_endpoint_wins :
  forall (a b post : list record) (m e : record) (fuel : nat),
    Forall (fun r => well_formed r = true) (a ++ m :: b ++ e :: post) ->
    (length (a ++ m :: b ++ e :: post) < fuel)%nat ->
    is_msc m = true ->
    Forall (fun r => is_interface r = false) b ->
    is_endpoint e = true ->
    exists v,
      scan fuel (concat (a ++ m :: b ++ e :: post)) = Return v
      /\ (is_in e = true ->
          Forall (fun r => in_endpoint r = false) post ->
          s_in_ep v = field e 2)
      /\ (is_in e = false ->
          Forall (fun r => out_endpoint r = false) post ->
          s_out_ep v = field e 2)
      /\ (Forall (fun r => is_msc r = false) post ->
          msc_interface v = Some (field m 2)).
Proof.
  intros a b post m e fuel W F Hm Hb He.
  eexists. split; [apply scan_records; assumption|].
  replace (a ++ m :: b ++ e :: post) with ((a ++ m :: b ++ [e]) ++ post)
    by (rewrite <- !app_assoc; cbn [app]; rewrite <- app_assoc; reflexivity).
  rewrite apply_records_app.
  destruct (endpoint_in_msc a b m e scan_start Hm Hb He) as (E1 & E2 & E3).
  cbv zeta in E1, E2, E3.
  split; [|split].
  - intros I N. rewrite no_in_endpoint_keeps by exact N. exact (E1 I).
  - intros I N. rewrite no_out_endpoint_keeps by exact N. exact (E2 I).
  - intros N. rewrite no_msc_keeps by exact N. exact E3.
Qed.

Lemma last_endpoint_wins_witness :
  exists v,
    scan 10 (concat ([sample_configuration; sample_interface;
                      sample_in_endpoint; sample_out_endpoint]
                       ++ second_interface :: [] ++ second_in_endpoint :: []))
    = Return v
    /\ s_in_ep v = 0x83
    /\ msc_interface v = Some 1.
Proof.
  destruct (last_endpoint_wins
              [sample_configuration; sample_interface;
               sample_in_endpoint; sample_out_endpoint]
              [] [] second_interface second_in_endpoint 10)
    as (v & E & I & _ & M).
  - repeat constructor.
  - cbn. lia.
  - reflexivity.
  - constructor.
  - reflexivity.
  - exists v. split; [exact E|]. split.
    + apply I; [reflexivity|constructor].
    + apply M. constructor.
Defined.

End LastWins.

(* ------------------------------------------------------------------ *)
(** * What the methods raise *)

Section Safe.

Variable P : exn -> Prop.

Lemma safe_ret {A} (a : A) : session_safe P (ret a).
Proof. intros s H. split; [exact H|exact I]. Qed.

Lemma safe_raise {A} (e : exn) : P e -> session_safe P (@raise A e).
Proof. intros Pe s H. split; [exact H|exact Pe]. Qed.

Lemma safe_bind_from {A B} (m : M A) (k : A -> M B) :
  session_safe P m ->
  (forall s a s',
      session (fst s) -> m s = (Return a, s') -> session (fst s') ->
      ends_safely P (k a s')) ->
  session_safe P (bind m k).
Proof.
  intros Hm Hk s Hs. unfold bind. destruct (Hm s Hs) as [S1 E1].
  destruct (m s) as [[a|e|] s1] eqn:E; cbn [fst snd] in *.
  - apply (Hk s a s1 Hs E S1).
  - split; assumption.
  - contradiction.
Qed.

Lemma safe_bind {A B} (m : M A) (k : A -> M B) :
  session_safe P m -> (forall a, session_safe P (k a)) ->
  session_safe P (bind m k).
Proof.
  intros Hm Hk. apply safe_bind_from; [exact Hm|].
  intros s a s' _ _ S. apply (Hk a s' S).
Qed.

(** Sequencing after [self]: what follows runs on the object read. *)
Lemma safe_self {A} (k : USBMassStorage -> M A) :
  (forall o d, session o -> ends_safely P (k o (o, d))) ->
  session_safe P (bind get_self k).
Proof. intros H [o d] S. apply (H o d S). Qed.

End Safe.

Lemma safe_weaken {A} (P Q : exn -> Prop) (m : M A) :
  (forall e, P e -> Q e) -> session_safe P m -> session_safe Q m.
Proof.
  intros I H s S. destruct (H s S) as [H1 H2]. split; [exact H1|].
  destruct (fst (m s)); cbn in *; auto.
Qed.

Lemma scsi_command_returned (o : USBMassStorage) (d : usb_device)
      (direction : Z) (command data x : list byte) (s' : state) :
  _scsi_command direction command data (o, d) = (Return x, s') ->
  length x = length data.
Proof.
  intros E.
  destruct (scsi_command_shape o d direction command data)
    as (_ & _ & _ & _ & _ & _ & H & _).
  rewrite E in H. apply H.
Qed.

Lemma scsi_command_safe (direction : Z) (command data : list byte) :
  len data < 2 ^ 32 -> 0 <= direction < 256 ->
  (length command <= 16)%nat ->
  session_safe transfer_error (_scsi_command direction command data).
Proof.
  intros Ld Hd Lc [o d] S. cbn [fst] in S. split.
  - exact (steady_session _ _ _
             (scsi_command_steady false direction command data Lc (o, d)) S).
  - pose proof (session_command_outcome o d direction command data S Ld Hd)
      as H.
    destruct (fst (_scsi_command direction command data (o, d)));
      cbn [ends_well]; [exact I|apply H|apply H]; unfold len; lia.
Qed.

Lemma sleep_safe (P : exn -> Prop) : session_safe P sleep.
Proof. intros [o d] S. split; [exact S|exact I]. Qed.

Lemma status_byte_there (o : USBMassStorage) :
  session o -> exists z, getitem (csw o) 12 = inr z.
Proof.
  intros (_ & _ & S3 & _). unfold getitem.
  destruct (nth_error (csw o) 12) as [b|] eqn:E; [eexists; reflexivity|].
  apply nth_error_None in E. lia.
Qed.

Lemma final_check_safe : session_safe readiness_error final_check.
Proof.
  unfold final_check. apply safe_self. intros o d S. cbn [fst snd].
  destruct (status_byte_there o S) as [z ->].
  unfold bind, lift, ret.
  destruct (negb (z =? 0)); cbn [fst snd raise];
    (split; [exact S|]); [left; reflexivity|exact I].
Qed.

Lemma wait_loop_safe (remaining : nat) (t sn : list byte) :
  (length t <= 16)%nat -> (length sn <= 16)%nat ->
  forall sr : list byte,
    len sr < 2 ^ 32 ->
    session_safe readiness_error (wait_loop remaining t sn sr).
Proof.
  intros Lt Ls.
  induction remaining as [|n IH]; intros sr Lr; cbn [wait_loop];
    apply safe_self; intros o d S;
    destruct (status_byte_there o S) as [z E]; rewrite E;
    rewrite bind_run; unfold lift at 1, ret at 1;
    destruct (negb (z =? 0));
    try (split; [exact S|exact I]).
  apply (safe_bind readiness_error); [apply sleep_safe| |exact S].
  intros _.
  apply (safe_bind_from readiness_error).
  - apply (safe_weaken transfer_error); [intros e H; right; exact H|].
    apply scsi_command_safe; [exact Lr|unfold _DIR_IN; lia|exact Ls].
  - intros [o1 d1] x s' S1 Ex S'.
    apply scsi_command_returned in Ex.
    apply (safe_bind readiness_error); [| |exact S'].
    + apply (safe_weaken transfer_error); [intros e H; right; exact H|].
      apply scsi_command_safe; [reflexivity|unfold _DIR_OUT; lia|exact Lt].
    + intros _. apply IH. unfold len in *. rewrite Ex. exact Lr.
Qed.

Lemma wait_for_ready_safe (tries : Z) :
  session_safe readiness_error (_wait_for_ready tries).
Proof.
  unfold _wait_for_ready.
  apply safe_bind.
  { intros [o d] S. cbn [fst] in S. split.
    - exact (steady_session _ _ _ (self_csw_setitem_steady false 12 1 (o, d)) S).
    - destruct S as (_ & _ & S3 & _).
      unfold self_csw_setitem, bind, get_self, lift, setitem. cbn [fst].
      rewrite S3. exact I. }
  intros _. apply safe_self. intros o d S.
  pose proof S as (_ & _ & _ & S4 & _).
  rewrite test_ready_built by exact S4.
  rewrite bind_run. unfold lift at 1, ret at 1.
  rewrite sense_built.
  rewrite bind_run. unfold lift at 1, ret at 1.
  apply (safe_bind readiness_error); [| |exact S].
  - apply (safe_weaken transfer_error); [intros e H; right; exact H|].
    apply scsi_command_safe; [reflexivity|unfold _DIR_OUT; lia|cbn; lia].
  - intros _. apply safe_bind.
    + apply wait_loop_safe; [cbn; lia|cbn; lia|reflexivity].
    + intros _. apply final_check_safe.
Qed.

Lemma inquire_safe : session_safe transfer_error _inquire.
Proof.
  unfold _inquire.
  change (lift _) with (@ret (list byte) inquiry_command).
  intros s S. rewrite bind_run. unfold ret at 1.
  revert s S. apply safe_bind.
  - apply scsi_command_safe; [reflexivity|unfold _DIR_IN; lia|cbn; lia].
  - intros _. apply safe_ret.
Qed.

Lemma modify_capacity_safe (P : exn -> Prop)
      (f : USBMassStorage -> USBMassStorage) :
  (forall o, in_ep (f o) = in_ep o /\ out_ep (f o) = out_ep o
             /\ lun (f o) = lun o /\ cbw (f o) = cbw o /\ csw (f o) = csw o) ->
  session_safe P (modify_self f).
Proof.
  intros H [o d] S. split; [|exact I].
  exact (steady_session _ _ _ (modify_self_steady false f H (o, d)) S).
Qed.

Lemma read_capacity_safe : session_safe transfer_error _read_capacity.
Proof.
  unfold _read_capacity. rewrite read_capacity_built.
  intros s S. rewrite bind_run. unfold lift at 1, ret at 1.
  revert s S. apply safe_bind_from.
  - apply scsi_command_safe; [reflexivity|unfold _DIR_IN; lia|cbn; lia].
  - intros [o d] x s' S Ex S'. apply scsi_command_returned in Ex.
    unfold Struct.unpack_II_be. rewrite Ex. cbn [length bytearray repeat].
    change (8 =? 8)%nat with true. cbv iota.
    rewrite bind_run. unfold lift at 1, ret at 1.
    revert s' S'.
    repeat (apply safe_bind; [|intros _]);
      apply modify_capacity_safe; intros o'; destruct o'; repeat split.
Qed.

Lemma ioctl_safe (operation : Z) : session_safe transfer_error (ioctl operation).
Proof.
  unfold ioctl.
  destruct (operation =? _MP_BLOCKDEV_IOCTL_BLOCK_COUNT); [|apply safe_ret].
  apply safe_bind; [intros s S; split; [exact S|exact I]|intros self].
  apply safe_bind.
  - destruct (falsy (sector_count self));
      [apply read_capacity_safe|apply safe_ret].
  - intros _. apply safe_bind;
      [intros s S; split; [exact S|exact I]|intros; apply safe_ret].
Qed.

(** X6: what the methods of a session raise.  On a session, [ioctl],
    [_inquire] and [_read_capacity] return or raise [usb.core.USBError],
    and [_wait_for_ready] returns or raises [usb.core.USBError] or
    "Out of tries"; none of them raises [IndexError], [ValueError] or
    [struct.error], whatever the device sends. *)
Theorem session_method_errors :
  forall (o : USBMassStorage) (d : usb_device) (tries operation : Z),
    session o ->
    ends_well transfer_error (fst (ioctl operation (o, d)))
    /\ ends_well transfer_error (fst (_inquire (o, d)))
    /\ ends_well transfer_error (fst (_read_capacity (o, d)))
    /\ ends_well readiness_error (fst (_wait_for_ready tries (o, d))).
Proof.
  intros o d tries operation S.
  split; [|split; [|split]].
  - apply (ioctl_safe operation (o, d) S).
  - apply (inquire_safe (o, d) S).
  - apply (read_capacity_safe (o, d) S).
  - apply (wait_for_ready_safe tries (o, d) S).
Qed.

Lemma session_method_errors_witness :
  let o := sample_session 0 in
  let d := mkDevice [ack; Data []; Fail OtherFailure] [] in
  session o
  /\ ends_well transfer_error (fst (ioctl 4 (o, d)))
  /\ ends_well transfer_error (fst (_inquire (o, d)))
  /\ ends_well transfer_error (fst (_read_capacity (o, d)))
  /\ ends_well readiness_error (fst (_wait_for_ready 2 (o, d))).
Proof.
  intros o d.
  assert (S : session o) by (apply sample_session_is_session; lia).
  split; [exact S|].
  exact (session_method_errors o d 2 4 S).
Defined.

(** X7: what a construction raises.  Whatever the device sends and
    whatever the LUN, [__init__] returns, or raises one of [IndexError]
    (from the scan), the two [ValueError]s (no MSC interface; a LUN that is
    no byte), [usb.core.USBError] and "Out of tries", or does not end, and
    that only when the scan of the descriptor received does not end.  It
    never raises [struct.error]. *)
Theorem construction_errors :
  forall (fuel : nat) (lun_arg : Z) (o0 : USBMassStorage) (d : usb_device),
    match fst (__init__ fuel lun_arg (o0, d)) with
    | Return _ => True
    | Raise e => construction_error e
    | Diverge =>
        exists desc rest,
          script d = Data desc :: rest /\ scan fuel desc = Diverge
    end.
Proof.
  intros fuel lun_arg o0 [sc tr].
  unfold __init__. rewrite bind_run. unfold transfer at 1.
  cbn [script trace].
  destruct sc as [|[desc|f] sc]; cbn [fst];
    [do 3 right; right; eexists; reflexivity|
    |do 3 right; right; eexists; reflexivity].
  pose proof (init_cases fuel desc lun_arg o0 sc
                (tr ++ [GetConfigurationDescriptor 0])) as C.
  cbv zeta in C.
  pose proof (scan_result_in_range fuel desc) as Rg.
  destruct (scan fuel desc) as [v|e|] eqn:Es.
  2: { rewrite C. cbn [fst]. left. exact Rg. }
  2: { rewrite C. cbn [fst]. exists desc, sc. split; [reflexivity|exact Es]. }
  destruct ((s_in_ep v =? 0) || (s_out_ep v =? 0)) eqn:Ez.
  { rewrite C. cbn [fst]. right. left. reflexivity. }
  apply orb_false_iff in Ez. destruct Ez as [Zi Zo].
  apply Z.eqb_neq in Zi. apply Z.eqb_neq in Zo.
  set (o1 := set_lun lun_arg _) in C.
  assert (L1 : lun o1 = lun_arg) by reflexivity.
  assert (I1 : in_ep o1 = s_in_ep v) by reflexivity.
  assert (O1 : out_ep o1 = s_out_ep v) by reflexivity.
  clearbody o1.
  assert (G : forall d1,
             match fst (open_session (o1, d1)) with
             | Return _ => True
             | Raise e => construction_error e
             | Diverge =>
                 exists desc0 rest,
                   Data desc :: sc = Data desc0 :: rest
                   /\ scan fuel desc0 = Diverge
             end).
  { intros d1.
    destruct (Z_le_dec 0 lun_arg) as [Lo|Lo];
      [destruct (Z_lt_dec lun_arg 256) as [Hi|Hi]|].
    2,3: destruct (open_session_bad_lun o1 d1) as [o' E];
         [lia|rewrite E; cbn [fst]; right; right; left; reflexivity].
    rewrite open_session_run by lia.
    set (o2 := with_buffers o1 _ _).
    destruct (with_buffers_fields o1 (cbw_template (lun o1)) csw_template)
      as (F1 & F2 & F3 & _ & _ & F6 & F7).
    fold o2 in F1, F2, F3, F6, F7.
    assert (S2 : session o2).
    { destruct Rg as (Ri & Ro & _ & _).
      unfold session. rewrite F1, F2, F3, F6, F7, I1, O1, L1.
      split; [apply template_lun_index|]. split; [apply cbw_template_head|].
      split; [reflexivity|]. split; [lia|]. split; lia. }
    assert (K : session_safe readiness_error
                  (_inquire ;;; _wait_for_ready 100)).
    { apply safe_bind.
      - apply (safe_weaken transfer_error); [intros e H; right; exact H|].
        apply inquire_safe.
      - intros _. apply wait_for_ready_safe. }
    destruct (K (o2, d1) S2) as [_ K2].
    destruct (fst ((_inquire ;;; _wait_for_ready 100) (o2, d1)));
      cbn [ends_well] in K2; [exact I| |contradiction].
    do 3 right. exact K2. }
  destruct sc as [|[a|f] sc].
  - rewrite C. cbn [fst]. do 3 right. right. eexists. reflexivity.
  - destruct sc as [|r rest]; rewrite C; apply G.
  - rewrite C. cbn [fst]. do 3 right. right. eexists. reflexivity.
Qed.

(* ------------------------------------------------------------------ *)
(** * The block size the device reports *)

Section BlockSize.

Lemma ignores_ret {A} (a : A) : ignores_block_size (ret a).
Proof. intros b o d. destruct o; reflexivity. Qed.

Lemma ignores_raise {A} (e : exn) : ignores_block_size (@raise A e).
Proof. intros b o d. destruct o; reflexivity. Qed.

Lemma ignores_lift {A} (r : exn + A) : ignores_block_size (lift r).
Proof. destruct r; [apply ignores_raise|apply ignores_ret]. Qed.

Lemma ignores_transfer (q : request) : ignores_block_size (transfer q).
Proof.
  intros b o [sc tr]. unfold transfer. cbn [script trace].
  destruct sc as [|[bs|f] rest]; destruct o; reflexivity.
Qed.

Lemma ignores_sleep : ignores_block_size sleep.
Proof. intros b o d. destruct o; reflexivity. Qed.

(** An assignment whose effect on the other attributes does not depend
    on [block_size]. *)
Lemma ignores_modify_self (f : USBMassStorage -> USBMassStorage) :
  (forall b o, set_block_size None (f (set_block_size b o))
               = set_block_size None (f o)) ->
  ignores_block_size (modify_self f).
Proof.
  intros H b o d. unfold forget_block_size, modify_self. cbn [fst snd].
  rewrite H. reflexivity.
Qed.

Lemma same_but_block_size (o o' : USBMassStorage) :
  set_block_size None o' = set_block_size None o ->
  o' = set_block_size (block_size o') o.
Proof.
  destruct o as [i1 e1 n1 b1 l1 c1 t1], o' as [i2 e2 n2 b2 l2 c2 t2].
  unfold set_block_size.
  cbn [in_ep out_ep sector_count block_size lun cbw csw].
  intros H. injection H as -> -> -> -> -> ->. reflexivity.
Qed.

Lemma ignores_bind {A B} (m : M A) (k : A -> M B) :
  ignores_block_size m -> (forall a, ignores_block_size (k a)) ->
  ignores_block_size (bind m k).
Proof.
  intros Hm Hk b o d. specialize (Hm b o d).
  unfold bind, forget_block_size in *.
  destruct (m (set_block_size b o, d)) as [r1 [o1 d1]].
  destruct (m (o, d)) as [r2 [o2 d2]].
  cbn [fst snd] in Hm.
  assert (Er : r1 = r2) by congruence.
  assert (Eo : set_block_size None o1 = set_block_size None o2) by congruence.
  assert (Ed : d1 = d2) by congruence.
  subst r2 d2.
  destruct r1 as [a|e|]; cbn [fst snd]; [|congruence|congruence].
  rewrite (same_but_block_size o2 o1 Eo). apply Hk.
Qed.

(** After [self]: what follows may use every attribute but
    [block_size]. *)
Lemma ignores_self {A} (k : USBMassStorage -> M A) :
  (forall b o s, k (set_block_size b o) s = k o s) ->
  (forall self, ignores_block_size (k self)) ->
  ignores_block_size (bind get_self k).
Proof.
  intros E H b o d. unfold bind, get_self. cbn [fst snd].
  rewrite E. apply H.
Qed.

Ltac ignore_leaf :=
  first
    [ apply ignores_ret | apply ignores_raise | apply ignores_lift
    | apply ignores_transfer | apply ignores_sleep
    | apply ignores_modify_self; intros ? o'; destruct o'; reflexivity ].

Lemma ignores_device_write (ep : Z) (data : list byte) :
  ignores_block_size (device_write ep data).
Proof.
  unfold device_write. apply ignores_bind; [|intros]; ignore_leaf.
Qed.

Lemma ignores_device_read (ep : Z) (buf : list byte) :
  ignores_block_size (device_read ep buf).
Proof.
  unfold device_read. apply ignores_bind; [|intros]; ignore_leaf.
Qed.

Lemma ignores_scsi_command (direction : Z) (command data : list byte) :
  ignores_block_size (_scsi_command direction command data).
Proof.
  unfold _scsi_command.
  apply ignores_self; [intros; reflexivity|intros self].
  apply ignores_bind; [ignore_leaf|intros c].
  apply ignores_bind; [ignore_leaf|intros _].
  apply ignores_self; [intros; reflexivity|intros self'].
  apply ignores_bind; [apply ignores_device_write|intros _].
  apply ignores_bind.
  - destruct (nonempty data); [|ignore_leaf].
    destruct (direction =? _DIR_IN); [apply ignores_device_read|].
    apply ignores_bind; [apply ignores_device_write|intros; ignore_leaf].
  - intros data'.
    apply ignores_bind; [apply ignores_device_read|intros st].
    apply ignores_bind; [|intros]; ignore_leaf.
Qed.

Lemma ignores_wait_loop (remaining : nat) (t sn sr : list byte) :
  ignores_block_size (wait_loop remaining t sn sr).
Proof.
  revert sr. induction remaining as [|n IH]; intros sr; cbn [wait_loop];
    (apply ignores_self; [intros; reflexivity|intros self]);
    (apply ignores_bind; [ignore_leaf|intros st]);
    destruct (negb (st =? 0)); try ignore_leaf.
  apply ignores_bind; [ignore_leaf|intros _].
  apply ignores_bind; [apply ignores_scsi_command|intros x].
  apply ignores_bind; [apply ignores_scsi_command|intros _].
  apply IH.
Qed.

Lemma ignores_wait_for_ready (tries : Z) :
  ignores_block_size (_wait_for_ready tries).
Proof.
  unfold _wait_for_ready.
  apply ignores_bind.
  { unfold self_csw_setitem.
    apply ignores_self; [intros; reflexivity|intros self].
    apply ignores_bind; [|intros]; ignore_leaf. }
  intros _.
  apply ignores_self; [intros; reflexivity|intros self].
  apply ignores_bind; [ignore_leaf|intros t].
  apply ignores_bind; [ignore_leaf|intros sn].
  apply ignores_bind; [apply ignores_scsi_command|intros _].
  apply ignores_bind; [apply ignores_wait_loop|intros _].
  apply ignores_self; [intros; reflexivity|intros self'].
  apply ignores_bind; [ignore_leaf|intros st].
  destruct (negb (st =? 0)); ignore_leaf.
Qed.

Lemma ignores_inquire : ignores_block_size _inquire.
Proof.
  unfold _inquire.
  apply ignores_bind; [ignore_leaf|intros c].
  apply ignores_bind; [apply ignores_scsi_command|intros; ignore_leaf].
Qed.

Lemma ignores_read_capacity : ignores_block_size _read_capacity.
Proof.
  unfold _read_capacity.
  apply ignores_bind; [ignore_leaf|intros c].
  apply ignores_bind; [apply ignores_scsi_command|intros r].
  apply ignores_bind; [ignore_leaf|intros p].
  apply ignores_bind; [ignore_leaf|intros _].
  apply ignores_bind; [ignore_leaf|intros _].
  ignore_leaf.
Qed.

Lemma ignores_readblocks (block_num : Z) (buf : list byte) :
  ignores_block_size (readblocks block_num buf).
Proof.
  unfold readblocks.
  apply ignores_self; [intros; reflexivity|intros self].
  apply ignores_bind; [ignore_leaf|intros c]. apply ignores_scsi_command.
Qed.

Lemma ignores_writeblocks (block_num : Z) (buf : list byte) :
  ignores_block_size (writeblocks block_num buf).
Proof.
  unfold writeblocks.
  apply ignores_self; [intros; reflexivity|intros self].
  apply ignores_bind; [ignore_leaf|intros c]. apply ignores_scsi_command.
Qed.

Lemma ignores_ioctl (operation : Z) : ignores_block_size (ioctl operation).
Proof.
  unfold ioctl.
  destruct (operation =? _MP_BLOCKDEV_IOCTL_BLOCK_COUNT); [|ignore_leaf].
  apply ignores_self; [intros; reflexivity|intros self].
  apply ignores_bind.
  - destruct (falsy (sector_count self));
      [apply ignores_read_capacity|ignore_leaf].
  - intros _. apply ignores_self; [intros; reflexivity|intros self'].
    ignore_leaf.
Qed.

End BlockSize.

(** X19: the block size the device reports is stored and never used.
    Whatever [self.block_size] holds, every method does the same: for two
    objects that differ in that attribute only, [readblocks],
    [writeblocks], [ioctl], [_inquire], [_read_capacity] and
    [_wait_for_ready] end with the same outcome, make the same requests,
    consume the same replies and leave objects that again differ in
    [block_size] at most.  In particular the block count of a Read(10) or
    Write(10) is [len(buf) // 512] whatever size the device has. *)
Theorem block_size_is_never_read :
  forall (b : option Z) (o : USBMassStorage) (d : usb_device)
         (block_num tries operation : Z) (buf : list byte),
    let same {A} (m : M A) :=
      forget_block_size (m (set_block_size b o, d))
      = forget_block_size (m (o, d)) in
    same (readblocks block_num buf)
    /\ same (writeblocks block_num buf)
    /\ same (ioctl operation)
    /\ same _inquire
    /\ same _read_capacity
    /\ same (_wait_for_ready tries).
Proof.
  intros b o d block_num tries operation buf same. subst same. cbv beta.
  split; [|split; [|split; [|split; [|split]]]].
  - apply ignores_readblocks.
  - apply ignores_writeblocks.
  - apply ignores_ioctl.
  - apply ignores_inquire.
  - apply ignores_read_capacity.
  - apply ignores_wait_for_ready.
Qed.

(* ------------------------------------------------------------------ *)
(** * Failed transfers after construction *)

(** X8: no method retries or swallows a failed transfer.  In every call of
    [readblocks], [writeblocks], [ioctl], [_inquire], [_read_capacity] and
    [_wait_for_ready], a transfer that fails is the last thing the call
    asks of the device, and its [usb.core.USBError] is what the call
    raises. *)
Theorem method_failures_surface :
  forall (s : state) (block_num tries operation : Z) (buf : list byte),
    failure_is_last s (readblocks block_num buf s)
    /\ failure_is_last s (writeblocks block_num buf s)
    /\ failure_is_last s (ioctl operation s)
    /\ failure_is_last s (_inquire s)
    /\ failure_is_last s (_read_capacity s)
    /\ failure_is_last s (_wait_for_ready tries s).
Proof.
  intros s block_num tries operation buf.
  split; [|split; [|split; [|split; [|split]]]].
  - apply surfaces_failure_is_last, surfaces_readblocks.
  - apply surfaces_failure_is_last, surfaces_writeblocks.
  - apply surfaces_failure_is_last, surfaces_ioctl.
  - apply surfaces_failure_is_last, surfaces_inquire.
  - apply surfaces_failure_is_last, surfaces_read_capacity.
  - apply surfaces_failure_is_last, surfaces_wait_for_ready.
Qed.
